(** * mab-calculator: a shallow embedding of the bandit simulation engine

    The development follows the three source files:
    - [experiments.py]: the reward generator, the Thompson Sampling
      allocator, the control allocator and the two time-series drivers;
    - [util.py]: [format_as_dataframe] and [create_misclassification_df];
    - [app.py]: the scale factor, the headline totals and the cumulative
      cost series.

    Python integers are [Z]; Python floats are binary64 values, modelled by
    the rational they denote, every arithmetic operation being the exact
    operation followed by rounding to nearest, ties to even ([b64]).
    Dictionaries are [gmap]s, Python lists are lists read with [!!] and
    written with [<[_:=_]>], and exceptions are the [Raise] branch of
    [result]. The random sources are an interface ([RandomSource]).
    The cells of an allocation table are taken as [Z]: the counts of a
    simulation stay far below the 64 bits of their dtype. The scaled
    misclassification tables and the cost series are [int64] values, and
    every operation of pandas on them wraps around ([wrap64]). *)

From Stdlib Require Import ZArith QArith Qround Qabs Qpower Lqa Lia.
From stdpp Require Import gmap list fin_maps.

(** ** Exceptions and the error monad *)

(** The exceptions the modelled code can raise, and [InvalidParameterError],
    which the specification names and which no code path constructs. *)
Inductive exn : Type :=
  | AssertionError
  | IndexError
  | KeyError
  | ValueError
  | ZeroDivisionError
  | InvalidParameterError.

Inductive result (A : Type) : Type :=
  | Ok (a : A)
  | Raise (e : exn).
Arguments Ok {A} a.
Arguments Raise {A} e.

Definition rbind {A B : Type} (m : result A) (k : A -> result B) : result B :=
  match m with
  | Ok a => k a
  | Raise e => Raise e
  end.

Notation "'let*' x ':=' m 'in' k" := (rbind m (fun x => k))
  (at level 10, x pattern, m at level 100, k at level 200).

(** [l[i]] on a Python list, for a non-negative index. *)
Definition getitem {A : Type} (l : list A) (i : nat) : result A :=
  match l !! i with
  | Some x => Ok x
  | None => Raise IndexError
  end.

(** [l[i] = x] on a Python list, for a non-negative index. *)
Definition setitem {A : Type} (l : list A) (i : nat) (x : A) : result (list A) :=
  if decide (i < length l) then Ok (<[i:=x]> l) else Raise IndexError.

(** [d[k]] on a dict. *)
Definition dict_getitem (d : gmap nat Z) (k : nat) : result Z :=
  match d !! k with
  | Some v => Ok v
  | None => Raise KeyError
  end.

(** [sum(d.values())]. *)
Definition sum_values (d : gmap nat Z) : Z :=
  map_fold (fun _ v acc => (v + acc)%Z) 0%Z d.

(** ** Binary64 arithmetic *)

Module Float64.

(** Round to the nearest integer, ties to the even one ([numpy.rint],
    which [Series.round] uses). *)
Definition rne (x : Q) : Z :=
  let f := Qfloor x in
  match Qcompare (x - inject_Z f)%Q (1 # 2)%Q with
  | Lt => f
  | Gt => (f + 1)%Z
  | Eq => if Z.even f then f else (f + 1)%Z
  end.

Definition pow2 (e : Z) : Q := Qpower 2 e.

(** The exponent [e] of the unit in the last place of a positive rational
    [a]: the one with [2^52 <= a / 2^e < 2^53]. *)
Definition ulp_exp (a : Q) : Z :=
  let e0 := (Z.log2 (Qnum a) - Z.log2 (Zpos (Qden a)) - 53)%Z in
  if Qle_bool (pow2 53) (a / pow2 e0)%Q then (e0 + 1)%Z else e0.

(** Rounding of a rational to the nearest binary64 value, ties to even:
    a 53-bit significand, the exponent range not bounded (no quantity
    of the program leaves the normal range). *)
Definition b64 (x : Q) : Q :=
  if Qeq_bool x 0 then 0%Q
  else
    let a := Qabs x in
    let e := ulp_exp a in
    (inject_Z (Z.sgn (Qnum x) * rne (a / pow2 e)%Q) * pow2 e)%Q.

(** [float(z)] *)
Definition of_int (z : Z) : Q := b64 (inject_Z z).
Definition fsub (x y : Q) : Q := b64 (x - y)%Q.
Definition fmul (x y : Q) : Q := b64 (x * y)%Q.
(** [a / b] on Python integers (true division, correctly rounded). *)
Definition int_truediv (a b : Z) : result Q :=
  if decide (b = 0%Z) then Raise ZeroDivisionError
  else Ok (b64 (inject_Z a / inject_Z b)%Q).
(** [y > x] on floats. *)
Definition fgt (y x : Q) : bool :=
  match Qcompare y x with
  | Gt => true
  | _ => false
  end.

End Float64.
Import Float64.

(** ** Random sources *)

(** [random.betavariate] of the Python standard library and
    [numpy.random.Generator.binomial] are taken as an interface over a
    generator state [G]: the laws are the ranges of the samples and the
    argument checks the libraries document. *)
Class RandomSource (G : Type) : Type := {
  (** [random.betavariate(alpha, beta)] *)
  betavariate : Z -> Z -> G -> result (Q * G);
  (** [rng.binomial(1, p, size)] *)
  binomial1 : Q -> Z -> G -> result (list Z * G)
}.

Class RandomSourceLaws (G : Type) `{RandomSource G} : Prop := {
  betavariate_range : forall (a b : Z) (g : G),
    (0 < a)%Z -> (0 < b)%Z ->
    exists (x : Q) (g' : G),
      betavariate a b g = Ok (x, g') /\ (0 <= x)%Q /\ (x <= 1)%Q;
  binomial1_ok : forall (p : Q) (size : Z) (g : G),
    (0 <= p)%Q -> (p <= 1)%Q -> (0 <= size)%Z ->
    exists (xs : list Z) (g' : G),
      binomial1 p size g = Ok (xs, g') /\
      length xs = Z.to_nat size /\
      Forall (fun x => x = 0%Z \/ x = 1%Z) xs;
  binomial1_bad_p : forall (p : Q) (size : Z) (g : G),
    ~ ((0 <= p)%Q /\ (p <= 1)%Q) -> binomial1 p size g = Raise ValueError;
  binomial1_bad_size : forall (p : Q) (size : Z) (g : G),
    (size < 0)%Z -> binomial1 p size g = Raise ValueError
}.

(** A random source that reads its draws from a tape of rationals; a draw
    outside [[0,1]] and the end of the tape read as [0]. *)
Definition tape_next (g : list Q) : Q * list Q :=
  match g with
  | [] => (0%Q, [])
  | x :: g' =>
      if Qle_bool 0 x && Qle_bool x 1 then (x, g') else (0%Q, g')
  end.

Fixpoint tape_bernoulli (p : Q) (n : nat) (g : list Q) : list Z * list Q :=
  match n with
  | O => ([], g)
  | S n' =>
      let '(u, g1) := tape_next g in
      let '(xs, g2) := tape_bernoulli p n' g1 in
      ((if fgt p u then 1%Z else 0%Z) :: xs, g2)
  end.

Definition tape_betavariate (a b : Z) (g : list Q) : result (Q * list Q) :=
  if decide (0 < a)%Z then
    if decide (0 < b)%Z then Ok (tape_next g) else Raise ValueError
  else Raise ValueError.

Definition tape_binomial1 (p : Q) (size : Z) (g : list Q)
  : result (list Z * list Q) :=
  if Qle_bool 0 p && Qle_bool p 1 then
    if decide (0 <= size)%Z then Ok (tape_bernoulli p (Z.to_nat size) g)
    else Raise ValueError
  else Raise ValueError.

Global Instance tape_source : RandomSource (list Q) := {|
  betavariate := tape_betavariate;
  binomial1 := tape_binomial1
|}.

(** ** Reward batches *)

(** A [pandas.DataFrame] of rewards, one column per model: [len(data)] is
    [index_len], [len(data.columns)] the number of columns, and
    [data.values[n, b]] the cell of row [n] in column [b]. *)
Record DataFrame : Type := {
  index_len : nat;
  columns : list (list Z)
}.

(** Every column holds one cell per index entry. *)
Definition rectangular (data : DataFrame) : Prop :=
  Forall (fun c => length c = index_len data) (columns data).

Definition values_at (data : DataFrame) (n b : nat) : result Z :=
  if decide (n < index_len data) then
    let* c := getitem (columns data) b in getitem c n
  else Raise IndexError.

(** [pd.DataFrame(data)] for a dict of equally long arrays, given here as
    the list of its values in insertion order. *)
Definition DataFrame_of_columns (cols : list (list Z)) : DataFrame :=
  {| index_len := match cols with
                  | [] => 0
                  | c :: _ => length c
                  end;
     columns := cols |}.

(** ** experiments.py *)

(** [Counter(model_selected)] counts the elements one by one; [counter_step]
    is the count of one element. *)
Definition counter_step (c : gmap nat Z) (b : nat) : gmap nat Z :=
  <[b := (default 0%Z (c !! b) + 1)%Z]> c.

(** [dict(Counter(model_selected))] *)
Definition Counter (model_selected : list nat) : gmap nat Z :=
  foldl counter_step ∅ model_selected.

Section Experiments.

Context {G : Type} {RS : RandomSource G}.

(** The loop [for i in range(len(model_accuracies))] of
    [create_simulated_reward_data], over the accuracies left. *)
Fixpoint simulate_columns (model_accuracies : list Q) (no_of_rewards : Z)
    (g : G) : result (list (list Z) * G) :=
  match model_accuracies with
  | [] => Ok ([], g)
  | p :: rest =>
      let* (col, g1) := binomial1 p no_of_rewards g in
      let* (cols, g2) := simulate_columns rest no_of_rewards g1 in
      Ok (col :: cols, g2)
  end.

Definition create_simulated_reward_data (model_accuracies : list Q)
    (no_of_rewards : Z) (g : G) : result (DataFrame * G) :=
  let* (cols, g') := simulate_columns model_accuracies no_of_rewards g in
  Ok (DataFrame_of_columns cols, g').

(** The inner loop of [thompson_sampling_experiment], lines 87-91, over
    the model indices left; [bandit] and [beta_max] are the loop's
    variables of these names. *)
Fixpoint select_bandit (models : list nat) (rewards penalties : list Z)
    (bandit : nat) (beta_max : Q) (g : G) : result (nat * Q * G) :=
  match models with
  | [] => Ok (bandit, beta_max, g)
  | i :: rest =>
      let* r := getitem rewards i in
      let* p := getitem penalties i in
      let* (beta_d, g') := betavariate (r + 1) (p + 1) g in
      if fgt beta_d beta_max
      then select_bandit rest rewards penalties i beta_d g'
      else select_bandit rest rewards penalties bandit beta_max g'
  end.

(** Lines 96-99: the update of the counters of the chosen model. *)
Definition observe (reward : Z) (bandit : nat) (rewards penalties : list Z)
    : result (list Z * list Z) :=
  if decide (reward = 1%Z) then
    let* r := getitem rewards bandit in
    let* rewards' := setitem rewards bandit (r + 1)%Z in
    Ok (rewards', penalties)
  else
    let* p := getitem penalties bandit in
    let* penalties' := setitem penalties bandit (p + 1)%Z in
    Ok (rewards, penalties').

(** The body of the loop over the observation rows, lines 84-99: the
    chosen model and the state after the row. *)
Definition ts_row (data : DataFrame) (no_of_models : nat) (n : nat)
    (rewards penalties : list Z) (g : G)
    : result (nat * list Z * list Z * G) :=
  let* (bandit, _, g') :=
    select_bandit (seq 0 no_of_models) rewards penalties 0 0%Q g in
  let* reward := values_at data n bandit in
  let* (rewards', penalties') := observe reward bandit rewards penalties in
  Ok (bandit, rewards', penalties', g').

(** The loop over the observation rows left, accumulating
    [model_selected]. *)
Fixpoint ts_rows (data : DataFrame) (no_of_models : nat) (rows : list nat)
    (model_selected : list nat) (rewards penalties : list Z) (g : G)
    : result (list nat * list Z * list Z * G) :=
  match rows with
  | [] => Ok (model_selected, rewards, penalties, g)
  | n :: rest =>
      let* (bandit, rewards', penalties', g') :=
        ts_row data no_of_models n rewards penalties g in
      ts_rows data no_of_models rest (model_selected ++ [bandit])
              rewards' penalties' g'
  end.


Definition thompson_sampling_experiment (data : DataFrame)
    (model_accuracies : list Q) (rewards penalties : list Z) (g : G)
    : result (gmap nat Z * list Z * list Z * G) :=
  let no_of_observations := index_len data in
  let no_of_models := length (columns data) in
  if decide (no_of_models = length model_accuracies) then
    let* (model_selected, rewards', penalties', g') :=
      ts_rows data no_of_models (seq 0 no_of_observations) []
              rewards penalties g in
    Ok (Counter model_selected, rewards', penalties', g')
  else Raise AssertionError.

(** [generate_ts_time_series]: the loop over the time steps left. The two
    branches of the source's [if i == 0] run the same calls, the first on
    the zero lists and the later ones on the lists of the step before. *)
Fixpoint ts_time_series_loop (steps : nat) (model_accuracies : list Q)
    (no_of_rewards : Z) (rewards penalties : list Z)
    (results_list : list (gmap nat Z)) (g : G)
    : result (list (gmap nat Z) * G) :=
  match steps with
  | O => Ok (results_list, g)
  | S steps' =>
      let* (data, g1) :=
        create_simulated_reward_data model_accuracies no_of_rewards g in
      let* (results, rewards', penalties', g2) :=
        thompson_sampling_experiment data model_accuracies
                                     rewards penalties g1 in
      ts_time_series_loop steps' model_accuracies no_of_rewards
                          rewards' penalties' (results_list ++ [results]) g2
  end.

Definition generate_ts_time_series (model_accuracies : list Q)
    (time_series_length : nat) (no_of_rewards : Z) (g : G)
    : result (list (gmap nat Z) * G) :=
  let init_rewards := replicate (length model_accuracies) 0%Z in
  let init_penalties := replicate (length model_accuracies) 0%Z in
  ts_time_series_loop time_series_length model_accuracies no_of_rewards
                      init_rewards init_penalties [] g.

End Experiments.

(** [control_experiment], lines 137-138: [count_of_model_selected[i] += 1]
    for the keys left of [range(diff)]. *)
Fixpoint increment_keys (keys : list nat) (count_of_model_selected : gmap nat Z)
    : result (gmap nat Z) :=
  match keys with
  | [] => Ok count_of_model_selected
  | i :: rest =>
      let* v := dict_getitem count_of_model_selected i in
      increment_keys rest (<[i := (v + 1)%Z]> count_of_model_selected)
  end.

(** Lines 132-133 of [control_experiment]: the dict with [base] under every
    key of [range(n)], filled in index order. *)
Definition fill (base : Z) (n : nat) : gmap nat Z :=
  foldl (fun d i => <[i := base]> d) ∅ (seq 0 n).

(** [range(n)] for a Python integer [n]: empty when [n] is negative. *)
Definition range (n : Z) : list nat := seq 0 (Z.to_nat n).

Definition control_experiment (data : DataFrame) (model_accuracies : list Q)
    : result (gmap nat Z) :=
  let len_data := Z.of_nat (index_len data) in
  let* percentage_split :=
    int_truediv 1 (Z.of_nat (length model_accuracies)) in
  let base := Qfloor (fmul (of_int len_data) percentage_split) in
  let count_of_model_selected := fill base (length model_accuracies) in
  let diff := (len_data - sum_values count_of_model_selected)%Z in
  if decide (diff <> 0%Z)
  then increment_keys (range diff) count_of_model_selected
  else Ok count_of_model_selected.

Section ControlSeries.

Context {G : Type} {RS : RandomSource G}.

Fixpoint control_time_series_loop (steps : nat) (model_accuracies : list Q)
    (no_of_rewards : Z) (results_list : list (gmap nat Z)) (g : G)
    : result (list (gmap nat Z) * G) :=
  match steps with
  | O => Ok (results_list, g)
  | S steps' =>
      let* (data, g1) :=
        create_simulated_reward_data model_accuracies no_of_rewards g in
      let* results := control_experiment data model_accuracies in
      control_time_series_loop steps' model_accuracies no_of_rewards
                               (results_list ++ [results]) g1
  end.

Definition generate_control_time_series (model_accuracies : list Q)
    (time_series_length : nat) (no_of_rewards : Z) (g : G)
    : result (list (gmap nat Z) * G) :=
  control_time_series_loop time_series_length model_accuracies
                           no_of_rewards [] g.

End ControlSeries.

(** ** util.py *)

(** Index labels of the tables: the positions of a [RangeIndex] and the
    string ['Totals']. *)
Inductive label : Type :=
  | Step (t : nat)
  | Totals.

Global Instance label_eq_dec : EqDecision label.
Proof. solve_decision. Defined.

(** A table with labelled rows and one column per model key: [frame_data]
    maps a column key to the cells of that column, in the order of
    [frame_index]. The order of the columns is not modelled. *)
Record Frame (A : Type) : Type := {
  frame_index : list label;
  frame_data : gmap nat (list A)
}.
Arguments frame_index {A} f.
Arguments frame_data {A} f.

(** The cell at row position [t] of column [k]. *)
Definition cell {A : Type} (f : Frame A) (t k : nat) : option A :=
  frame_data f !! k ≫= (fun col => col !! t).

(** [pd.DataFrame(df)] for a list of dicts: one row per dict, one column
    per key of any of them, [None] (NaN) where a dict lacks the key. *)
Definition frame_of_records (df : list (gmap nat Z)) : Frame (option Z) :=
  {| frame_index := imap (fun t _ => Step t) df;
     frame_data :=
       set_to_map (fun k => (k, (fun d : gmap nat Z => d !! k) <$> df))
                  (⋃ (dom <$> df) : gset nat) |}.

(** [df.fillna(0)] followed by [df.astype(int)]. *)
Definition fillna (v : Z) (f : Frame (option Z)) : Frame Z :=
  {| frame_index := frame_index f;
     frame_data := (fun col : list (option Z) => default v <$> col) <$> frame_data f |}.

Definition sum_list_Z (l : list Z) : Z := foldr Z.add 0%Z l.

(** [df.sum(numeric_only=True, axis=0)]: one sum per column. *)
Definition sum_axis0 (f : Frame Z) : gmap nat Z := sum_list_Z <$> frame_data f.

(** [df.loc[lbl] = s] for a label that is not in the index: the row is
    appended; pandas refuses it on a frame with no columns
    (ValueError, cannot set a frame with no defined columns). *)
Definition loc_append (f : Frame Z) (lbl : label) (s : gmap nat Z)
    : result (Frame Z) :=
  if decide (frame_data f = ∅) then Raise ValueError
  else Ok {| frame_index := frame_index f ++ [lbl];
             frame_data :=
               map_imap (fun k (col : list Z) => Some (col ++ [default 0%Z (s !! k)]))
                        (frame_data f) |}.

Definition format_as_dataframe (df : list (gmap nat Z)) : result (Frame Z) :=
  let df1 := frame_of_records df in
  let df2 := fillna 0 df1 in
  loc_append df2 Totals (sum_axis0 df2).

(** One cell of [(selected_df[i] * (1 - model_accuracies[i])).round().astype(int)]. *)
Definition misclassified (count : Z) (accuracy : Q) : Z :=
  rne (fmul (of_int count) (fsub 1 accuracy)).

Definition create_misclassification_df (selected_df : Frame Z)
    (model_accuracies : list Q) : result (Frame Z) :=
  if decide (set_Forall (fun i => i < length model_accuracies)
                        (dom (frame_data selected_df)))
  then
    Ok {| frame_index :=
            if decide (frame_data selected_df = ∅) then []
            else frame_index selected_df;
          frame_data :=
            map_imap (fun i (col : list Z) =>
                        Some ((fun c => misclassified c
                                 (default 0%Q (model_accuracies !! i))) <$> col))
                     (frame_data selected_df) |}
  else Raise IndexError.

(** ** app.py *)

(** [a // b] on Python integers. *)
Definition floordiv (a b : Z) : result Z :=
  if decide (b = 0%Z) then Raise ZeroDivisionError else Ok (a / b)%Z.

(** [(NO_OF_REQUESTS // NO_OF_MODELS) // NO_OF_REWARDS] *)
Definition scale_factor (no_of_requests no_of_models no_of_rewards : Z)
    : result Z :=
  let* q := floordiv no_of_requests no_of_models in
  floordiv q no_of_rewards.

(** The value that an [int64] holds for the integer result [z] of an
    operation of numpy: the results wrap around, in two's complement. *)
Definition wrap64 (z : Z) : Z := ((z + 2 ^ 63) mod 2 ^ 64 - 2 ^ 63)%Z.

(** [df * s] for an [int64] frame and a Python integer [s] (the form gives
    integers below [2^53]). *)
Definition frame_scale (f : Frame Z) (s : Z) : Frame Z :=
  {| frame_index := frame_index f;
     frame_data :=
       (fun col : list Z => (fun c => wrap64 (c * s)) <$> col) <$> frame_data f |}.

(** Lines 62-63 and 67-68: the misclassification table of a series. *)
Definition misclassifications (bandit_selected : list (gmap nat Z))
    (model_accuracies : list Q) (scale : Z) : result (Frame Z) :=
  let* selected := format_as_dataframe bandit_selected in
  let* m := create_misclassification_df selected model_accuracies in
  Ok (frame_scale m scale).

(** [df.iloc[t, :]]: the row at position [t], keyed by column. *)
Definition iloc_row (f : Frame Z) (t : nat) : gmap nat Z :=
  (fun col : list Z => default 0%Z (col !! t)) <$> frame_data f.

(** [sum(df.iloc[-1, :])]: the builtin [sum] adds the cells as Python
    integers. *)
Definition sum_last_row (f : Frame Z) : result Z :=
  match length (frame_index f) with
  | O => Raise IndexError
  | S t => Ok (sum_values (iloc_row f t))
  end.

(** [df.sum(axis=1)] on an [int64] frame: one sum per row. *)
Definition sum_axis1 (f : Frame Z) : list Z :=
  imap (fun t _ => wrap64 (sum_values (iloc_row f t))) (frame_index f).

(** [s.iloc[:-1]] *)
Definition drop_last {A : Type} (l : list A) : list A :=
  take (length l - 1) l.

(** [s.cumsum()] on an [int64] series, from the running total [acc]. *)
Fixpoint cumsum_from (acc : Z) (l : list Z) : list Z :=
  match l with
  | [] => []
  | x :: rest => wrap64 (acc + x) :: cumsum_from (wrap64 (acc + x)) rest
  end.

Definition cumsum (l : list Z) : list Z := cumsum_from 0%Z l.

(** Lines 78-79:
    [misclassifications.sum(axis=1).iloc[:-1].cumsum() * COST_OF_FAILURE] *)
Definition cumulative_cost (misclassification_df : Frame Z)
    (cost_of_failure : Z) : list Z :=
  (fun v => wrap64 (v * cost_of_failure))
    <$> cumsum (drop_last (sum_axis1 misclassification_df)).

(** Lines 71-74. *)
Definition cost_incurred (ts_misclassifications control_misclassifications
    : Frame Z) (cost_of_failure : Z) : result Z :=
  let* total_ts_misclassifications := sum_last_row ts_misclassifications in
  let* total_control_misclassifications :=
    sum_last_row control_misclassifications in
  let misclassification_diff :=
    (total_control_misclassifications - total_ts_misclassifications)%Z in
  Ok (misclassification_diff * cost_of_failure)%Z.


(** [df.sum()] on an [int64] frame: one sum per column, over all the
    rows. *)
Definition frame_sum (f : Frame Z) : gmap nat Z :=
  (fun col : list Z => wrap64 (sum_list_Z col)) <$> frame_data f.

(** [pd.concat([a, b], axis=1)] for two series keyed by model: one row per
    key of either series, a missing entry being NaN ([None]). *)
Definition concat_axis1 (a b : gmap nat Z) : gmap nat (option Z * option Z) :=
  merge (fun x y => match x, y with
                    | None, None => None
                    | _, _ => Some (x, y)
                    end) a b.

(** A number of a pandas object, with its dtype. *)
Inductive number : Type :=
  | Int64 (z : Z)
  | Float64 (q : Q).

Definition number_value (n : number) : Q :=
  match n with
  | Int64 z => inject_Z z
  | Float64 q => q
  end.

(** The sum of a [float64] column is numpy's reduction, whose order of
    additions depends on the layout and the length of the array: it is
    taken as an interface. Whatever the order, the additions are exact for
    the floats of non-negative integers whose sum is [2^53] at most. *)
Class Float64Sum : Type := {
  nansum : list Q -> Q
}.

Class Float64SumLaws `{Float64Sum} : Prop := {
  nansum_exact : forall l : list Z,
    Forall (fun z => (0 <= z)%Z) l -> (sum_list_Z l <= 2 ^ 53)%Z ->
    (nansum (of_int <$> l) == inject_Z (sum_list_Z l))%Q
}.

(** The additions from left to right. *)
Definition sequential_sum (l : list Q) : Q :=
  foldl (fun acc x => b64 (acc + x)%Q) 0%Q l.

Global Instance sequential_float64_sum : Float64Sum := {|
  nansum := sequential_sum
|}.

(** A column of [model_misclassifications] is [int64] when no entry of it is
    missing and [float64] otherwise. *)
Definition is_int64 (col : gmap nat (option Z)) : bool :=
  bool_decide (map_Forall (fun _ (o : option Z) => is_Some o) col).

(** The sum of an [int64] column. *)
Definition int64_total (col : gmap nat (option Z)) : Z :=
  wrap64 (sum_values (omap id col)).

(** The sum of a [float64] column: a missing entry is replaced by 0, and
    the entries are the floats of the integers. *)
Definition float64_total `{Float64Sum} (col : gmap nat (option Z)) : Q :=
  nansum (of_int <$> (map_to_list (default 0%Z <$> col)).*2).

(** [model_misclassifications.sum(numeric_only=True, axis=0)], line 105:
    each column is summed in its dtype, and the two sums are one series,
    [float64] as soon as one of them is. *)
Definition totals_of `{Float64Sum} (mm : gmap nat (option Z * option Z))
    : number * number :=
  let control := fst <$> mm in
  let ts := snd <$> mm in
  match is_int64 control, is_int64 ts with
  | true, true => (Int64 (int64_total control), Int64 (int64_total ts))
  | ic, it =>
      (Float64 (if ic then of_int (int64_total control)
                else float64_total control),
       Float64 (if it then of_int (int64_total ts) else float64_total ts))
  end.

(** What [app.py] computes from the form, lines 61-79 and 99-105. *)
Record Calculator : Type := {
  app_ts_bandit_selected : Frame Z;
  app_ts_misclassifications : Frame Z;
  app_control_bandit_selected : Frame Z;
  app_control_misclassifications : Frame Z;
  app_cost_incurred : Z;
  app_ts_cumsum : list Z;
  app_control_cumsum : list Z;
  (** [model_misclassifications], with its index moved to [1..N] and the
      columns [Control] and [Thompson Sampling]; a column with a missing
      entry holds the floats of these integers *)
  app_model_misclassifications : gmap nat (option Z * option Z);
  (** the series [totals] of line 105: its entries for [Control] and for
      [Thompson Sampling] *)
  app_totals : number * number
}.

Section App.

Context {G : Type} {RS : RandomSource G} {FS : Float64Sum}.

(** Lines 61-63 and 66-68, for the series of one strategy: the table of the
    selections and the table of the misclassifications. The left operand
    of [*] is evaluated before the scale factor. *)
Definition selected_and_misclassified (bandit_selected : list (gmap nat Z))
    (MODEL_ACCURACIES : list Q) (NO_OF_REQUESTS NO_OF_MODELS NO_OF_REWARDS : Z)
    : result (Frame Z * Frame Z) :=
  let* selected := format_as_dataframe bandit_selected in
  let* m := create_misclassification_df selected MODEL_ACCURACIES in
  let* scale := scale_factor NO_OF_REQUESTS NO_OF_MODELS NO_OF_REWARDS in
  Ok (selected, frame_scale m scale).

(** The script of [app.py] from line 61 to line 105, without the
    rendering: the form gives as many accuracies as [NO_OF_MODELS]
    (lines 53-56). *)
Definition calculator (COST_OF_FAILURE : Z) (TIME_SERIES_LENGTH : nat)
    (NO_OF_REWARDS NO_OF_REQUESTS : Z) (MODEL_ACCURACIES : list Q) (g : G)
    : result (Calculator * G) :=
  let NO_OF_MODELS := Z.of_nat (length MODEL_ACCURACIES) in
  let* (ts_series, g1) :=
    generate_ts_time_series MODEL_ACCURACIES TIME_SERIES_LENGTH
                            NO_OF_REWARDS g in
  let* (ts_bandit_selected, ts_misclassifications) :=
    selected_and_misclassified ts_series MODEL_ACCURACIES
                               NO_OF_REQUESTS NO_OF_MODELS NO_OF_REWARDS in
  let* (control_series, g2) :=
    generate_control_time_series MODEL_ACCURACIES TIME_SERIES_LENGTH
                                 NO_OF_REWARDS g1 in
  let* (control_bandit_selected, control_misclassifications) :=
    selected_and_misclassified control_series MODEL_ACCURACIES
                               NO_OF_REQUESTS NO_OF_MODELS NO_OF_REWARDS in
  let* cost :=
    cost_incurred ts_misclassifications control_misclassifications
                  COST_OF_FAILURE in
  let model_misclassifications :=
    kmap S (concat_axis1 (frame_sum control_misclassifications)
                         (frame_sum ts_misclassifications)) in
  Ok ({| app_ts_bandit_selected := ts_bandit_selected;
         app_ts_misclassifications := ts_misclassifications;
         app_control_bandit_selected := control_bandit_selected;
         app_control_misclassifications := control_misclassifications;
         app_cost_incurred := cost;
         app_ts_cumsum :=
           cumulative_cost ts_misclassifications COST_OF_FAILURE;
         app_control_cumsum :=
           cumulative_cost control_misclassifications COST_OF_FAILURE;
         app_model_misclassifications := model_misclassifications;
         app_totals := totals_of model_misclassifications |},
      g2).

End App.

(** Every column of a table holds one cell per index entry. *)
Definition frame_rectangular {A : Type} (f : Frame A) : Prop :=
  map_Forall (fun _ col => length col = length (frame_index f)) (frame_data f).

(** ** Notions used in the statements *)

(** [b] is the lowest index at which the samples [d] attain their maximum. *)
Definition first_argmax (d : list Q) (b : nat) : Prop :=
  exists xb : Q,
    d !! b = Some xb /\
    (forall (j : nat) (x : Q), d !! j = Some x -> (x <= xb)%Q) /\
    (forall (j : nat) (x : Q), j < b -> d !! j = Some x -> (x < xb)%Q).

(** A list of counters of a bandit state over [no_of_models] models: one
    non-negative entry per model at least. *)
Definition state_ok (no_of_models : nat) (counts : list Z) : Prop :=
  no_of_models <= length counts /\ Forall (fun c => (0 <= c)%Z) counts.

(** [reward_count[i] + penalty_count[i]] *)
Definition counter_total (rewards penalties : list Z) (i : nat) : Z :=
  (default 0 (rewards !! i) + default 0 (penalties !! i))%Z.

(** The number of rows in which model [i] was selected. *)
Definition times_selected (model_selected : list nat) (i : nat) : Z :=
  Z.of_nat (length (filter (fun b => b = i) model_selected)).

(** The unit roundoff of binary64, [2^-53]. *)
Definition u53 : Q := 1 # 9007199254740992.

(** The count of model [i] when [B] rows are split evenly over [M] models:
    [floor(B/M)], and one more for the first [B - M*floor(B/M)] models. *)
Definition even_split (B M : Z) (i : nat) : Z :=
  (B / M + if decide (Z.of_nat i < B - M * (B / M))%Z then 1 else 0)%Z.

(** The keys that occur in some dict of a series: the columns of its table. *)
Definition all_keys (df : list (gmap nat Z)) : gset nat := ⋃ (dom <$> df).

(** The column of key [k] over the time steps: the count of each step, 0
    where the step has no entry for [k]. *)
Definition step_counts (df : list (gmap nat Z)) (k : nat) : list Z :=
  (fun d : gmap nat Z => default 0%Z (d !! k)) <$> df.

(** A frame whose cells are all non-negative. *)
Definition cells_nonneg (f : Frame Z) : Prop :=
  map_Forall (fun _ col => Forall (fun c => (0 <= c)%Z) col) (frame_data f).

(** An allocation series with non-negative counts. *)
Definition counts_nonneg (series : list (gmap nat Z)) : Prop :=
  Forall (map_Forall (fun (_ : nat) (v : Z) => (0 <= v)%Z)) series.

(** Accuracies within [[0,1]]. *)
Definition accuracies_ok (model_accuracies : list Q) : Prop :=
  Forall (fun a => (0 <= a)%Q /\ (a <= 1)%Q) model_accuracies.

(** The inputs on which [thompson_sampling_experiment] is meant to run: a
    rectangular batch over at least one model, as many accuracies as
    columns, and a state with non-negative counters for every model. *)
Definition ts_valid (data : DataFrame) (model_accuracies : list Q)
    (rewards penalties : list Z) : Prop :=
  rectangular data /\
  length (columns data) = length model_accuracies /\
  1 <= length (columns data) /\
  state_ok (length (columns data)) rewards /\
  state_ok (length (columns data)) penalties.

Section DrawnSamples.

Context {G : Type} {RS : RandomSource G}.

(** The samples that the inner loop of [thompson_sampling_experiment]
    draws over [models] from the generator state [g], in the order of
    the calls: the sample at position [j] is the one of
    [betavariate(rewards[i] + 1, penalties[i] + 1)] for the [j]-th model
    [i] of [models]. *)
Fixpoint drawn_samples (models : list nat) (rewards penalties : list Z)
    (g : G) : list Q :=
  match models with
  | [] => []
  | i :: rest =>
      match rewards !! i, penalties !! i with
      | Some r, Some p =>
          match betavariate (r + 1) (p + 1) g with
          | Ok (x, g') => x :: drawn_samples rest rewards penalties g'
          | Raise _ => []
          end
      | _, _ => []
      end
  end.

End DrawnSamples.

(** The sums of the rows of a table, as integers. *)
Definition row_totals (f : Frame Z) : list Z :=
  imap (fun t _ => sum_values (iloc_row f t)) (frame_index f).

(** The sum of the cells of the time-step rows (every row but the last). *)
Definition steps_total (f : Frame Z) : Z :=
  sum_list_Z (drop_last (row_totals f)).

(** The misclassifications of one time step with the allocation [results],
    scaled, as an integer. *)
Definition step_misclassifications (model_accuracies : list Q) (scale : Z)
    (results : gmap nat Z) : Z :=
  sum_values
    (map_imap (fun k c =>
                 Some (misclassified c (default 0%Q (model_accuracies !! k))
                       * scale)%Z)
              results).

(** A frame whose cells are all 0. *)
Definition cells_zero (f : Frame Z) : Prop :=
  map_Forall (fun _ col => Forall (fun c => c = 0%Z) col) (frame_data f).

(** ** Inputs of the examples *)

(** Three observation rows over two models, and a tape whose first two
    draws tie. *)
Definition example_batch : DataFrame :=
  DataFrame_of_columns [[1%Z; 0%Z; 1%Z]; [0%Z; 1%Z; 1%Z]].

Definition example_tape : list Q :=
  [1 # 2; 1 # 2; 1 # 3; 2 # 3; 3 # 4; 1 # 4]%Q.

(** An allocation table of one model over two time steps. *)
Definition example_table : Frame Z :=
  {| frame_index := [Step 0; Step 1; Totals];
     frame_data := {[ 0%nat := [4%Z; 6%Z; 10%Z] ]} |}.

(** * Properties *)

(** ** The tape is a random source *)

Lemma tape_next_range (g : list Q) :
  (0 <= (tape_next g).1)%Q /\ ((tape_next g).1 <= 1)%Q.
Proof.
  destruct g as [|x g']; simpl.
  - split; discriminate.
  - destruct (Qle_bool 0 x) eqn:H0; destruct (Qle_bool x 1) eqn:H1; simpl;
      try (split; discriminate).
    split; now apply Qle_bool_iff.
Qed.

Lemma tape_betavariate_range (a b : Z) (g : list Q) :
  (0 < a)%Z -> (0 < b)%Z ->
  exists (x : Q) (g' : list Q),
    tape_betavariate a b g = Ok (x, g') /\ (0 <= x)%Q /\ (x <= 1)%Q.
Proof.
  intros Ha Hb. unfold tape_betavariate.
  rewrite !decide_True by assumption.
  exists (tape_next g).1, (tape_next g).2. split.
  - now destruct (tape_next g).
  - apply tape_next_range.
Qed.

Lemma tape_bernoulli_spec (p : Q) (n : nat) (g : list Q) :
  length (tape_bernoulli p n g).1 = n /\
  Forall (fun x => x = 0%Z \/ x = 1%Z) (tape_bernoulli p n g).1.
Proof.
  revert g. induction n as [|n IH]; intros g; simpl.
  - split; [reflexivity | constructor].
  - destruct (tape_next g) as [u g1].
    specialize (IH g1). destruct (tape_bernoulli p n g1) as [xs g2].
    simpl in *. destruct IH as [IHlen IHall]. split.
    + now rewrite IHlen.
    + constructor; [destruct (fgt p u); auto | assumption].
Qed.

Lemma tape_binomial1_ok (p : Q) (size : Z) (g : list Q) :
  (0 <= p)%Q -> (p <= 1)%Q -> (0 <= size)%Z ->
  exists (xs : list Z) (g' : list Q),
    tape_binomial1 p size g = Ok (xs, g') /\
    length xs = Z.to_nat size /\
    Forall (fun x => x = 0%Z \/ x = 1%Z) xs.
Proof.
  intros H0 H1 Hs. unfold tape_binomial1.
  apply Qle_bool_iff in H0, H1. rewrite H0, H1. simpl.
  rewrite decide_True by assumption.
  pose proof (tape_bernoulli_spec p (Z.to_nat size) g) as Hspec.
  destruct (tape_bernoulli p (Z.to_nat size) g) as [xs g']. eauto.
Qed.

Lemma tape_binomial1_bad_p (p : Q) (size : Z) (g : list Q) :
  ~ ((0 <= p)%Q /\ (p <= 1)%Q) -> tape_binomial1 p size g = Raise ValueError.
Proof.
  intros Hbad. unfold tape_binomial1.
  destruct (Qle_bool 0 p) eqn:H0; destruct (Qle_bool p 1) eqn:H1;
    simpl; try reflexivity.
  exfalso. apply Hbad. split; now apply Qle_bool_iff.
Qed.

Lemma tape_binomial1_bad_size (p : Q) (size : Z) (g : list Q) :
  (size < 0)%Z -> tape_binomial1 p size g = Raise ValueError.
Proof.
  intros Hs. unfold tape_binomial1.
  destruct (Qle_bool 0 p && Qle_bool p 1); [|reflexivity].
  rewrite decide_False by lia. reflexivity.
Qed.

Global Instance tape_source_laws : RandomSourceLaws (list Q).
Proof.
  split.
  - exact tape_betavariate_range.
  - exact tape_binomial1_ok.
  - exact tape_binomial1_bad_p.
  - exact tape_binomial1_bad_size.
Qed.

(** ** Comparisons of floats *)

Lemma fgt_true (y x : Q) : fgt y x = true <-> (x < y)%Q.
Proof.
  unfold fgt. change (x < y)%Q with (y > x)%Q. rewrite Qgt_alt.
  destruct (Qcompare y x); split; congruence.
Qed.

Lemma fgt_false (y x : Q) : fgt y x = false <-> (y <= x)%Q.
Proof.
  rewrite <- not_true_iff_false, fgt_true. split.
  - apply Qnot_lt_le.
  - apply Qle_not_lt.
Qed.



(** ** Sums of the values of a dict *)

Lemma sum_values_empty : sum_values ∅ = 0%Z.
Proof. reflexivity. Qed.

Lemma sum_values_insert_fresh (d : gmap nat Z) (k : nat) (v : Z) :
  d !! k = None -> sum_values (<[k := v]> d) = (v + sum_values d)%Z.
Proof.
  intros Hk. unfold sum_values.
  apply (map_fold_insert_L (fun _ v acc => (v + acc)%Z)); [|assumption].
  intros; lia.
Qed.

Lemma sum_values_delete (d : gmap nat Z) (k : nat) (v : Z) :
  d !! k = Some v -> sum_values d = (v + sum_values (delete k d))%Z.
Proof.
  intros Hk. rewrite <- (insert_delete_id d k v Hk) at 1.
  apply sum_values_insert_fresh, lookup_delete_eq.
Qed.

Lemma sum_values_insert (d : gmap nat Z) (k : nat) (v : Z) :
  sum_values (<[k := v]> d) = (sum_values d - default 0%Z (d !! k) + v)%Z.
Proof.
  destruct (d !! k) as [v0|] eqn:Hk; simpl.
  - rewrite (sum_values_delete d k v0 Hk).
    rewrite <- insert_delete_eq.
    rewrite sum_values_insert_fresh by apply lookup_delete_eq. lia.
  - rewrite sum_values_insert_fresh by assumption. lia.
Qed.

(** ** Binary64 rounding *)

Section Float64Properties.

Local Open Scope Q_scope.

Lemma pow2_pos (e : Z) : 0 < pow2 e.
Proof. unfold pow2. apply Qpower_0_lt. reflexivity. Qed.

Lemma pow2_succ (e : Z) : pow2 (e + 1) == 2 * pow2 e.
Proof.
unfold pow2. rewrite Qpower_plus by discriminate.
rewrite Qpower_1_r. ring.
Qed.

Lemma pow2_inject (n : Z) : (0 <= n)%Z -> pow2 n == inject_Z (2 ^ n).
Proof. intros Hn. unfold pow2. now rewrite Zpower_Qpower. Qed.

Lemma rne_bounds (y : Q) :
y - (1 # 2) <= inject_Z (rne y) /\ inject_Z (rne y) <= y + (1 # 2).
Proof.
pose proof (Qfloor_le y) as Hlo. pose proof (Qlt_floor y) as Hhi.
assert (Hs : inject_Z (Qfloor y + 1) == inject_Z (Qfloor y) + 1).
{ rewrite inject_Z_plus. reflexivity. }
rewrite Hs in Hhi. unfold rne.
destruct (Qcompare (y - inject_Z (Qfloor y)) (1 # 2)) eqn:Hc.
- apply Qeq_alt in Hc.
  destruct (Z.even (Qfloor y)); [|rewrite Hs]; split; lra.
- apply Qlt_alt in Hc. split; lra.
- apply Qgt_alt in Hc. rewrite Hs. split; lra.
Qed.

Lemma rne_nonneg (y : Q) : 0 <= y -> (0 <= rne y)%Z.
Proof.
intros Hy. assert (Hf : (0 <= Qfloor y)%Z).
{ change 0%Z with (Qfloor 0). now apply Qfloor_resp_le. }
unfold rne. destruct (Qcompare _ _); [destruct (Z.even _)| |]; lia.
Qed.

Lemma ulp_exp_lower (a : Q) : 0 < a -> pow2 52 * pow2 (ulp_exp a) <= a.
Proof.
intros Ha. destruct a as [p q]. 
assert (Hp : (0 < p)%Z).
{ unfold Qlt in Ha. simpl in Ha. lia. }
unfold ulp_exp. cbn [Qnum Qden].
set (lp := Z.log2 p). set (lq := Z.log2 (Z.pos q)).
set (e0 := (lp - lq - 53)%Z).
assert (Hbase : pow2 52 * pow2 e0 <= p # q).
{ assert (Hlp : inject_Z (2 ^ lp) <= inject_Z p).
  { rewrite <- Zle_Qle. apply Z.log2_spec. exact Hp. }
  assert (Hlq : inject_Z (Z.pos q) < inject_Z (2 ^ (lq + 1))).
  { rewrite <- Zlt_Qlt. replace (lq + 1)%Z with (Z.succ lq) by lia.
    apply Z.log2_spec. reflexivity. }
  assert (Hlp0 : (0 <= lp)%Z) by apply Z.log2_nonneg.
  assert (Hlq0 : (0 <= lq)%Z) by apply Z.log2_nonneg.
  rewrite <- pow2_inject in Hlp, Hlq by lia.
  assert (He : pow2 52 * pow2 e0 * pow2 (lq + 1) == pow2 lp).
  { unfold pow2, e0. rewrite <- !Qpower_plus by discriminate.
    replace (52 + (lp - lq - 53) + (lq + 1))%Z with lp by lia. reflexivity. }
  rewrite (Qmake_Qdiv p q).
  pose proof (pow2_pos (lq + 1)) as H1. pose proof (pow2_pos e0) as H2.
  assert (Hq : 0 < inject_Z (Z.pos q)) by (rewrite <- (Zlt_Qlt 0); lia).
  apply Qle_shift_div_l; [exact Hq|].
  set (A := pow2 52 * pow2 e0) in *.
  assert (HA : 0 < A) by (unfold A; pose proof (pow2_pos 52); nra).
  nra. }
destruct (Qle_bool (pow2 53) ((p # q) / pow2 e0)) eqn:Hcmp.
- apply Qle_bool_iff in Hcmp.
  pose proof (pow2_pos e0) as H2. pose proof (pow2_succ e0) as H3.
  assert (Hc2 : pow2 53 * pow2 e0 <= (p # q) / pow2 e0 * pow2 e0).
  { apply Qmult_le_compat_r; [exact Hcmp | now apply Qlt_le_weak]. }
  assert (Hc3 : (p # q) / pow2 e0 * pow2 e0 == p # q).
  { field. intros Hz. rewrite Hz in H2. discriminate. }
  assert (H53 : pow2 53 == 2 * pow2 52) by reflexivity.
  set (t := pow2 e0) in *. set (t' := pow2 (e0 + 1)) in *.
  set (c53 := pow2 53) in *. set (c52 := pow2 52) in *.
  nra.
- exact Hbase.
Qed.

Lemma ulp_exp_upper (a : Q) : 0 < a -> a < pow2 53 * pow2 (ulp_exp a).
Proof.
  intros Ha. destruct a as [p q].
  assert (Hp : (0 < p)%Z).
  { unfold Qlt in Ha. simpl in Ha. lia. }
  unfold ulp_exp. cbn [Qnum Qden].
  set (lp := Z.log2 p). set (lq := Z.log2 (Z.pos q)).
  set (e0 := (lp - lq - 53)%Z).
  pose proof (pow2_pos e0) as He0.
  destruct (Qle_bool (pow2 53) ((p # q) / pow2 e0)) eqn:Hcmp.
  - (* below [2^54 * 2^e0] by the bounds of the two logarithms *)
    assert (Hlp : inject_Z p < inject_Z (2 ^ (lp + 1))).
    { rewrite <- Zlt_Qlt. replace (lp + 1)%Z with (Z.succ lp) by lia.
      apply Z.log2_spec. exact Hp. }
    assert (Hlq : inject_Z (2 ^ lq) <= inject_Z (Z.pos q)).
    { rewrite <- Zle_Qle. apply Z.log2_spec. reflexivity. }
    assert (Hlp0 : (0 <= lp)%Z) by apply Z.log2_nonneg.
    assert (Hlq0 : (0 <= lq)%Z) by apply Z.log2_nonneg.
    rewrite <- pow2_inject in Hlp, Hlq by lia.
    assert (He : pow2 53 * pow2 (e0 + 1) * pow2 lq == pow2 (lp + 1)).
    { unfold pow2, e0. rewrite <- !Qpower_plus by discriminate.
      replace (53 + (lp - lq - 53 + 1) + lq)%Z with (lp + 1)%Z by lia.
      reflexivity. }
    rewrite (Qmake_Qdiv p q).
    pose proof (pow2_pos lq) as H1. pose proof (pow2_pos (e0 + 1)) as H2.
    assert (Hq : 0 < inject_Z (Z.pos q)) by (rewrite <- (Zlt_Qlt 0); lia).
    apply Qlt_shift_div_r; [exact Hq|].
    set (A := pow2 53 * pow2 (e0 + 1)) in *.
    assert (HA : 0 < A) by (unfold A; pose proof (pow2_pos 53); nra).
    nra.
  - assert (Hlt : (p # q) / pow2 e0 < pow2 53).
    { apply Qnot_le_lt. intros Hle. apply Qle_bool_iff in Hle. congruence. }
    assert (Hc2 : (p # q) / pow2 e0 * pow2 e0 < pow2 53 * pow2 e0).
    { apply Qmult_lt_compat_r; assumption. }
    assert (Hc3 : (p # q) / pow2 e0 * pow2 e0 == p # q).
    { field. intros Hz. rewrite Hz in He0. discriminate. }
    rewrite Hc3 in Hc2. exact Hc2.
Qed.

Lemma b64_zero (x : Q) : x == 0 -> b64 x = 0.
Proof.
intros Hx. unfold b64. apply Qeq_bool_iff in Hx. now rewrite Hx.
Qed.

Lemma b64_pos_eq (x : Q) :
0 < x ->
b64 x = inject_Z (rne (x / pow2 (ulp_exp x))) * pow2 (ulp_exp x)
/\ pow2 52 * pow2 (ulp_exp x) <= x.
Proof.
intros Hx. destruct x as [p q].
assert (Hp : (0 < p)%Z) by (unfold Qlt in Hx; simpl in Hx; lia).
split; [|now apply ulp_exp_lower].
unfold b64.
destruct (Qeq_bool (p # q) 0) eqn:Hz.
- apply Qeq_bool_iff in Hz. rewrite Hz in Hx. discriminate.
- destruct p as [|p|p]; try lia.
  change (Qabs (Z.pos p # q)) with (Z.pos p # q).
  change (Z.sgn (Qnum (Z.pos p # q))) with 1%Z.
  now rewrite Z.mul_1_l.
Qed.

Lemma b64_rel_err (x : Q) :
0 < x -> x * (1 - u53) <= b64 x /\ b64 x <= x * (1 + u53).
Proof.
intros Hx. destruct (b64_pos_eq x Hx) as [-> Hlow].
set (t := pow2 (ulp_exp x)) in *.
pose proof (pow2_pos (ulp_exp x)) as Ht. fold t in Ht.
destruct (rne_bounds (x / t)) as [Hlo Hhi].
set (k := inject_Z (rne (x / t))) in *.
assert (Hxt : x / t * t == x).
{ field. intros Hz. rewrite Hz in Ht. discriminate. }
assert (Hlo' : (x / t - (1 # 2)) * t <= k * t).
{ apply Qmult_le_compat_r; [exact Hlo | now apply Qlt_le_weak]. }
assert (Hhi' : k * t <= (x / t + (1 # 2)) * t).
{ apply Qmult_le_compat_r; [exact Hhi | now apply Qlt_le_weak]. }
assert (H52 : pow2 52 == 4503599627370496) by reflexivity.
rewrite H52 in Hlow.
unfold u53. set (m := k * t) in *. set (y := x / t) in *.
split; nra.
Qed.

Lemma b64_nonneg (x : Q) : 0 <= x -> 0 <= b64 x.
Proof.
intros Hx. destruct (Qlt_le_dec 0 x) as [Hpos|Hle].
- destruct (b64_rel_err x Hpos) as [Hlo _].
  apply Qle_trans with (x * (1 - u53)); [|exact Hlo].
  apply Qmult_le_0_compat; [exact Hx | discriminate].
- rewrite b64_zero; [discriminate | lra].
Qed.

Lemma Qfloor_unique (y : Q) (z : Z) :
inject_Z z <= y -> y < inject_Z z + 1 -> Qfloor y = z.
Proof.
intros Hlo Hhi.
pose proof (Qfloor_le y) as Hfl. pose proof (Qlt_floor y) as Hfh.
assert (H1 : inject_Z (Qfloor y) < inject_Z (z + 1)).
{ rewrite inject_Z_plus. apply Qle_lt_trans with y; assumption. }
assert (H2 : inject_Z z < inject_Z (Qfloor y + 1)).
{ apply Qle_lt_trans with y; assumption. }
rewrite <- Zlt_Qlt in H1, H2. lia.
Qed.

(** The three roundings of [len(data) * (1 / len(model_accuracies))] move
  the product by less than [1 / len(model_accuracies)]. *)
Lemma split_product_bounds (B N : Z) :
(0 < N)%Z -> (0 < B < 2 ^ 51)%Z ->
inject_Z B - 1 < fmul (of_int B) (b64 (inject_Z 1 / inject_Z N)) * inject_Z N
/\ fmul (of_int B) (b64 (inject_Z 1 / inject_Z N)) * inject_Z N
   < inject_Z B + 1.
Proof.
intros HN [HB0 HB].
assert (HNq : 0 < inject_Z N) by (rewrite <- (Zlt_Qlt 0); exact HN).
assert (HBq : 0 < inject_Z B) by (rewrite <- (Zlt_Qlt 0); exact HB0).
assert (HBhi : inject_Z B < 2251799813685248).
{ change 2251799813685248 with (inject_Z (2 ^ 51)). now rewrite <- Zlt_Qlt. }
assert (Hinv : 0 < inject_Z 1 / inject_Z N).
{ apply Qlt_shift_div_l; [exact HNq | rewrite Qmult_0_l; reflexivity]. }
assert (HinvN : inject_Z 1 / inject_Z N * inject_Z N == 1).
{ field. intros Hz. rewrite Hz in HNq. discriminate. }
unfold fmul, of_int.
destruct (b64_rel_err _ HBq) as [Hf1lo Hf1hi].
destruct (b64_rel_err _ Hinv) as [Hpslo Hpshi].
set (f1 := b64 (inject_Z B)) in *.
set (ps := b64 (inject_Z 1 / inject_Z N)) in *.
set (Bq := inject_Z B) in *. set (Nq := inject_Z N) in *.
set (x2 := inject_Z 1 / Nq) in *.
unfold u53 in *.
assert (Hf1pos : 0 < f1) by nra.
assert (Hpspos : 0 < ps) by nra.
assert (Hx3 : 0 < f1 * ps) by nra.
destruct (b64_rel_err _ Hx3) as [Hylo Hyhi].
set (y := b64 (f1 * ps)) in *. unfold u53 in *.
(* s = ps * Nq is within [1-u, 1+u] *)
assert (Hslo : 1 - (1 # 9007199254740992) <= ps * Nq) by nra.
assert (Hshi : ps * Nq <= 1 + (1 # 9007199254740992)) by nra.
set (s := ps * Nq) in *.
assert (Hprod_hi : f1 * s <= Bq * (1 + (1 # 9007199254740992)) * (1 + (1 # 9007199254740992))).
{ apply Qmult_le_compat_nonneg; split; lra. }
assert (Hprod_lo : Bq * (1 - (1 # 9007199254740992)) * (1 - (1 # 9007199254740992)) <= f1 * s).
{ apply Qmult_le_compat_nonneg; split; lra. }
assert (HyN : y * Nq <= f1 * s * (1 + (1 # 9007199254740992))).
{ unfold s. nra. }
assert (HyN' : f1 * s * (1 - (1 # 9007199254740992)) <= y * Nq).
{ unfold s. nra. }
set (w := f1 * s) in *. set (v := y * Nq) in *.
split; lra.
Qed.

Lemma control_base (B N : Z) :
(0 < N)%Z -> (0 <= B < 2 ^ 51)%Z ->
Qfloor (fmul (of_int B) (b64 (inject_Z 1 / inject_Z N))) = (B / N)%Z
\/ ((B mod N = 0)%Z /\ (0 < B)%Z /\
    Qfloor (fmul (of_int B) (b64 (inject_Z 1 / inject_Z N))) = (B / N - 1)%Z).
Proof.
intros HN [HB0 HB].
destruct (Z.eq_dec B 0%Z) as [->|HBne].
- left. unfold fmul, of_int. rewrite (b64_zero (inject_Z 0)) by reflexivity.
  rewrite b64_zero by ring. reflexivity.
- destruct (split_product_bounds B N HN) as [Hlo Hhi]; [lia|].
  set (y := fmul (of_int B) (b64 (inject_Z 1 / inject_Z N))) in *.
  pose proof (Z.div_mod B N) as Hdm.
  pose proof (Z.mod_pos_bound B N HN) as Hr.
  set (k := (B / N)%Z) in *. set (r := (B mod N)%Z) in *.
  assert (HBq : inject_Z B == inject_Z N * inject_Z k + inject_Z r).
  { rewrite <- inject_Z_mult, <- inject_Z_plus. rewrite <- Hdm by lia.
    reflexivity. }
  assert (HNq : 1 <= inject_Z N).
  { change 1 with (inject_Z 1). rewrite <- Zle_Qle. lia. }
  assert (Hrq0 : 0 <= inject_Z r).
  { change 0 with (inject_Z 0). rewrite <- Zle_Qle. lia. }
  assert (Hrq1 : inject_Z r + 1 <= inject_Z N).
  { change 1 with (inject_Z 1). rewrite <- inject_Z_plus, <- Zle_Qle. lia. }
  set (Bq := inject_Z B) in *. set (Nq := inject_Z N) in *.
  set (kq := inject_Z k) in *. set (rq := inject_Z r) in *.
  destruct (Z.eq_dec r 0%Z) as [Hr0|Hr0].
  + assert (Hrq : rq == 0) by (unfold rq; rewrite Hr0; reflexivity).
    destruct (Qlt_le_dec y kq) as [Hlt|Hge].
    * right. split; [exact Hr0|]. split; [lia|].
      assert (Hk1 : inject_Z (k - 1) == kq - 1).
      { replace (k - 1)%Z with (k + -1)%Z by lia.
        rewrite inject_Z_plus. reflexivity. }
      apply Qfloor_unique; rewrite Hk1; [nra | lra].
    * left. apply Qfloor_unique; fold kq; [exact Hge | nra].
  + left.
    assert (Hrq : 1 <= rq).
    { unfold rq. change 1 with (inject_Z 1). rewrite <- Zle_Qle. lia. }
    apply Qfloor_unique; fold kq; nra.
Qed.

(** The model on values whose binary64 form is known:
    [1/3 = 0x1.5555555555555p-2], [0.1 = 0x1.999999999999ap-4],
    [49 * (1/49) = 0x1.fffffffffffffp-1] and
    [15 * (1 - 0.9) = 0x1.7fffffffffffep+0]. *)
Example b64_one_third : b64 (1 # 3) == 6004799503160661 # 18014398509481984.
Proof. vm_compute. reflexivity. Qed.

Example b64_one_tenth : b64 (1 # 10) == 3602879701896397 # 36028797018963968.
Proof. vm_compute. reflexivity. Qed.

Example fmul_49_inverse :
  fmul (of_int 49) (b64 (1 # 49)) == 9007199254740991 # 9007199254740992.
Proof. vm_compute. reflexivity. Qed.

Example misclassified_15_point_9 : misclassified 15 (b64 (9 # 10)) = 1%Z.
Proof. vm_compute. reflexivity. Qed.

Example rne_ties_to_even :
  rne (1 # 2) = 0%Z /\ rne (3 # 2) = 2%Z /\ rne (5 # 2) = 2%Z.
Proof. repeat split. Qed.

End Float64Properties.

(** ** [Counter] *)

Lemma Counter_foldl_lookup (l : list nat) (c : gmap nat Z) (i : nat) :
  default 0%Z (foldl counter_step c l !! i)
  = (default 0%Z (c !! i) + times_selected l i)%Z.
Proof.
  revert c. induction l as [|b l IH]; intros c; simpl.
  - unfold times_selected. simpl. lia.
  - rewrite IH. unfold times_selected. rewrite filter_cons. unfold counter_step.
    destruct (decide (b = i)) as [->|Hne].
    + rewrite lookup_insert_eq. simpl. lia.
    + rewrite lookup_insert_ne by assumption. lia.
Qed.

Lemma Counter_lookup (l : list nat) (i : nat) :
  default 0%Z (Counter l !! i) = times_selected l i.
Proof.
  unfold Counter.
  rewrite Counter_foldl_lookup, lookup_empty. simpl. lia.
Qed.

Lemma Counter_foldl_sum (l : list nat) (c : gmap nat Z) :
  sum_values (foldl counter_step c l) = (sum_values c + Z.of_nat (length l))%Z.
Proof.
  revert c. induction l as [|b l IH]; intros c; simpl.
  - lia.
  - rewrite IH. unfold counter_step. rewrite sum_values_insert. lia.
Qed.

Lemma Counter_sum (l : list nat) :
  sum_values (Counter l) = Z.of_nat (length l).
Proof.
  unfold Counter.
  rewrite Counter_foldl_sum. reflexivity.
Qed.

Lemma Counter_foldl_dom (l : list nat) (c : gmap nat Z) :
  dom (foldl counter_step c l) = dom c ∪ list_to_set l.
Proof.
  revert c. induction l as [|b l IH]; intros c; simpl.
  - now rewrite union_empty_r_L.
  - rewrite IH. unfold counter_step. rewrite dom_insert_L.
    apply set_eq. intros x.
    rewrite !elem_of_union, elem_of_singleton. tauto.
Qed.

Lemma Counter_dom (l : list nat) : dom (Counter l) = list_to_set l.
Proof.
  unfold Counter.
  rewrite Counter_foldl_dom, dom_empty_L. now rewrite union_empty_l_L.
Qed.

Lemma Counter_foldl_pos (l : list nat) (c : gmap nat Z) :
  map_Forall (fun _ v => (1 <= v)%Z) c ->
  map_Forall (fun _ v => (1 <= v)%Z) (foldl counter_step c l).
Proof.
  revert c. induction l as [|b l IH]; intros c Hc; simpl.
  - exact Hc.
  - apply IH. unfold counter_step. apply map_Forall_insert_2; [|exact Hc].
    destruct (c !! b) as [v|] eqn:Hb; simpl; [|lia].
    specialize (Hc b v Hb). simpl in Hc. lia.
Qed.

Lemma Counter_pos (l : list nat) (i : nat) (v : Z) :
  Counter l !! i = Some v -> (1 <= v)%Z.
Proof.
  unfold Counter.
  intros Hi. eapply (Counter_foldl_pos l ∅); [|exact Hi].
  apply map_Forall_empty.
Qed.

(** ** The Thompson Sampling allocator *)

Section ThompsonProperties.

Context {G : Type} {RS : RandomSource G} {RSL : RandomSourceLaws G}.

Lemma select_bandit_spec (models : list nat) (rewards penalties : list Z) :
  (forall i, i ∈ models ->
     exists r p, rewards !! i = Some r /\ penalties !! i = Some p /\
                 (0 <= r)%Z /\ (0 <= p)%Z) ->
  forall (b0 : nat) (m0 : Q) (g : G),
  exists (b : nat) (m : Q) (g' : G),
    select_bandit models rewards penalties b0 m0 g = Ok (b, m, g') /\
    length (drawn_samples models rewards penalties g) = length models /\
    Forall (fun x => (0 <= x)%Q) (drawn_samples models rewards penalties g) /\
    ((b = b0 /\ m = m0 /\
      forall j x, drawn_samples models rewards penalties g !! j = Some x ->
                  (x <= m0)%Q) \/
     (exists j, models !! j = Some b /\
        drawn_samples models rewards penalties g !! j = Some m /\
        (m0 < m)%Q /\
        (forall j' x, j' < j ->
           drawn_samples models rewards penalties g !! j' = Some x ->
           (x < m)%Q) /\
        (forall j' x,
           drawn_samples models rewards penalties g !! j' = Some x ->
           (x <= m)%Q))).
Proof.
  induction models as [|i rest IH]; intros Hok b0 m0 g.
  - exists b0, m0, g. simpl. repeat split; [constructor|].
    left. repeat split. intros j x Hj. destruct j; discriminate.
  - destruct (Hok i) as (r & p & Hr & Hp & Hr0 & Hp0); [left|].
    destruct (betavariate_range (r + 1) (p + 1) g) as (x & g1 & Hdraw & Hx0 & Hx1);
      [lia | lia |].
    assert (Hrest : forall i', i' ∈ rest ->
              exists r p, rewards !! i' = Some r /\ penalties !! i' = Some p /\
                          (0 <= r)%Z /\ (0 <= p)%Z).
    { intros i' Hi'. apply Hok. now right. }
    simpl. unfold getitem. rewrite Hr, Hp. simpl. rewrite Hdraw. simpl.
    destruct (fgt x m0) eqn:Hcmp.
    + apply fgt_true in Hcmp.
      destruct (IH Hrest i x g1) as (b & m & g' & Hsel & Hlen & Hpos & Hcase).
      exists b, m, g'. split; [exact Hsel|]. split; [now rewrite Hlen|].
      split; [now constructor|]. right.
      destruct Hcase as [(-> & -> & Hle) | (j & Hj & Hdj & Hlt & Hbefore & Hall)].
      * exists 0. repeat split; try assumption; try reflexivity.
        -- intros j' x' Hj'. lia.
        -- intros [|j'] x' Hj'; simpl in Hj'.
           ++ injection Hj' as <-. apply Qle_refl.
           ++ eapply Hle, Hj'.
      * exists (S j). repeat split; try assumption.
        -- now apply Qlt_trans with x.
        -- intros [|j'] x' Hlt' Hj'; simpl in Hj'.
           ++ now injection Hj' as <-.
           ++ eapply Hbefore; [|exact Hj']. lia.
        -- intros [|j'] x' Hj'; simpl in Hj'.
           ++ injection Hj' as <-. now apply Qlt_le_weak.
           ++ eapply Hall, Hj'.
    + apply fgt_false in Hcmp.
      destruct (IH Hrest b0 m0 g1) as (b & m & g' & Hsel & Hlen & Hpos & Hcase).
      exists b, m, g'. split; [exact Hsel|]. split; [now rewrite Hlen|].
      split; [now constructor|].
      destruct Hcase as [(-> & -> & Hle) | (j & Hj & Hdj & Hlt & Hbefore & Hall)].
      * left. repeat split.
        intros [|j'] x' Hj'; simpl in Hj'.
        -- now injection Hj' as <-.
        -- eapply Hle, Hj'.
      * right. exists (S j). repeat split; try assumption.
        -- intros [|j'] x' Hlt' Hj'; simpl in Hj'.
           ++ injection Hj' as <-. now apply Qle_lt_trans with m0.
           ++ eapply Hbefore; [|exact Hj']. lia.
        -- intros [|j'] x' Hj'; simpl in Hj'.
           ++ injection Hj' as <-.
              apply Qlt_le_weak. now apply Qle_lt_trans with m0.
           ++ eapply Hall, Hj'.
Qed.


Lemma state_ok_lookup (N : nat) (counts : list Z) (i : nat) :
  state_ok N counts -> i < N ->
  exists c, counts !! i = Some c /\ (0 <= c)%Z.
Proof.
  intros [Hlen Hall] Hi.
  destruct (lookup_lt_is_Some_2 counts i) as [c Hc]; [lia|].
  exists c. split; [exact Hc|].
  rewrite Forall_lookup in Hall. exact (Hall i c Hc).
Qed.

Lemma state_ok_insert (N : nat) (counts : list Z) (i : nat) (c : Z) :
  state_ok N counts -> (0 <= c)%Z -> state_ok N (<[i := c]> counts).
Proof.
  intros [Hlen Hall] Hc. split.
  - now rewrite length_insert.
  - apply Forall_insert; assumption.
Qed.

Lemma select_bandit_first_argmax (N : nat) (rewards penalties : list Z) (g : G) :
  1 <= N -> state_ok N rewards -> state_ok N penalties ->
  exists (bandit : nat) (beta_max : Q) (g' : G),
    select_bandit (seq 0 N) rewards penalties 0 0%Q g
      = Ok (bandit, beta_max, g') /\
    length (drawn_samples (seq 0 N) rewards penalties g) = N /\
    bandit < N /\
    first_argmax (drawn_samples (seq 0 N) rewards penalties g) bandit.
Proof.
  intros HN Hr Hp.
  destruct (select_bandit_spec (seq 0 N) rewards penalties) with
    (b0 := 0) (m0 := 0%Q) (g := g)
    as (b & m & g' & Hsel & Hlen & Hpos & Hcase).
  { intros i Hi. apply elem_of_seq in Hi.
    destruct (state_ok_lookup N rewards i Hr) as (r & Hri & Hr0); [lia|].
    destruct (state_ok_lookup N penalties i Hp) as (p & Hpi & Hp0); [lia|].
    exists r, p. auto. }
  rewrite length_seq in Hlen.
  exists b, m, g'. split; [exact Hsel|]. split; [exact Hlen|].
  rewrite Forall_lookup in Hpos.
  destruct Hcase as [(-> & -> & Hle) | (j & Hj & Hdj & Hlt & Hbefore & Hall)].
  - split; [lia|].
    destruct (lookup_lt_is_Some_2 (drawn_samples (seq 0 N) rewards penalties g) 0)
      as [x0 Hx0]; [lia|].
    exists x0. split; [exact Hx0|]. split.
    + intros j x Hj. apply Qle_trans with 0%Q.
      * eapply Hle, Hj.
      * eapply Hpos, Hx0.
    + intros j x Hj. lia.
  - apply lookup_seq in Hj. destruct Hj as [-> Hj]. simpl in *.
    split; [exact Hj|]. exists m. auto.
Qed.

Lemma observe_spec (reward : Z) (bandit N : nat) (rewards penalties : list Z) :
  bandit < N -> state_ok N rewards -> state_ok N penalties ->
  exists rewards' penalties',
    observe reward bandit rewards penalties = Ok (rewards', penalties') /\
    state_ok N rewards' /\ state_ok N penalties' /\
    length rewards' = length rewards /\
    length penalties' = length penalties /\
    ((reward = 1%Z /\ penalties' = penalties /\
      rewards' = <[bandit := (default 0 (rewards !! bandit) + 1)%Z]> rewards) \/
     (reward <> 1%Z /\ rewards' = rewards /\
      penalties' = <[bandit := (default 0 (penalties !! bandit) + 1)%Z]> penalties)).
Proof.
  intros Hb Hr Hp.
  destruct (state_ok_lookup N rewards bandit Hr Hb) as (r & Hrb & Hr0).
  destruct (state_ok_lookup N penalties bandit Hp Hb) as (p & Hpb & Hp0).
  unfold observe, getitem, setitem. rewrite Hrb, Hpb. simpl.
  destruct Hr as [Hlr Har], Hp as [Hlp Hap].
  destruct (decide (reward = 1%Z)) as [Hone|Hone]; simpl.
  - rewrite decide_True by lia.
    eexists _, _. split; [reflexivity|].
    split; [apply state_ok_insert; [split; assumption | lia]|].
    split; [split; assumption|].
    rewrite length_insert. repeat split; try reflexivity. left. auto.
  - rewrite decide_True by lia.
    eexists _, _. split; [reflexivity|].
    split; [split; assumption|].
    split; [apply state_ok_insert; [split; assumption | lia]|].
    rewrite length_insert. repeat split; try reflexivity. right. auto.
Qed.

Lemma values_at_ok (data : DataFrame) (n b : nat) :
  rectangular data -> n < index_len data -> b < length (columns data) ->
  exists reward, values_at data n b = Ok reward.
Proof.
  intros Hrect Hn Hb. unfold values_at, getitem.
  rewrite decide_True by assumption.
  destruct (lookup_lt_is_Some_2 (columns data) b Hb) as [c Hc].
  rewrite Hc. simpl.
  unfold rectangular in Hrect. rewrite Forall_lookup in Hrect.
  specialize (Hrect b c Hc).
  destruct (lookup_lt_is_Some_2 c n) as [v Hv]; [lia|].
  rewrite Hv. eauto.
Qed.

Lemma counter_total_observe (reward : Z) (bandit N : nat)
    (rewards penalties rewards' penalties' : list Z) (i : nat) :
  bandit < N -> state_ok N rewards -> state_ok N penalties ->
  observe reward bandit rewards penalties = Ok (rewards', penalties') ->
  counter_total rewards' penalties' i
  = (counter_total rewards penalties i + if decide (bandit = i) then 1 else 0)%Z.
Proof.
  intros Hb Hr Hp Hobs.
  destruct (observe_spec reward bandit N rewards penalties Hb Hr Hp)
    as (r' & p' & Hobs' & _ & _ & _ & _ & Hcase).
  rewrite Hobs in Hobs'. injection Hobs' as <- <-.
  destruct Hr as [Hlr _], Hp as [Hlp _].
  unfold counter_total.
  destruct Hcase as [(_ & -> & ->) | (_ & -> & ->)];
    destruct (decide (bandit = i)) as [->|Hne].
  - rewrite list_lookup_insert_eq by lia. simpl. lia.
  - rewrite list_lookup_insert_ne by assumption. lia.
  - rewrite list_lookup_insert_eq by lia. simpl. lia.
  - rewrite list_lookup_insert_ne by assumption. lia.
Qed.


Lemma ts_row_spec (data : DataFrame) (N n : nat) (rewards penalties : list Z)
    (g : G) :
  rectangular data -> N = length (columns data) -> 1 <= N ->
  n < index_len data -> state_ok N rewards -> state_ok N penalties ->
  exists (bandit : nat) (reward : Z) (rewards' penalties' : list Z) (g' : G),
    ts_row data N n rewards penalties g
      = Ok (bandit, rewards', penalties', g') /\
    bandit < N /\
    first_argmax (drawn_samples (seq 0 N) rewards penalties g) bandit /\
    values_at data n bandit = Ok reward /\
    observe reward bandit rewards penalties = Ok (rewards', penalties').
Proof.
  intros Hrect HN H1 Hn Hr Hp.
  destruct (select_bandit_first_argmax N rewards penalties g H1 Hr Hp)
    as (b & m & g' & Hsel & _ & Hb & Hmax).
  destruct (values_at_ok data n b Hrect Hn) as [reward Hval]; [lia|].
  destruct (observe_spec reward b N rewards penalties Hb Hr Hp)
    as (r' & p' & Hobs & _).
  exists b, reward, r', p', g'. unfold ts_row.
  rewrite Hsel. simpl. rewrite Hval. simpl. rewrite Hobs. simpl. auto.
Qed.

Lemma times_selected_app (l1 l2 : list nat) (i : nat) :
  times_selected (l1 ++ l2) i = (times_selected l1 i + times_selected l2 i)%Z.
Proof. unfold times_selected. rewrite filter_app, length_app. lia. Qed.

Lemma times_selected_cons (b : nat) (l : list nat) (i : nat) :
  times_selected (b :: l) i
  = ((if decide (b = i) then 1 else 0) + times_selected l i)%Z.
Proof.
  unfold times_selected. rewrite filter_cons.
  destruct (decide (b = i)); simpl; lia.
Qed.

Lemma ts_rows_spec (data : DataFrame) (N : nat) (rows : list nat) :
  rectangular data -> N = length (columns data) -> 1 <= N ->
  Forall (fun n => n < index_len data) rows ->
  forall (model_selected : list nat) (rewards penalties : list Z) (g : G),
  state_ok N rewards -> state_ok N penalties ->
  exists (selected : list nat) (rewards' penalties' : list Z) (g' : G),
    ts_rows data N rows model_selected rewards penalties g
      = Ok (model_selected ++ selected, rewards', penalties', g') /\
    length selected = length rows /\
    Forall (fun b => b < N) selected /\
    state_ok N rewards' /\ state_ok N penalties' /\
    length rewards' = length rewards /\
    length penalties' = length penalties /\
    forall i, counter_total rewards' penalties' i
              = (counter_total rewards penalties i + times_selected selected i)%Z.
Proof.
  intros Hrect HN H1. induction rows as [|n rest IH];
    intros Hrows model_selected rewards penalties g Hr Hp.
  - exists [], rewards, penalties, g. simpl. rewrite app_nil_r.
    repeat split; try assumption; try apply Hr; try apply Hp.
    + constructor.
    + intros i. unfold times_selected. simpl. lia.
  - apply Forall_cons in Hrows. destruct Hrows as [Hn Hrest].
    destruct (ts_row_spec data N n rewards penalties g Hrect HN H1 Hn Hr Hp)
      as (b & reward & r1 & p1 & g1 & Hrow & Hb & _ & _ & Hobs).
    destruct (observe_spec reward b N rewards penalties Hb Hr Hp)
      as (r1' & p1' & Hobs' & Hr1 & Hp1 & Hlr1 & Hlp1 & _).
    rewrite Hobs in Hobs'. injection Hobs' as <- <-.
    destruct (IH Hrest (model_selected ++ [b]) r1 p1 g1 Hr1 Hp1)
      as (sel & r' & p' & g' & Hrows & Hlen & Hsel & Hr' & Hp' & Hlr' & Hlp' & Htot).
    exists (b :: sel), r', p', g'. simpl. rewrite Hrow. simpl.
    rewrite Hrows, <- app_assoc. simpl.
    repeat split; try assumption; try apply Hr'; try apply Hp'.
    + now rewrite Hlen.
    + now constructor.
    + congruence.
    + congruence.
    + intros i. rewrite Htot, times_selected_cons.
      rewrite (counter_total_observe reward b N rewards penalties r1 p1 i Hb Hr Hp Hobs).
      lia.
Qed.


Lemma thompson_sampling_experiment_spec (data : DataFrame)
    (model_accuracies : list Q) (rewards penalties : list Z) (g : G) :
  ts_valid data model_accuracies rewards penalties ->
  exists (model_selected : list nat) (rewards' penalties' : list Z) (g' : G),
    thompson_sampling_experiment data model_accuracies rewards penalties g
      = Ok (Counter model_selected, rewards', penalties', g') /\
    ts_rows data (length (columns data)) (seq 0 (index_len data)) []
            rewards penalties g
      = Ok (model_selected, rewards', penalties', g') /\
    length model_selected = index_len data /\
    Forall (fun b => b < length (columns data)) model_selected /\
    state_ok (length (columns data)) rewards' /\
    state_ok (length (columns data)) penalties' /\
    forall i, counter_total rewards' penalties' i
              = (counter_total rewards penalties i
                 + times_selected model_selected i)%Z.
Proof.
  intros (Hrect & Hacc & H1 & Hr & Hp).
  destruct (ts_rows_spec data _ (seq 0 (index_len data)) Hrect eq_refl H1)
    with (model_selected := @nil nat) (rewards := rewards)
         (penalties := penalties) (g := g)
    as (sel & r' & p' & g' & Hrows & Hlen & Hsel & Hr' & Hp' & _ & _ & Htot);
    try assumption.
  { apply Forall_forall. intros n Hn. apply elem_of_seq in Hn. lia. }
  simpl in Hrows. rewrite length_seq in Hlen.
  exists sel, r', p', g'. unfold thompson_sampling_experiment.
  rewrite decide_True by assumption. rewrite Hrows. simpl. auto 10.
Qed.

(** C2. Over one step of the allocator, [reward_count[i] + penalty_count[i]]
    grows, for every model [i], by the number of rows of the step in
    which [i] was selected, which is the count returned for [i]; and a
    row increments one counter of the selected model and nothing else:
    its reward count when the reward cell of that model in the row is 1,
    its penalty count otherwise. *)
Theorem thompson_selection_count_conservation (data : DataFrame)
    (model_accuracies : list Q) (rewards penalties : list Z) (g : G) :
  ts_valid data model_accuracies rewards penalties ->
  (exists (model_selected : list nat) (rewards' penalties' : list Z) (g' : G),
     thompson_sampling_experiment data model_accuracies rewards penalties g
       = Ok (Counter model_selected, rewards', penalties', g') /\
     ts_rows data (length (columns data)) (seq 0 (index_len data)) []
             rewards penalties g
       = Ok (model_selected, rewards', penalties', g') /\
     length model_selected = index_len data /\
     forall i,
       (counter_total rewards' penalties' i - counter_total rewards penalties i
        = times_selected model_selected i)%Z /\
       default 0%Z (Counter model_selected !! i)
       = times_selected model_selected i) /\
  (forall (n : nat) (rewards0 penalties0 : list Z) (g0 : G),
     n < index_len data ->
     state_ok (length (columns data)) rewards0 ->
     state_ok (length (columns data)) penalties0 ->
     exists (bandit : nat) (reward : Z) (rewards1 penalties1 : list Z) (g1 : G),
       ts_row data (length (columns data)) n rewards0 penalties0 g0
         = Ok (bandit, rewards1, penalties1, g1) /\
       values_at data n bandit = Ok reward /\
       ((reward = 1%Z /\ penalties1 = penalties0 /\
         rewards1
         = <[bandit := (default 0 (rewards0 !! bandit) + 1)%Z]> rewards0) \/
        (reward <> 1%Z /\ rewards1 = rewards0 /\
         penalties1
         = <[bandit := (default 0 (penalties0 !! bandit) + 1)%Z]> penalties0))).
Proof.
  intros Hvalid. split.
  - destruct (thompson_sampling_experiment_spec data model_accuracies
                rewards penalties g Hvalid)
      as (sel & r' & p' & g' & Hexp & Hrows & Hlen & _ & _ & _ & Htot).
    exists sel, r', p', g'. repeat split; try assumption.
    + rewrite Htot. lia.
    + apply Counter_lookup.
  - destruct Hvalid as (Hrect & _ & H1 & _ & _).
    intros n r0 p0 g0 Hn Hr0 Hp0.
    destruct (ts_row_spec data _ n r0 p0 g0 Hrect eq_refl H1 Hn Hr0 Hp0)
      as (b & reward & r1 & p1 & g1 & Hrow & Hb & _ & Hval & Hobs).
    destruct (observe_spec reward b _ r0 p0 Hb Hr0 Hp0)
      as (r1' & p1' & Hobs' & _ & _ & _ & _ & Hcase).
    rewrite Hobs in Hobs'. injection Hobs' as <- <-.
    exists b, reward, r1, p1, g1. auto.
Qed.

(** C3. On a valid batch of [B] observation rows the counts returned by
    the Thompson Sampling allocator sum to [B]. *)
Theorem thompson_counts_sum_to_batch_size (data : DataFrame)
    (model_accuracies : list Q) (rewards penalties : list Z) (g : G) :
  ts_valid data model_accuracies rewards penalties ->
  exists (count_of_model_selected : gmap nat Z) (rewards' penalties' : list Z)
         (g' : G),
    thompson_sampling_experiment data model_accuracies rewards penalties g
      = Ok (count_of_model_selected, rewards', penalties', g') /\
    sum_values count_of_model_selected = Z.of_nat (index_len data).
Proof.
  intros Hvalid.
  destruct (thompson_sampling_experiment_spec data model_accuracies
              rewards penalties g Hvalid)
    as (sel & r' & p' & g' & Hexp & _ & Hlen & _).
  exists (Counter sel), r', p', g'. split; [exact Hexp|].
  rewrite Counter_sum. now rewrite Hlen.
Qed.

End ThompsonProperties.

(** ** The control allocator *)

Lemma fill_lookup (base : Z) (n i : nat) :
  fill base n !! i = if decide (i < n)%nat then Some base else None.
Proof.
  unfold fill. induction n as [|n IH].
  - destruct (decide (i < 0)%nat); [lia | apply lookup_empty].
  - rewrite seq_S, foldl_app. cbn [foldl]. change (0 + n)%nat with n.
    destruct (decide (i = n)) as [->|Hne].
    + rewrite lookup_insert_eq. now rewrite decide_True by lia.
    + rewrite lookup_insert_ne by congruence. rewrite IH.
      destruct (decide (i < n)%nat); [rewrite decide_True by lia
                                     | rewrite decide_False by lia]; reflexivity.
Qed.

Lemma fill_sum (base : Z) (n : nat) :
  sum_values (fill base n) = (Z.of_nat n * base)%Z.
Proof.
  induction n as [|n IH].
  - reflexivity.
  - unfold fill in *. rewrite seq_S, foldl_app. cbn [foldl].
    change (0 + n)%nat with n. rewrite sum_values_insert_fresh.
    + rewrite IH. lia.
    + pose proof (fill_lookup base n n) as Hl. unfold fill in Hl.
      rewrite Hl. now rewrite decide_False by lia.
Qed.

Lemma increment_keys_spec (n : nat) :
  forall (a : nat) (d : gmap nat Z),
  (forall i, (a <= i < a + n)%nat -> is_Some (d !! i)) ->
  exists d',
    increment_keys (seq a n) d = Ok d' /\
    sum_values d' = (sum_values d + Z.of_nat n)%Z /\
    forall i, d' !! i
              = if decide (a <= i < a + n)%nat
                then (fun v => (v + 1)%Z) <$> d !! i else d !! i.
Proof.
  induction n as [|n IH]; intros a d Hd.
  - exists d. simpl. split; [reflexivity|]. split; [lia|].
    intros i. now rewrite decide_False by lia.
  - destruct (Hd a) as [v Hv]; [lia|].
    simpl. unfold dict_getitem. rewrite Hv. simpl.
    destruct (IH (S a) (<[a := (v + 1)%Z]> d)) as (d' & Hinc & Hsum & Hlook).
    { intros i Hi. rewrite lookup_insert_ne by lia. apply Hd. lia. }
    exists d'. split; [exact Hinc|]. split.
    + rewrite Hsum, sum_values_insert, Hv. simpl. lia.
    + intros i. rewrite Hlook.
      destruct (decide (i = a)) as [->|Hne].
      * rewrite decide_False by lia. rewrite decide_True by lia.
        rewrite lookup_insert_eq, Hv. reflexivity.
      * rewrite lookup_insert_ne by congruence.
        destruct (decide (S a <= i < S a + n)%nat);
          [rewrite decide_True by lia | rewrite decide_False by lia];
          reflexivity.
Qed.

Lemma control_experiment_spec (data : DataFrame) (model_accuracies : list Q) :
  (1 <= length model_accuracies)%nat ->
  (Z.of_nat (index_len data) < 2 ^ 51)%Z ->
  exists m : gmap nat Z,
    control_experiment data model_accuracies = Ok m /\
    sum_values m = Z.of_nat (index_len data) /\
    forall i, m !! i
              = if decide (i < length model_accuracies)%nat
                then Some (even_split (Z.of_nat (index_len data))
                                      (Z.of_nat (length model_accuracies)) i)
                else None.
Proof.
  intros HN HB. unfold control_experiment, int_truediv.
  rewrite decide_False by lia. cbn [rbind].
  set (B := Z.of_nat (index_len data)) in *.
  set (N := Z.of_nat (length model_accuracies)) in *.
  rewrite fill_sum. fold N.
  pose proof (Z.div_mod B N) as Hdm.
  pose proof (Z.mod_pos_bound B N) as Hr.
  destruct (control_base B N) as [Hbase | (Hr0 & HB0 & Hbase)];
    [lia | lia | |]; rewrite Hbase.
  - (* the floor is exact: [diff] is the remainder *)
    replace (B - N * (B / N))%Z with (B mod N)%Z by lia.
    destruct (decide (B mod N <> 0)%Z) as [Hne|He].
    + destruct (increment_keys_spec (Z.to_nat (B mod N)) 0%nat
                  (fill (B / N) (length model_accuracies)))
        as (d' & Hinc & Hsum & Hlook).
      { intros i Hi. rewrite fill_lookup. rewrite decide_True by lia. eauto. }
      exists d'. split; [exact Hinc|]. split.
      * rewrite Hsum, fill_sum. fold N. lia.
      * intros i. rewrite Hlook, fill_lookup. unfold even_split.
        destruct (decide (i < length model_accuracies)%nat) as [Hi|Hi].
        -- destruct (decide (0 <= i < 0 + Z.to_nat (B mod N))%nat);
             [rewrite decide_True by lia | rewrite decide_False by lia];
             simpl; f_equal; lia.
        -- rewrite decide_False by lia. reflexivity.
    + exists (fill (B / N) (length model_accuracies)). split; [reflexivity|].
      split.
      * rewrite fill_sum. fold N. lia.
      * intros i. rewrite fill_lookup. unfold even_split.
        destruct (decide (i < length model_accuracies)%nat); [|reflexivity].
        rewrite decide_False by lia. f_equal. lia.
  - (* the floor is one short: every key is incremented once *)
    replace (B - N * (B / N - 1))%Z with N by lia.
    rewrite decide_True by lia.
    destruct (increment_keys_spec (Z.to_nat N) 0%nat
                (fill (B / N - 1) (length model_accuracies)))
      as (d' & Hinc & Hsum & Hlook).
    { intros i Hi. rewrite fill_lookup. rewrite decide_True by lia. eauto. }
    exists d'. split; [exact Hinc|]. split.
    + rewrite Hsum, fill_sum. fold N. lia.
    + intros i. rewrite Hlook, fill_lookup. unfold even_split.
      destruct (decide (i < length model_accuracies)%nat) as [Hi|Hi].
      * rewrite decide_True by lia. rewrite decide_False by lia.
        simpl. f_equal. lia.
      * rewrite decide_False by lia. reflexivity.
Qed.

(** C4. For a batch of [B] rows and [M >= 1] models the control allocator
    returns [floor(B/M) + 1] for the model indices below
    [r = B - M*floor(B/M)] and [floor(B/M)] for the others, whatever the
    reward cells hold: the result is that of any batch of as many rows.
    The counts sum to [B], two counts differ by at most 1, and 10 rows over
    3 models give [{0:4, 1:3, 2:3}]. [B] is below [2^51], as the length of
    any frame that fits in memory is. *)
Theorem control_even_split (data : DataFrame) (model_accuracies : list Q) :
  1 <= length model_accuracies ->
  (Z.of_nat (index_len data) < 2 ^ 51)%Z ->
  exists m : gmap nat Z,
    control_experiment data model_accuracies = Ok m /\
    (forall i, i < length model_accuracies ->
       m !! i = Some (even_split (Z.of_nat (index_len data))
                                 (Z.of_nat (length model_accuracies)) i)) /\
    (forall i, length model_accuracies <= i -> m !! i = None) /\
    (forall (data' : DataFrame) (model_accuracies' : list Q),
       index_len data' = index_len data ->
       length model_accuracies' = length model_accuracies ->
       control_experiment data' model_accuracies' = Ok m) /\
    sum_values m = Z.of_nat (index_len data) /\
    (forall i j ci cj, m !! i = Some ci -> m !! j = Some cj ->
       (Z.abs (ci - cj) <= 1)%Z) /\
    (index_len data = 10 -> length model_accuracies = 3 ->
     m = {[0 := 4%Z; 1 := 3%Z; 2 := 3%Z]}).
Proof.
  intros HM HB.
  destruct (control_experiment_spec data model_accuracies HM HB)
    as (m & Hrun & Hsum & Hlook).
  exists m. split; [exact Hrun|].
  assert (Hin : forall i, i < length model_accuracies ->
            m !! i = Some (even_split (Z.of_nat (index_len data))
                             (Z.of_nat (length model_accuracies)) i)).
  { intros i Hi. rewrite Hlook. now rewrite decide_True by lia. }
  assert (Hout : forall i, length model_accuracies <= i -> m !! i = None).
  { intros i Hi. rewrite Hlook. now rewrite decide_False by lia. }
  split; [exact Hin|]. split; [exact Hout|]. split.
  { intros data' accs' Hlen Hacc. rewrite <- Hrun.
    unfold control_experiment. now rewrite Hlen, Hacc. }
  split; [exact Hsum|]. split.
  - intros i j ci cj Hi Hj. rewrite Hlook in Hi, Hj.
    destruct (decide (i < length model_accuracies)); [|discriminate].
    destruct (decide (j < length model_accuracies)); [|discriminate].
    injection Hi as <-. injection Hj as <-. unfold even_split.
    repeat case_decide; lia.
  - intros H10 H3. apply map_eq. intros i. rewrite Hlook, H10, H3.
    destruct (decide (i < 3)) as [Hi|Hi].
    + destruct i as [|[|[|i]]]; [reflexivity | reflexivity | reflexivity | lia].
    + rewrite !lookup_insert_ne by lia. now rewrite lookup_singleton_ne by lia.
Qed.

(** ** The tables of util.py and app.py *)

Lemma frame_of_records_lookup (df : list (gmap nat Z)) (k : nat) :
  frame_data (frame_of_records df) !! k
  = if decide (k ∈ all_keys df)
    then Some ((fun d : gmap nat Z => d !! k) <$> df) else None.
Proof.
  unfold frame_of_records. cbn [frame_data]. fold (all_keys df).
  destruct (decide (k ∈ all_keys df)) as [Hk|Hk].
  - apply lookup_set_to_map.
    + intros y y' _ _ Hyy. exact Hyy.
    + exists k. auto.
  - apply eq_None_not_Some. intros [col Hcol].
    apply lookup_set_to_map in Hcol.
    + destruct Hcol as (y & Hy & Heq). injection Heq as -> _. contradiction.
    + intros y y' _ _ Hyy. exact Hyy.
Qed.

Lemma fillna_frame_of_records_lookup (df : list (gmap nat Z)) (k : nat) :
  frame_data (fillna 0 (frame_of_records df)) !! k
  = if decide (k ∈ all_keys df) then Some (step_counts df k) else None.
Proof.
  unfold fillna. cbn [frame_data]. rewrite lookup_fmap, frame_of_records_lookup.
  destruct (decide (k ∈ all_keys df)); [|reflexivity].
  simpl. f_equal. unfold step_counts. rewrite <- list_fmap_compose. reflexivity.
Qed.

Lemma format_as_dataframe_spec (df : list (gmap nat Z)) :
  all_keys df <> ∅ ->
  exists f : Frame Z,
    format_as_dataframe df = Ok f /\
    frame_index f = (Step <$> seq 0 (length df)) ++ [Totals] /\
    forall k, frame_data f !! k
              = if decide (k ∈ all_keys df)
                then Some (step_counts df k ++ [sum_list_Z (step_counts df k)])
                else None.
Proof.
  intros Hne. unfold format_as_dataframe, loc_append.
  destruct (decide (frame_data (fillna 0 (frame_of_records df)) = ∅)) as [He|_].
  - exfalso. apply Hne. apply set_eq. intros k. split; [|set_solver].
    intros Hk. pose proof (fillna_frame_of_records_lookup df k) as Hl.
    rewrite He, lookup_empty, decide_True in Hl by assumption. discriminate.
  - eexists. split; [reflexivity|]. cbn [frame_index frame_data]. split.
    + f_equal. unfold frame_of_records, fillna. cbn [frame_index].
      apply list_eq. intros t. rewrite list_lookup_imap, list_lookup_fmap.
      destruct (df !! t) as [d|] eqn:Ht; simpl.
      * rewrite lookup_seq_lt by (apply lookup_lt_Some in Ht; lia). reflexivity.
      * rewrite lookup_seq_ge by (apply lookup_ge_None in Ht; lia). reflexivity.
    + intros k. rewrite map_lookup_imap, fillna_frame_of_records_lookup.
      destruct (decide (k ∈ all_keys df)) as [Hk|Hk]; [|reflexivity].
      simpl. unfold sum_axis0. rewrite lookup_fmap.
      rewrite fillna_frame_of_records_lookup, decide_True by assumption.
      reflexivity.
Qed.

Lemma create_misclassification_df_spec (selected_df : Frame Z)
    (model_accuracies : list Q) :
  set_Forall (fun i => i < length model_accuracies)
             (dom (frame_data selected_df)) ->
  exists m : Frame Z,
    create_misclassification_df selected_df model_accuracies = Ok m /\
    frame_index m = (if decide (frame_data selected_df = ∅) then []
                     else frame_index selected_df) /\
    forall k, frame_data m !! k
              = (fun col : list Z =>
                   (fun c => misclassified c (default 0%Q (model_accuracies !! k)))
                     <$> col) <$> frame_data selected_df !! k.
Proof.
  intros Hkeys. unfold create_misclassification_df.
  rewrite decide_True by assumption.
  eexists. split; [reflexivity|]. cbn [frame_index frame_data].
  split; [reflexivity|].
  intros k. rewrite map_lookup_imap.
  destruct (frame_data selected_df !! k); reflexivity.
Qed.

(** *** int64 arithmetic *)

Lemma wrap64_range (z : Z) : (- 2 ^ 63 <= wrap64 z < 2 ^ 63)%Z.
Proof.
  unfold wrap64. pose proof (Z.mod_pos_bound (z + 2 ^ 63) (2 ^ 64)). lia.
Qed.

Lemma wrap64_small (z : Z) : (- 2 ^ 63 <= z < 2 ^ 63)%Z -> wrap64 z = z.
Proof. intros Hz. unfold wrap64. rewrite Z.mod_small; lia. Qed.

Lemma wrap64_congr (a b : Z) :
  (a mod 2 ^ 64 = b mod 2 ^ 64)%Z -> wrap64 a = wrap64 b.
Proof.
  intros Hab. unfold wrap64.
  rewrite <- (Zplus_mod_idemp_l a), <- (Zplus_mod_idemp_l b), Hab. reflexivity.
Qed.

Lemma wrap64_mod (z : Z) : (wrap64 z mod 2 ^ 64 = z mod 2 ^ 64)%Z.
Proof. unfold wrap64. rewrite Zminus_mod_idemp_l. f_equal. lia. Qed.

Lemma wrap64_add_l (a b : Z) : wrap64 (wrap64 a + b) = wrap64 (a + b).
Proof.
  apply wrap64_congr.
  rewrite <- Zplus_mod_idemp_l, wrap64_mod, Zplus_mod_idemp_l. reflexivity.
Qed.

Lemma wrap64_add_r (a b : Z) : wrap64 (a + wrap64 b) = wrap64 (a + b).
Proof. rewrite Z.add_comm, wrap64_add_l, Z.add_comm. reflexivity. Qed.

Lemma wrap64_mul_l (a b : Z) : wrap64 (wrap64 a * b) = wrap64 (a * b).
Proof.
  apply wrap64_congr.
  rewrite <- Zmult_mod_idemp_l, wrap64_mod, Zmult_mod_idemp_l. reflexivity.
Qed.

Lemma wrap64_sum_list (l : list Z) :
  wrap64 (sum_list_Z (wrap64 <$> l)) = wrap64 (sum_list_Z l).
Proof.
  unfold sum_list_Z. induction l as [|x l IH]; csimpl; [reflexivity|].
  rewrite wrap64_add_l, <- wrap64_add_r, IH, wrap64_add_r. reflexivity.
Qed.

(** *** The cells of the tables *)

Lemma cell_misclassified (selected_df m : Frame Z) (model_accuracies : list Q)
    (scale : Z) (t k : nat) :
  create_misclassification_df selected_df model_accuracies = Ok m ->
  cell (frame_scale m scale) t k
  = (fun c => wrap64 (misclassified c (default 0%Q (model_accuracies !! k))
                      * scale))
      <$> cell selected_df t k.
Proof.
  intros Hm. unfold create_misclassification_df in Hm.
  destruct (decide _) as [Hkeys|]; [|discriminate].
  injection Hm as <-. unfold cell, frame_scale. cbn [frame_data].
  rewrite lookup_fmap, map_lookup_imap.
  destruct (frame_data selected_df !! k) as [col|]; [|reflexivity].
  simpl. rewrite !list_lookup_fmap.
  destruct (col !! t); reflexivity.
Qed.

Lemma misclassified_nonneg (count : Z) (accuracy : Q) :
  (0 <= count)%Z -> (0 <= accuracy)%Q -> (accuracy <= 1)%Q ->
  (0 <= misclassified count accuracy)%Z.
Proof.
  intros Hc Ha0 Ha1. unfold misclassified, fmul, fsub, of_int.
  apply rne_nonneg, b64_nonneg, Qmult_le_0_compat.
  - apply b64_nonneg. change 0%Q with (inject_Z 0). now rewrite <- Zle_Qle.
  - apply b64_nonneg. lra.
Qed.


Lemma sum_values_nonneg (d : gmap nat Z) :
  map_Forall (fun _ v => (0 <= v)%Z) d -> (0 <= sum_values d)%Z.
Proof.
  induction d as [|k v d Hk IH] using map_ind; intros Hall.
  - rewrite sum_values_empty. lia.
  - rewrite sum_values_insert_fresh by assumption.
    apply map_Forall_insert in Hall; [|assumption].
    destruct Hall as [Hv Hd]. specialize (IH Hd). lia.
Qed.

Lemma sum_list_Z_nonneg (l : list Z) :
  Forall (fun v => (0 <= v)%Z) l -> (0 <= sum_list_Z l)%Z.
Proof. induction 1; simpl; lia. Qed.


(** An entry of an [int64] running sum is the sum of the terms so far,
    wrapped. *)
Lemma cumsum_from_lookup (l : list Z) :
  forall (acc : Z) (i : nat),
    i < length l ->
    cumsum_from acc l !! i
    = Some (wrap64 (acc + sum_list_Z (take (S i) l))).
Proof.
  induction l as [|x l IH]; intros acc i Hi; [simpl in Hi; lia|].
  destruct i as [|i]; cbn [cumsum_from lookup list_lookup take].
  - rewrite take_0. unfold sum_list_Z. cbn [foldr].
    rewrite Z.add_0_r. reflexivity.
  - change (cumsum_from (wrap64 (acc + x)) l !! i
            = Some (wrap64 (acc + sum_list_Z (x :: take (S i) l)))).
    rewrite IH by (simpl in Hi; lia).
    rewrite wrap64_add_l. unfold sum_list_Z. cbn [foldr].
    do 2 f_equal. lia.
Qed.

Lemma length_cumsum_from (acc : Z) (l : list Z) :
  length (cumsum_from acc l) = length l.
Proof. revert acc. induction l as [|v l IH]; intros acc; simpl; auto. Qed.


Lemma length_row_totals (f : Frame Z) :
  length (row_totals f) = length (frame_index f).
Proof. unfold row_totals. apply length_imap. Qed.

(** The row sums of pandas are the sums of the rows, wrapped. *)
Lemma sum_axis1_row_totals (f : Frame Z) :
  sum_axis1 f = wrap64 <$> row_totals f.
Proof.
  apply list_eq. intros t. unfold sum_axis1, row_totals.
  rewrite list_lookup_fmap, !list_lookup_imap.
  destruct (frame_index f !! t); reflexivity.
Qed.


Lemma length_cumulative_cost (f : Frame Z) (cost_of_failure : Z) :
  length (cumulative_cost f cost_of_failure) = length (frame_index f) - 1.
Proof.
  unfold cumulative_cost, cumsum, drop_last, sum_axis1.
  rewrite length_fmap, length_cumsum_from, length_take, length_imap. lia.
Qed.

(** The entry of a time step in the cumulative cost series: the cost times
    the sum of the rows up to that step, wrapped. *)
Lemma cumulative_cost_lookup (f : Frame Z) (cost_of_failure : Z) (i : nat) :
  i + 1 < length (frame_index f) ->
  cumulative_cost f cost_of_failure !! i
  = Some (wrap64 (sum_list_Z (take (S i) (row_totals f)) * cost_of_failure)).
Proof.
  intros Hi. unfold cumulative_cost, cumsum.
  assert (Hlen : length (sum_axis1 f) = length (frame_index f)).
  { rewrite sum_axis1_row_totals, length_fmap. apply length_row_totals. }
  rewrite list_lookup_fmap, cumsum_from_lookup
    by (unfold drop_last; rewrite length_take; lia).
  cbn [fmap option_fmap option_map]. f_equal.
  rewrite Z.add_0_l, wrap64_mul_l.
  unfold drop_last. rewrite take_take.
  replace (S i `min` (length (sum_axis1 f) - 1)) with (S i) by lia.
  rewrite sum_axis1_row_totals, <- fmap_take.
  rewrite <- wrap64_mul_l, wrap64_sum_list, wrap64_mul_l. reflexivity.
Qed.


Lemma format_as_dataframe_no_keys (df : list (gmap nat Z)) :
  all_keys df = ∅ -> format_as_dataframe df = Raise ValueError.
Proof.
  intros He. unfold format_as_dataframe, loc_append.
  rewrite decide_True; [reflexivity|].
  apply map_eq. intros k. rewrite fillna_frame_of_records_lookup, lookup_empty.
  rewrite decide_False; [reflexivity|]. rewrite He. apply not_elem_of_empty.
Qed.

Lemma format_as_dataframe_inv (df : list (gmap nat Z)) (f : Frame Z) :
  format_as_dataframe df = Ok f ->
  all_keys df <> ∅ /\
  frame_index f = (Step <$> seq 0 (length df)) ++ [Totals] /\
  forall k, frame_data f !! k
            = if decide (k ∈ all_keys df)
              then Some (step_counts df k ++ [sum_list_Z (step_counts df k)])
              else None.
Proof.
  intros Hf.
  assert (Hne : all_keys df <> ∅).
  { intros He. rewrite (format_as_dataframe_no_keys df He) in Hf. discriminate. }
  split; [exact Hne|].
  destruct (format_as_dataframe_spec df Hne) as (f' & Hf' & Hspec).
  rewrite Hf in Hf'. injection Hf' as <-. exact Hspec.
Qed.

Lemma misclassifications_index (series : list (gmap nat Z))
    (model_accuracies : list Q) (scale : Z) (m : Frame Z) :
  misclassifications series model_accuracies scale = Ok m ->
  frame_index m = (Step <$> seq 0 (length series)) ++ [Totals].
Proof.
  intros Hm. unfold misclassifications in Hm.
  destruct (format_as_dataframe series) as [sel|] eqn:Hsel; [|discriminate].
  simpl in Hm.
  destruct (create_misclassification_df sel model_accuracies) as [m0|] eqn:Hm0;
    [|discriminate].
  simpl in Hm. injection Hm as <-.
  destruct (format_as_dataframe_inv series sel Hsel) as (Hne & Hidx & Hl).
  unfold create_misclassification_df in Hm0.
  destruct (decide _) as [Hkeys|]; [|discriminate].
  injection Hm0 as <-. cbn [frame_scale frame_index].
  rewrite decide_False; [exact Hidx|].
  intros He. apply Hne. apply set_eq. intros k. split; [|set_solver].
  intros Hk. specialize (Hl k). rewrite He, lookup_empty in Hl.
  rewrite decide_True in Hl by assumption. discriminate.
Qed.

Lemma length_step_counts (series : list (gmap nat Z)) (k : nat) :
  length (step_counts series k) = length series.
Proof. unfold step_counts. apply length_fmap. Qed.

Lemma totals_row (series : list (gmap nat Z)) (sel : Frame Z) (k : nat) :
  format_as_dataframe series = Ok sel ->
  frame_index sel !! length series = Some Totals /\
  iloc_row sel (length series) !! k
  = if decide (k ∈ all_keys series)
    then Some (sum_list_Z (step_counts series k)) else None.
Proof.
  intros Hsel. destruct (format_as_dataframe_inv series sel Hsel) as (_ & Hidx & Hl).
  split.
  - rewrite Hidx, lookup_app_r by (rewrite length_fmap, length_seq; lia).
    rewrite length_fmap, length_seq, Nat.sub_diag. reflexivity.
  - unfold iloc_row. rewrite lookup_fmap, Hl.
    destruct (decide (k ∈ all_keys series)); [|reflexivity].
    simpl. rewrite lookup_app_r by (rewrite length_step_counts; lia).
    rewrite length_step_counts, Nat.sub_diag. reflexivity.
Qed.

Lemma scaled_misclassification_lookup (selected_df m : Frame Z)
    (model_accuracies : list Q) (scale : Z) (k : nat) :
  create_misclassification_df selected_df model_accuracies = Ok m ->
  frame_data (frame_scale m scale) !! k
  = (fun col : list Z =>
       (fun c => wrap64 (misclassified c (default 0%Q (model_accuracies !! k))
                         * scale)) <$> col)
      <$> frame_data selected_df !! k.
Proof.
  intros Hm. unfold create_misclassification_df in Hm.
  destruct (decide _) as [Hkeys|]; [|discriminate].
  injection Hm as <-. unfold frame_scale. cbn [frame_data].
  rewrite lookup_fmap, map_lookup_imap.
  destruct (frame_data selected_df !! k) as [col|]; [|reflexivity].
  simpl. f_equal. rewrite <- list_fmap_compose. reflexivity.
Qed.


(** C7. For a series whose dicts may have different key sets (and one key
    at least), the table has one column per key that occurs in the series,
    each with one cell per row; the cell of a step is the count of the
    key in that step, 0 where the step lacks the key; and the rows are the
    time steps followed by a single row, labelled [Totals], that holds the
    sum of each column over the time steps. *)
Theorem format_as_dataframe_normalizes (series : list (gmap nat Z)) :
  all_keys series <> ∅ ->
  exists f : Frame Z,
    format_as_dataframe series = Ok f /\
    frame_index f = (Step <$> seq 0 (length series)) ++ [Totals] /\
    dom (frame_data f) = all_keys series /\
    (forall k col, frame_data f !! k = Some col ->
       length col = length (frame_index f) /\
       col = step_counts series k ++ [sum_list_Z (step_counts series k)]) /\
    (forall t d k, series !! t = Some d -> k ∈ all_keys series ->
       cell f t k = Some (default 0%Z (d !! k))) /\
    (forall k, k ∈ all_keys series ->
       cell f (length series) k
       = Some (sum_list_Z (omap (fun t => cell f t k) (seq 0 (length series))))).
Proof.
  intros Hne.
  destruct (format_as_dataframe_spec series Hne) as (f & Hf & Hidx & Hl).
  exists f. split; [exact Hf|]. split; [exact Hidx|].
  assert (Hcell : forall t d k, series !! t = Some d -> k ∈ all_keys series ->
            cell f t k = Some (default 0%Z (d !! k))).
  { intros t d k Ht Hk. unfold cell. rewrite Hl, decide_True by assumption.
    simpl. rewrite lookup_app_l
      by (rewrite length_step_counts; now apply lookup_lt_Some in Ht).
    unfold step_counts. rewrite list_lookup_fmap, Ht. reflexivity. }
  split; [|split; [|split; [exact Hcell|]]].
  - apply set_eq. intros k. rewrite elem_of_dom, Hl.
    destruct (decide (k ∈ all_keys series)) as [Hk|Hk]; split.
    + intros _. exact Hk.
    + intros _. eexists. reflexivity.
    + intros [? H]. discriminate.
    + intros H. contradiction.
  - intros k col Hk. rewrite Hl in Hk.
    destruct (decide (k ∈ all_keys series)); [|discriminate].
    injection Hk as <-. split; [|reflexivity].
    rewrite Hidx, !length_app, length_fmap, length_seq, length_step_counts.
    reflexivity.
  - intros k Hk. unfold cell at 1. rewrite Hl, decide_True by assumption.
    simpl. rewrite lookup_app_r by (rewrite length_step_counts; lia).
    rewrite length_step_counts, Nat.sub_diag. simpl. do 2 f_equal.
    unfold step_counts. clear Hidx Hl Hf Hne.
    assert (Hgen : forall (pre rest : list (gmap nat Z)),
              series = pre ++ rest ->
              (fun d : gmap nat Z => default 0%Z (d !! k)) <$> rest
              = omap (fun t => cell f t k) (seq (length pre) (length rest))).
    { intros pre rest. revert pre.
      induction rest as [|d rest IH]; intros pre Hs; [reflexivity|].
      cbn [fmap list_fmap length seq omap list_omap].
      assert (Hc : cell f (length pre) k = Some (default 0%Z (d !! k))).
      { apply Hcell; [|exact Hk]. rewrite Hs. now apply list_lookup_middle. }
      rewrite Hc. cbn [default from_option]. f_equal. specialize (IH (pre ++ [d])).
      rewrite length_app, Nat.add_1_r in IH. apply IH.
      rewrite <- app_assoc. exact Hs. }
    exact (Hgen [] series eq_refl).
Qed.

(** A witness of C7: two steps with different key sets. *)
Lemma format_as_dataframe_normalizes_witness :
  exists f : Frame Z,
    format_as_dataframe [ {[0 := 1%Z]}; {[1 := 2%Z]} ] = Ok f /\
    frame_index f = [Step 0; Step 1; Totals] /\
    cell f 1 0 = Some 0%Z /\ cell f 2 1 = Some 2%Z.
Proof.
  destruct (format_as_dataframe_normalizes [ {[0 := 1%Z]}; {[1 := 2%Z]} ])
    as (f & Hf & Hidx & _).
  - vm_compute. discriminate.
  - exists f. split; [exact Hf|]. split; [exact Hidx|].
    vm_compute in Hf. injection Hf as <-. split; reflexivity.
Defined.










(** ** Argument checks *)

Section Validation.

Context {G : Type} {RS : RandomSource G} {RSL : RandomSourceLaws G}.

Lemma accuracy_in_range_dec (p : Q) :
  {(0 <= p)%Q /\ (p <= 1)%Q} + {~ ((0 <= p)%Q /\ (p <= 1)%Q)}.
Proof.
  destruct (Qlt_le_dec p 0) as [Hneg|H0].
  - right. intros [H0 _]. exact (Qlt_not_le _ _ Hneg H0).
  - destruct (Qlt_le_dec 1 p) as [Hbig|H1].
    + right. intros [_ H1]. exact (Qlt_not_le _ _ Hbig H1).
    + left. split; assumption.
Qed.

Lemma simulate_columns_ok (model_accuracies : list Q) (no_of_rewards : Z) :
  accuracies_ok model_accuracies -> (0 <= no_of_rewards)%Z ->
  forall g : G,
  exists (cols : list (list Z)) (g' : G),
    simulate_columns model_accuracies no_of_rewards g = Ok (cols, g') /\
    length cols = length model_accuracies /\
    Forall (fun c => length c = Z.to_nat no_of_rewards) cols.
Proof.
  intros Ha Hn. induction Ha as [|p rest [Hp0 Hp1] Hrest IH]; intros g.
  - exists [], g. simpl. auto.
  - destruct (binomial1_ok p no_of_rewards g Hp0 Hp1 Hn)
      as (col & g1 & Hcol & Hlen & _).
    destruct (IH g1) as (cols & g2 & Hcols & Hlens & Hall).
    exists (col :: cols), g2. simpl. rewrite Hcol. simpl. rewrite Hcols. simpl.
    split; [reflexivity|]. split; [now rewrite Hlens|]. now constructor.
Qed.

Lemma simulate_columns_cases (model_accuracies : list Q) (no_of_rewards : Z) :
  forall g : G,
    (exists r, simulate_columns model_accuracies no_of_rewards g = Ok r) \/
    simulate_columns model_accuracies no_of_rewards g = Raise ValueError.
Proof.
  induction model_accuracies as [|p rest IH]; intros g.
  - left. eexists. reflexivity.
  - simpl. destruct (Z_lt_le_dec no_of_rewards 0) as [Hneg|Hn].
    { right. now rewrite binomial1_bad_size. }
    destruct (accuracy_in_range_dec p) as [[Hp0 Hp1]|Hbad].
    + destruct (binomial1_ok p no_of_rewards g Hp0 Hp1 Hn)
        as (col & g1 & Hcol & _).
      rewrite Hcol. simpl.
      destruct (IH g1) as [[[cols g2] Hcols]|Hraise].
      * left. rewrite Hcols. simpl. eauto.
      * right. rewrite Hraise. reflexivity.
    + right. now rewrite binomial1_bad_p.
Qed.

Lemma simulate_columns_bad (model_accuracies : list Q) (no_of_rewards : Z) :
  model_accuracies <> [] ->
  (no_of_rewards < 0)%Z \/ ~ accuracies_ok model_accuracies ->
  forall g : G,
    simulate_columns model_accuracies no_of_rewards g = Raise ValueError.
Proof.
  induction model_accuracies as [|p rest IH]; intros Hne Hbad g; [congruence|].
  simpl. destruct (Z_lt_le_dec no_of_rewards 0) as [Hneg|Hn].
  { now rewrite binomial1_bad_size. }
  destruct (accuracy_in_range_dec p) as [[Hp0 Hp1]|Hp].
  - destruct (binomial1_ok p no_of_rewards g Hp0 Hp1 Hn)
      as (col & g1 & Hcol & _).
    rewrite Hcol. simpl.
    assert (Hrest : ~ accuracies_ok rest).
    { destruct Hbad as [Hneg|Hbad]; [lia|].
      intros Hrest. apply Hbad. constructor; [split|]; assumption. }
    rewrite IH; [reflexivity | | now right].
    intros ->. apply Hrest. constructor.
  - now rewrite binomial1_bad_p.
Qed.

Lemma create_simulated_reward_data_ok (model_accuracies : list Q)
    (no_of_rewards : Z) (g : G) :
  accuracies_ok model_accuracies -> (0 <= no_of_rewards)%Z ->
  exists (data : DataFrame) (g' : G),
    create_simulated_reward_data model_accuracies no_of_rewards g
      = Ok (data, g') /\
    length (columns data) = length model_accuracies /\
    rectangular data /\
    (model_accuracies <> [] -> index_len data = Z.to_nat no_of_rewards).
Proof.
  intros Ha Hn.
  destruct (simulate_columns_ok model_accuracies no_of_rewards Ha Hn g)
    as (cols & g' & Hcols & Hlen & Hall).
  exists (DataFrame_of_columns cols), g'.
  unfold create_simulated_reward_data. rewrite Hcols. simpl.
  split; [reflexivity|]. split; [exact Hlen|]. split.
  - unfold rectangular. simpl. destruct cols as [|c cols]; [constructor|].
    apply Forall_cons in Hall. destruct Hall as [Hc Hall].
    apply (Forall_impl (fun c' : list Z => length c' = Z.to_nat no_of_rewards)).
    + apply Forall_cons_2; assumption.
    + intros c' Hc'. simpl in *. congruence.
  - intros Hne. destruct cols as [|c cols].
    + destruct model_accuracies; [congruence | discriminate].
    + apply Forall_cons in Hall. now destruct Hall.
Qed.

Lemma select_bandit_short_state (models : list nat) (rewards penalties : list Z) :
  Forall (fun c => (0 <= c)%Z) rewards ->
  Forall (fun c => (0 <= c)%Z) penalties ->
  (exists i, i ∈ models /\ (rewards !! i = None \/ penalties !! i = None)) ->
  forall (bandit : nat) (beta_max : Q) (g : G),
    select_bandit models rewards penalties bandit beta_max g = Raise IndexError.
Proof.
  intros Hr Hp. induction models as [|i rest IH]; intros (j & Hj & Hmiss) b m g.
  - inversion Hj.
  - simpl. unfold getitem.
    destruct (rewards !! i) as [r|] eqn:Hri; [|reflexivity].
    destruct (penalties !! i) as [p|] eqn:Hpi; [|reflexivity].
    simpl.
    assert (Hr0 : (0 <= r)%Z).
    { rewrite Forall_lookup in Hr. exact (Hr i r Hri). }
    assert (Hp0 : (0 <= p)%Z).
    { rewrite Forall_lookup in Hp. exact (Hp i p Hpi). }
    destruct (betavariate_range (r + 1) (p + 1) g) as (x & g1 & Hdraw & _);
      [lia | lia |].
    rewrite Hdraw. simpl.
    assert (Hrest : exists i', i' ∈ rest /\
                      (rewards !! i' = None \/ penalties !! i' = None)).
    { exists j. split; [|exact Hmiss].
      apply elem_of_cons in Hj. destruct Hj as [->|Hj]; [|exact Hj].
      destruct Hmiss; congruence. }
    destruct (fgt x m); apply IH; exact Hrest.
Qed.

End Validation.

(** ** The time-series drivers *)

Section Drivers.

Context {G : Type} {RS : RandomSource G} {RSL : RandomSourceLaws G}.

(** The Thompson Sampling driver runs every step on a valid input: the
    state it threads keeps one non-negative counter per model, and the
    counts of every step sum to the number of rewards. *)
Lemma ts_time_series_loop_spec (model_accuracies : list Q) (no_of_rewards : Z) :
  accuracies_ok model_accuracies -> model_accuracies <> [] ->
  (0 <= no_of_rewards)%Z ->
  forall (steps : nat) (rewards penalties : list Z)
         (results_list : list (gmap nat Z)) (g : G),
    state_ok (length model_accuracies) rewards ->
    state_ok (length model_accuracies) penalties ->
    exists (new : list (gmap nat Z)) (g' : G),
      ts_time_series_loop steps model_accuracies no_of_rewards
                          rewards penalties results_list g
        = Ok (results_list ++ new, g') /\
      length new = steps /\
      Forall (fun counts => sum_values counts = no_of_rewards) new.
Proof.
  intros Ha Hne Hn. induction steps as [|steps IH];
    intros rewards penalties results_list g Hr Hp.
  - exists [], g. simpl. rewrite app_nil_r. auto.
  - destruct (create_simulated_reward_data_ok model_accuracies no_of_rewards g
                Ha Hn) as (data & g1 & Hdata & Hcols & Hrect & Hlen).
    specialize (Hlen Hne).
    assert (Hvalid : ts_valid data model_accuracies rewards penalties).
    { unfold ts_valid. rewrite Hcols. repeat split; try assumption;
        try apply Hr; try apply Hp.
      destruct model_accuracies; [congruence | simpl; lia]. }
    destruct (thompson_sampling_experiment_spec data model_accuracies
                rewards penalties g1 Hvalid)
      as (sel & r' & p' & g2 & Hexp & _ & Hsel & _ & Hr' & Hp' & _).
    rewrite Hcols in Hr', Hp'.
    destruct (IH r' p' (results_list ++ [Counter sel]) g2 Hr' Hp')
      as (new & g' & Hloop & Hnew & Hsum).
    exists (Counter sel :: new), g'. simpl.
    rewrite Hdata. simpl. rewrite Hexp. simpl.
    rewrite Hloop, <- app_assoc. simpl.
    split; [reflexivity|]. split; [now rewrite Hnew|].
    constructor; [|exact Hsum].
    rewrite Counter_sum, Hsel, Hlen. lia.
Qed.

Lemma generate_ts_time_series_spec (model_accuracies : list Q)
    (time_series_length : nat) (no_of_rewards : Z) (g : G) :
  accuracies_ok model_accuracies -> model_accuracies <> [] ->
  (0 <= no_of_rewards)%Z ->
  exists (results_list : list (gmap nat Z)) (g' : G),
    generate_ts_time_series model_accuracies time_series_length
                            no_of_rewards g
      = Ok (results_list, g') /\
    length results_list = time_series_length /\
    Forall (fun counts => sum_values counts = no_of_rewards) results_list.
Proof.
  intros Ha Hne Hn. unfold generate_ts_time_series.
  assert (Hzero : state_ok (length model_accuracies)
                    (replicate (length model_accuracies) 0%Z)).
  { split; [now rewrite length_replicate|].
    apply Forall_replicate. lia. }
  destruct (ts_time_series_loop_spec model_accuracies no_of_rewards Ha Hne Hn
              time_series_length _ _ [] g Hzero Hzero)
    as (new & g' & Hloop & Hlen & Hsum).
  exists new, g'. auto.
Qed.

Lemma control_time_series_loop_spec (model_accuracies : list Q)
    (no_of_rewards : Z) :
  accuracies_ok model_accuracies -> model_accuracies <> [] ->
  (0 <= no_of_rewards < 2 ^ 51)%Z ->
  forall (steps : nat) (results_list : list (gmap nat Z)) (g : G),
    exists (new : list (gmap nat Z)) (g' : G),
      control_time_series_loop steps model_accuracies no_of_rewards
                               results_list g
        = Ok (results_list ++ new, g') /\
      length new = steps /\
      Forall (fun counts => sum_values counts = no_of_rewards) new.
Proof.
  intros Ha Hne Hn. induction steps as [|steps IH]; intros results_list g.
  - exists [], g. simpl. rewrite app_nil_r. auto.
  - destruct (create_simulated_reward_data_ok model_accuracies no_of_rewards g
                Ha) as (data & g1 & Hdata & Hcols & Hrect & Hlen); [lia|].
    specialize (Hlen Hne).
    destruct (control_experiment_spec data model_accuracies)
      as (m & Hm & Hsum & _).
    { destruct model_accuracies; [congruence | simpl; lia]. }
    { rewrite Hlen. lia. }
    destruct (IH (results_list ++ [m]) g1) as (new & g' & Hloop & Hnew & Hall).
    exists (m :: new), g'. simpl. rewrite Hdata. simpl. rewrite Hm. simpl.
    rewrite Hloop, <- app_assoc. simpl.
    split; [reflexivity|]. split; [now rewrite Hnew|].
    constructor; [|exact Hall]. rewrite Hsum, Hlen. lia.
Qed.

Lemma generate_control_time_series_spec (model_accuracies : list Q)
    (time_series_length : nat) (no_of_rewards : Z) (g : G) :
  accuracies_ok model_accuracies -> model_accuracies <> [] ->
  (0 <= no_of_rewards < 2 ^ 51)%Z ->
  exists (results_list : list (gmap nat Z)) (g' : G),
    generate_control_time_series model_accuracies time_series_length
                                 no_of_rewards g
      = Ok (results_list, g') /\
    length results_list = time_series_length /\
    Forall (fun counts => sum_values counts = no_of_rewards) results_list.
Proof.
  intros Ha Hne Hn. unfold generate_control_time_series.
  destruct (control_time_series_loop_spec model_accuracies no_of_rewards
              Ha Hne Hn time_series_length [] g)
    as (new & g' & Hloop & Hlen & Hsum).
  exists new, g'. auto.
Qed.

End Drivers.

Section AllocatorContracts.

Context {G : Type} {RS : RandomSource G} {RSL : RandomSourceLaws G}.


(** C6, as the code has it. The reward generator checks nothing itself
    and never raises [InvalidParameterError]: accuracies within [[0,1]]
    and a batch size of 0 or more (0 included) give a batch, a negative
    batch size or an accuracy outside [[0,1]] is refused by the binomial
    sampler with [ValueError] when there is a model to sample. The
    Thompson Sampling allocator fails at once with [AssertionError] when
    the batch has not as many columns as there are accuracies; it does not
    compare the number of state entries with the number of models: a state
    with more entries is accepted, one with fewer entries fails with
    [IndexError] when the first row reads it. *)
Theorem validation_as_implemented :
  (forall (model_accuracies : list Q) (no_of_rewards : Z) (g : G),
     accuracies_ok model_accuracies -> (0 <= no_of_rewards)%Z ->
     exists (data : DataFrame) (g' : G),
       create_simulated_reward_data model_accuracies no_of_rewards g
         = Ok (data, g') /\
       length (columns data) = length model_accuracies /\
       rectangular data /\
       (model_accuracies <> [] -> index_len data = Z.to_nat no_of_rewards)) /\
  (forall (model_accuracies : list Q) (no_of_rewards : Z) (g : G),
     model_accuracies <> [] ->
     (no_of_rewards < 0)%Z \/ ~ accuracies_ok model_accuracies ->
     create_simulated_reward_data model_accuracies no_of_rewards g
       = Raise ValueError) /\
  (forall (model_accuracies : list Q) (no_of_rewards : Z) (g : G),
     create_simulated_reward_data model_accuracies no_of_rewards g
       <> Raise InvalidParameterError) /\
  (forall (data : DataFrame) (model_accuracies : list Q)
          (rewards penalties : list Z) (g : G),
     length (columns data) <> length model_accuracies ->
     thompson_sampling_experiment data model_accuracies rewards penalties g
       = Raise AssertionError) /\
  (forall (data : DataFrame) (model_accuracies : list Q)
          (rewards penalties : list Z) (g : G),
     ts_valid data model_accuracies rewards penalties ->
     exists result,
       thompson_sampling_experiment data model_accuracies rewards penalties g
         = Ok result) /\
  (forall (data : DataFrame) (model_accuracies : list Q)
          (rewards penalties : list Z) (g : G),
     length (columns data) = length model_accuracies ->
     1 <= index_len data ->
     Forall (fun c => (0 <= c)%Z) rewards ->
     Forall (fun c => (0 <= c)%Z) penalties ->
     length rewards < length (columns data)
       \/ length penalties < length (columns data) ->
     thompson_sampling_experiment data model_accuracies rewards penalties g
       = Raise IndexError).
Proof.
  repeat split.
  - intros accs n g Ha Hn.
    exact (create_simulated_reward_data_ok accs n g Ha Hn).
  - intros accs n g Hne Hbad. unfold create_simulated_reward_data.
    now rewrite (simulate_columns_bad accs n Hne Hbad g).
  - intros accs n g. unfold create_simulated_reward_data.
    destruct (simulate_columns_cases accs n g) as [[[cols g'] Hok]|Hraise].
    + rewrite Hok. discriminate.
    + rewrite Hraise. discriminate.
  - intros data accs r p g Hne. unfold thompson_sampling_experiment.
    now rewrite decide_False by assumption.
  - intros data accs r p g Hvalid.
    destruct (thompson_sampling_experiment_spec data accs r p g Hvalid)
      as (sel & r' & p' & g' & Hexp & _).
    eauto.
  - intros data accs r p g Hacc Hrows Hr Hp Hshort.
    unfold thompson_sampling_experiment.
    rewrite decide_True by assumption.
    destruct (index_len data) as [|B]; [lia|].
    cbn [seq ts_rows]. unfold ts_row.
    rewrite (select_bandit_short_state _ r p Hr Hp); [reflexivity|].
    destruct Hshort as [Hs|Hs].
    + exists (length r). split; [apply elem_of_seq; lia|].
      left. apply lookup_ge_None. lia.
    + exists (length p). split; [apply elem_of_seq; lia|].
      right. apply lookup_ge_None. lia.
Qed.

End AllocatorContracts.

(** ** The statements on concrete inputs *)

Lemma example_ts_valid :
  ts_valid example_batch [1 # 2; 9 # 10]%Q [0%Z; 0%Z] [0%Z; 0%Z].
Proof.
  unfold ts_valid, state_ok, rectangular. simpl.
  repeat split; try lia; repeat constructor; lia.
Qed.



(** A witness of C2. *)
Lemma thompson_selection_count_conservation_witness :
  exists (model_selected : list nat) (rewards' penalties' : list Z)
         (g' : list Q),
    thompson_sampling_experiment example_batch [1 # 2; 9 # 10]%Q
                                 [0%Z; 0%Z] [0%Z; 0%Z] example_tape
      = Ok (Counter model_selected, rewards', penalties', g') /\
    length model_selected = 3 /\
    forall i,
      (counter_total rewards' penalties' i
       - counter_total [0%Z; 0%Z] [0%Z; 0%Z] i
       = times_selected model_selected i)%Z.
Proof.
  destruct (thompson_selection_count_conservation example_batch
              [1 # 2; 9 # 10]%Q [0%Z; 0%Z] [0%Z; 0%Z] example_tape
              example_ts_valid)
    as [(sel & r' & p' & g' & Hexp & _ & Hlen & Htot) _].
  exists sel, r', p', g'. split; [exact Hexp|]. split; [exact Hlen|].
  intros i. exact (proj1 (Htot i)).
Defined.

(** A witness of C3. *)
Lemma thompson_counts_sum_to_batch_size_witness :
  exists (count_of_model_selected : gmap nat Z) (rewards' penalties' : list Z)
         (g' : list Q),
    thompson_sampling_experiment example_batch [1 # 2; 9 # 10]%Q
                                 [0%Z; 0%Z] [0%Z; 0%Z] example_tape
      = Ok (count_of_model_selected, rewards', penalties', g') /\
    sum_values count_of_model_selected = 3%Z.
Proof.
  exact (thompson_counts_sum_to_batch_size example_batch
           [1 # 2; 9 # 10]%Q [0%Z; 0%Z] [0%Z; 0%Z] example_tape
           example_ts_valid).
Defined.

(** A witness of C4: 49 rows over 49 models, where
    [49 * (1 / 49)] rounds to a float below 1 and every key is
    incremented. *)
Lemma control_even_split_witness :
  exists m : gmap nat Z,
    control_experiment (DataFrame_of_columns [replicate 49 1%Z])
                       (replicate 49 (1 # 2)%Q) = Ok m /\
    m !! 48 = Some 1%Z /\
    sum_values m = 49%Z.
Proof.
  destruct (control_even_split (DataFrame_of_columns [replicate 49 1%Z])
              (replicate 49 (1 # 2)%Q))
    as (m & Hm & Hin & _ & _ & Hsum & _).
  - rewrite length_replicate. lia.
  - vm_compute. reflexivity.
  - exists m. split; [exact Hm|]. split; [|exact Hsum].
    rewrite Hin by (rewrite length_replicate; lia). reflexivity.
Defined.



(** The counterexample of C6: a batch size of 0 gives an empty batch, and
    a state of three entries is accepted for a batch over two models. *)
Lemma validation_counterexample :
  (0 < 1)%Z /\
  create_simulated_reward_data [1 # 2; 9 # 10]%Q 0 example_tape
    = Ok ({| index_len := 0; columns := [[]; []] |}, example_tape) /\
  length (columns example_batch) <> length [0%Z; 0%Z; 0%Z] /\
  thompson_sampling_experiment example_batch [1 # 2; 9 # 10]%Q
                               [0%Z; 0%Z; 0%Z] [0%Z; 0%Z; 0%Z] example_tape
    = Ok ({[0 := 2%Z; 1 := 1%Z]}, [2%Z; 1%Z; 0%Z], [0%Z; 0%Z; 0%Z], []).
Proof.
  split; [lia|]. split; [vm_compute; reflexivity|].
  split; [simpl; lia|]. vm_compute. reflexivity.
Qed.

(** A witness of C6 as amended. *)
Lemma validation_as_implemented_witness :
  (exists (data : DataFrame) (g' : list Q),
     create_simulated_reward_data [1 # 2; 9 # 10]%Q 0 example_tape
       = Ok (data, g') /\ index_len data = 0) /\
  create_simulated_reward_data [1 # 2; 3 # 2]%Q 5 example_tape
    = Raise ValueError /\
  thompson_sampling_experiment example_batch [1 # 2]%Q
                               [0%Z; 0%Z] [0%Z; 0%Z] example_tape
    = Raise AssertionError /\
  thompson_sampling_experiment example_batch [1 # 2; 9 # 10]%Q
                               [0%Z] [0%Z; 0%Z] example_tape
    = Raise IndexError.
Proof.
  destruct (validation_as_implemented (G := list Q))
    as (Hgen & Hbad & _ & Hassert & _ & Hshort).
  split; [|split; [|split]].
  - destruct (Hgen [1 # 2; 9 # 10]%Q 0%Z example_tape)
      as (data & g' & Hdata & _ & _ & Hlen).
    + unfold accuracies_ok. repeat constructor; discriminate.
    + lia.
    + exists data, g'. split; [exact Hdata|]. now apply Hlen.
  - apply Hbad; [discriminate|]. right. unfold accuracies_ok. intros Ha.
    apply Forall_cons in Ha. destruct Ha as [_ Ha].
    apply Forall_cons in Ha. destruct Ha as [[_ Ha] _].
    now apply Ha.
  - apply Hassert. simpl. lia.
  - apply Hshort.
    + reflexivity.
    + simpl. lia.
    + repeat constructor. lia.
    + repeat constructor; lia.
    + left. simpl. lia.
Defined.

(** * Further properties of the code *)

(** ** The state of the Thompson Sampling allocator *)

Section ThompsonState.

Context {G : Type} {RS : RandomSource G} {RSL : RandomSourceLaws G}.

(** What one row does to the state, entry by entry. *)
Lemma ts_row_effect (data : DataFrame) (N n : nat) (rewards penalties : list Z)
    (g : G) (bandit : nat) (rewards1 penalties1 : list Z) (g1 : G) :
  rectangular data -> N = length (columns data) -> 1 <= N ->
  n < index_len data -> state_ok N rewards -> state_ok N penalties ->
  ts_row data N n rewards penalties g = Ok (bandit, rewards1, penalties1, g1) ->
  bandit < N /\
  state_ok N rewards1 /\ state_ok N penalties1 /\
  length rewards1 = length rewards /\ length penalties1 = length penalties /\
  exists reward,
    values_at data n bandit = Ok reward /\
    ((reward = 1%Z /\ penalties1 = penalties /\
      rewards1 = <[bandit := (default 0 (rewards !! bandit) + 1)%Z]> rewards) \/
     (reward <> 1%Z /\ rewards1 = rewards /\
      penalties1
      = <[bandit := (default 0 (penalties !! bandit) + 1)%Z]> penalties)).
Proof.
  intros Hrect HN H1 Hn Hr Hp Hrow.
  destruct (ts_row_spec data N n rewards penalties g Hrect HN H1 Hn Hr Hp)
    as (b & reward & r1 & p1 & g1' & Hrow' & Hb & _ & Hval & Hobs).
  rewrite Hrow in Hrow'. injection Hrow' as -> -> -> ->.
  destruct (observe_spec reward b N rewards penalties Hb Hr Hp)
    as (r1' & p1' & Hobs' & Hr1 & Hp1 & Hlr & Hlp & Hcase).
  rewrite Hobs in Hobs'. injection Hobs' as <- <-.
  repeat split; try assumption; try apply Hr1; try apply Hp1.
  exists reward. auto.
Qed.

Lemma ts_rows_state (data : DataFrame) (N : nat) (rows : list nat) :
  rectangular data -> N = length (columns data) -> 1 <= N ->
  Forall (fun n => n < index_len data) rows ->
  forall (model_selected : list nat) (rewards penalties : list Z) (g : G)
         (model_selected' : list nat) (rewards' penalties' : list Z) (g' : G),
    state_ok N rewards -> state_ok N penalties ->
    ts_rows data N rows model_selected rewards penalties g
      = Ok (model_selected', rewards', penalties', g') ->
    forall i,
      (default 0 (rewards !! i) <= default 0 (rewards' !! i))%Z /\
      (default 0 (penalties !! i) <= default 0 (penalties' !! i))%Z /\
      (N <= i -> rewards' !! i = rewards !! i /\
                 penalties' !! i = penalties !! i) /\
      (forall col, columns data !! i = Some col ->
         Forall (fun v => v = 1%Z) col -> penalties' !! i = penalties !! i) /\
      (forall col, columns data !! i = Some col ->
         Forall (fun v => v <> 1%Z) col -> rewards' !! i = rewards !! i).
Proof.
  intros Hrect HN H1. induction rows as [|n rest IH];
    intros Hrows sel rewards penalties g sel' r' p' g' Hr Hp Hrun i.
  - simpl in Hrun. injection Hrun as _ <- <- _.
    repeat split; auto; lia.
  - apply Forall_cons in Hrows. destruct Hrows as [Hn Hrest].
    simpl in Hrun.
    destruct (ts_row data N n rewards penalties g)
      as [[[[b r1] p1] g1]|] eqn:Hrow; [|discriminate].
    simpl in Hrun.
    destruct (ts_row_effect data N n rewards penalties g b r1 p1 g1
                Hrect HN H1 Hn Hr Hp Hrow)
      as (Hb & Hr1 & Hp1 & Hlr & Hlp & reward & Hval & Hcase).
    destruct (IH Hrest _ r1 p1 g1 sel' r' p' g' Hr1 Hp1 Hrun i)
      as (IHr & IHp & IHout & IHones & IHnone).
    destruct Hr as [Hlenr _], Hp as [Hlenp _].
    assert (Hstep :
      (default 0 (rewards !! i) <= default 0 (r1 !! i))%Z /\
      (default 0 (penalties !! i) <= default 0 (p1 !! i))%Z /\
      (b <> i -> r1 !! i = rewards !! i /\ p1 !! i = penalties !! i) /\
      (reward = 1%Z -> p1 = penalties) /\
      (reward <> 1%Z -> r1 = rewards)).
    { destruct Hcase as [(Hone & -> & ->) | (Hone & -> & ->)].
      - split; [|split; [lia|split; [|split; congruence]]].
        + destruct (decide (b = i)) as [->|Hne].
          * rewrite list_lookup_insert_eq by lia. simpl. lia.
          * rewrite list_lookup_insert_ne by assumption. lia.
        + intros Hne. now rewrite list_lookup_insert_ne by assumption.
      - split; [lia|split; [|split; [|split; congruence]]].
        + destruct (decide (b = i)) as [->|Hne].
          * rewrite list_lookup_insert_eq by lia. simpl. lia.
          * rewrite list_lookup_insert_ne by assumption. lia.
        + intros Hne. now rewrite list_lookup_insert_ne by assumption. }
    destruct Hstep as (Sr & Sp & Sne & Sone & Snone).
    split; [lia|]. split; [lia|]. split; [|split].
    + intros Hi. destruct (IHout Hi) as [-> ->]. apply Sne. lia.
    + intros col Hcol Hones. rewrite (IHones col Hcol Hones).
      destruct (decide (b = i)) as [->|Hne]; [|now apply Sne].
      rewrite Sone; [reflexivity|].
      unfold values_at, getitem in Hval.
      destruct (decide (n < index_len data)); [|discriminate].
      rewrite Hcol in Hval. simpl in Hval.
      destruct (col !! n) as [v|] eqn:Hv; [|discriminate].
      injection Hval as <-. rewrite Forall_lookup in Hones.
      exact (Hones n v Hv).
    + intros col Hcol Hnone. rewrite (IHnone col Hcol Hnone).
      destruct (decide (b = i)) as [->|Hne]; [|now apply Sne].
      rewrite Snone; [reflexivity|].
      unfold values_at, getitem in Hval.
      destruct (decide (n < index_len data)); [|discriminate].
      rewrite Hcol in Hval. simpl in Hval.
      destruct (col !! n) as [v|] eqn:Hv; [|discriminate].
      injection Hval as <-. rewrite Forall_lookup in Hnone.
      exact (Hnone n v Hv).
Qed.

(** X4. A step of the Thompson Sampling allocator keeps the length of both
    counter lists, never decreases a counter, and leaves the entries beyond
    the models of the batch as they were. *)
Theorem thompson_counters_never_decrease (data : DataFrame)
    (model_accuracies : list Q) (rewards penalties : list Z) (g : G) :
  ts_valid data model_accuracies rewards penalties ->
  exists (counts : gmap nat Z) (rewards' penalties' : list Z) (g' : G),
    thompson_sampling_experiment data model_accuracies rewards penalties g
      = Ok (counts, rewards', penalties', g') /\
    length rewards' = length rewards /\
    length penalties' = length penalties /\
    forall i,
      (default 0 (rewards !! i) <= default 0 (rewards' !! i))%Z /\
      (default 0 (penalties !! i) <= default 0 (penalties' !! i))%Z /\
      (length (columns data) <= i ->
       rewards' !! i = rewards !! i /\ penalties' !! i = penalties !! i).
Proof.
  intros (Hrect & Hacc & H1 & Hr & Hp).
  assert (Hrows : Forall (fun n => n < index_len data) (seq 0 (index_len data))).
  { apply Forall_forall. intros n Hn. apply elem_of_seq in Hn. lia. }
  destruct (ts_rows_spec data _ (seq 0 (index_len data)) Hrect eq_refl H1 Hrows
              [] rewards penalties g Hr Hp)
    as (sel & r' & p' & g' & Hrun & _ & _ & _ & _ & Hlr & Hlp & _).
  exists (Counter sel), r', p', g'.
  unfold thompson_sampling_experiment. rewrite decide_True by assumption.
  rewrite Hrun. simpl. split; [reflexivity|]. split; [exact Hlr|].
  split; [exact Hlp|]. intros i.
  destruct (ts_rows_state data _ (seq 0 (index_len data)) Hrect eq_refl H1 Hrows
              [] rewards penalties g _ r' p' g' Hr Hp Hrun i)
    as (H2 & H3 & H4 & _).
  auto.
Qed.

(** X5. The reward cells decide which counter a selection moves: a model
    whose column of the batch holds only 1 gets every selection of the
    step as a reward and no penalty, and a model whose column holds no 1
    gets every selection as a penalty and no reward. *)
Theorem thompson_column_decides_counter (data : DataFrame)
    (model_accuracies : list Q) (rewards penalties : list Z) (g : G)
    (i : nat) (col : list Z) :
  ts_valid data model_accuracies rewards penalties ->
  columns data !! i = Some col ->
  exists (counts : gmap nat Z) (rewards' penalties' : list Z) (g' : G),
    thompson_sampling_experiment data model_accuracies rewards penalties g
      = Ok (counts, rewards', penalties', g') /\
    (Forall (fun v => v = 1%Z) col ->
     penalties' !! i = penalties !! i /\
     default 0%Z (rewards' !! i)
     = (default 0 (rewards !! i) + default 0 (counts !! i))%Z) /\
    (Forall (fun v => v <> 1%Z) col ->
     rewards' !! i = rewards !! i /\
     default 0%Z (penalties' !! i)
     = (default 0 (penalties !! i) + default 0 (counts !! i))%Z).
Proof.
  intros Hvalid Hcol.
  destruct (thompson_sampling_experiment_spec data model_accuracies
              rewards penalties g Hvalid)
    as (sel & r' & p' & g' & Hexp & Hrun & _ & _ & _ & _ & Htot).
  destruct Hvalid as (Hrect & Hacc & H1 & Hr & Hp).
  assert (Hrows : Forall (fun n => n < index_len data) (seq 0 (index_len data))).
  { apply Forall_forall. intros n Hn. apply elem_of_seq in Hn. lia. }
  destruct (ts_rows_state data _ (seq 0 (index_len data)) Hrect eq_refl H1 Hrows
              [] rewards penalties g _ r' p' g' Hr Hp Hrun i)
    as (_ & _ & _ & Hones & Hnone).
  exists (Counter sel), r', p', g'. split; [exact Hexp|].
  specialize (Htot i). rewrite <- Counter_lookup in Htot.
  unfold counter_total in Htot. split.
  - intros Hall. specialize (Hones col Hcol Hall). split; [exact Hones|].
    rewrite Hones in Htot. lia.
  - intros Hall. specialize (Hnone col Hcol Hall). split; [exact Hnone|].
    rewrite Hnone in Htot. lia.
Qed.

End ThompsonState.

(** ** The reward generator and the drivers *)

Section DriverProperties.

Context {G : Type} {RS : RandomSource G} {RSL : RandomSourceLaws G}.

Lemma simulate_columns_binary (model_accuracies : list Q) (no_of_rewards : Z) :
  accuracies_ok model_accuracies -> (0 <= no_of_rewards)%Z ->
  forall g : G,
  exists (cols : list (list Z)) (g' : G),
    simulate_columns model_accuracies no_of_rewards g = Ok (cols, g') /\
    length cols = length model_accuracies /\
    Forall (fun c => length c = Z.to_nat no_of_rewards /\
                     Forall (fun x => x = 0%Z \/ x = 1%Z) c) cols.
Proof.
  intros Ha Hn. induction Ha as [|p rest [Hp0 Hp1] Hrest IH]; intros g.
  - exists [], g. simpl. auto.
  - destruct (binomial1_ok p no_of_rewards g Hp0 Hp1 Hn)
      as (col & g1 & Hcol & Hlen & Hbin).
    destruct (IH g1) as (cols & g2 & Hcols & Hlens & Hall).
    exists (col :: cols), g2. simpl. rewrite Hcol. simpl. rewrite Hcols. simpl.
    split; [reflexivity|]. split; [now rewrite Hlens|]. now constructor.
Qed.

(** X3. For accuracies within [[0,1]] and a batch size of 0 or more the
    reward generator returns a batch with one column per accuracy whose
    cells, read at any row below the batch size and any model, are 0 or 1. *)
Theorem simulated_rewards_are_binary (model_accuracies : list Q)
    (no_of_rewards : Z) (g : G) :
  accuracies_ok model_accuracies -> (0 <= no_of_rewards)%Z ->
  exists (data : DataFrame) (g' : G),
    create_simulated_reward_data model_accuracies no_of_rewards g
      = Ok (data, g') /\
    length (columns data) = length model_accuracies /\
    forall (n b : nat),
      n < Z.to_nat no_of_rewards -> b < length model_accuracies ->
      exists v, values_at data n b = Ok v /\ (v = 0%Z \/ v = 1%Z).
Proof.
  intros Ha Hn.
  destruct (simulate_columns_binary model_accuracies no_of_rewards Ha Hn g)
    as (cols & g' & Hcols & Hlen & Hall).
  exists (DataFrame_of_columns cols), g'.
  unfold create_simulated_reward_data. rewrite Hcols. simpl.
  split; [reflexivity|]. split; [exact Hlen|].
  intros n b Hrow Hb. unfold values_at, getitem. simpl.
  destruct (lookup_lt_is_Some_2 cols b) as [c Hc]; [lia|].
  rewrite Forall_lookup in Hall.
  destruct (Hall b c Hc) as [Hclen Hcbin].
  assert (Hidx : match cols with [] => 0 | c0 :: _ => length c0 end
                 = Z.to_nat no_of_rewards).
  { destruct cols as [|c0 cols']; [simpl in Hlen; lia|].
    now destruct (Hall 0 c0 eq_refl). }
  rewrite Hidx. rewrite decide_True by assumption.
  rewrite Hc. simpl.
  destruct (lookup_lt_is_Some_2 c n) as [v Hv]; [lia|].
  rewrite Hv. exists v. split; [reflexivity|].
  rewrite Forall_lookup in Hcbin. exact (Hcbin n v Hv).
Qed.

Lemma ts_time_series_loop_keys (model_accuracies : list Q) (no_of_rewards : Z) :
  accuracies_ok model_accuracies -> model_accuracies <> [] ->
  (0 <= no_of_rewards)%Z ->
  forall (steps : nat) (rewards penalties : list Z)
         (results_list : list (gmap nat Z)) (g : G),
    state_ok (length model_accuracies) rewards ->
    state_ok (length model_accuracies) penalties ->
    exists (new : list (gmap nat Z)) (g' : G),
      ts_time_series_loop steps model_accuracies no_of_rewards
                          rewards penalties results_list g
        = Ok (results_list ++ new, g') /\
      length new = steps /\
      Forall (fun counts : gmap nat Z =>
                sum_values counts = no_of_rewards /\
                dom counts ⊆ set_seq 0 (length model_accuracies) /\
                map_Forall (fun _ v => (1 <= v)%Z) counts) new.
Proof.
  intros Ha Hne Hn. induction steps as [|steps IH];
    intros rewards penalties results_list g Hr Hp.
  - exists [], g. simpl. rewrite app_nil_r. auto.
  - destruct (create_simulated_reward_data_ok model_accuracies no_of_rewards g
                Ha Hn) as (data & g1 & Hdata & Hcols & Hrect & Hlen).
    specialize (Hlen Hne).
    assert (Hvalid : ts_valid data model_accuracies rewards penalties).
    { unfold ts_valid. rewrite Hcols. repeat split; try assumption;
        try apply Hr; try apply Hp.
      destruct model_accuracies; [congruence | simpl; lia]. }
    destruct (thompson_sampling_experiment_spec data model_accuracies
                rewards penalties g1 Hvalid)
      as (sel & r' & p' & g2 & Hexp & _ & Hsel & Hin & Hr' & Hp' & _).
    rewrite Hcols in Hr', Hp', Hin.
    destruct (IH r' p' (results_list ++ [Counter sel]) g2 Hr' Hp')
      as (new & g' & Hloop & Hnew & Hsum).
    exists (Counter sel :: new), g'. simpl.
    rewrite Hdata. simpl. rewrite Hexp. simpl.
    rewrite Hloop, <- app_assoc. simpl.
    split; [reflexivity|]. split; [now rewrite Hnew|].
    constructor; [|exact Hsum]. split; [|split].
    + rewrite Counter_sum, Hsel, Hlen. lia.
    + intros i Hi. rewrite Counter_dom, elem_of_list_to_set in Hi.
      rewrite Forall_forall in Hin. apply Hin in Hi.
      apply elem_of_set_seq. lia.
    + intros i v Hi. exact (Counter_pos sel i v Hi).
Qed.

(** X1. For accuracies within [[0,1]], one model at least and a number of
    rewards of 0 or more, the Thompson Sampling driver returns one dict per
    time step; the counts of each step sum to the number of rewards, its
    keys are model indices, and no count is below 1. *)
Theorem ts_time_series_steps (model_accuracies : list Q)
    (time_series_length : nat) (no_of_rewards : Z) (g : G) :
  accuracies_ok model_accuracies -> model_accuracies <> [] ->
  (0 <= no_of_rewards)%Z ->
  exists (results_list : list (gmap nat Z)) (g' : G),
    generate_ts_time_series model_accuracies time_series_length
                            no_of_rewards g
      = Ok (results_list, g') /\
    length results_list = time_series_length /\
    Forall (fun counts : gmap nat Z =>
              sum_values counts = no_of_rewards /\
              dom counts ⊆ set_seq 0 (length model_accuracies) /\
              map_Forall (fun _ v => (1 <= v)%Z) counts) results_list.
Proof.
  intros Ha Hne Hn. unfold generate_ts_time_series.
  assert (Hzero : state_ok (length model_accuracies)
                    (replicate (length model_accuracies) 0%Z)).
  { split; [now rewrite length_replicate|].
    apply Forall_replicate. lia. }
  destruct (ts_time_series_loop_keys model_accuracies no_of_rewards Ha Hne Hn
              time_series_length _ _ [] g Hzero Hzero)
    as (new & g' & Hloop & Hlen & Hsum).
  exists new, g'. auto.
Qed.

Lemma control_time_series_loop_constant (model_accuracies : list Q)
    (no_of_rewards : Z) (m : gmap nat Z) :
  accuracies_ok model_accuracies -> model_accuracies <> [] ->
  (0 <= no_of_rewards < 2 ^ 51)%Z ->
  (forall i, m !! i
             = if decide (i < length model_accuracies)
               then Some (even_split no_of_rewards
                            (Z.of_nat (length model_accuracies)) i)
               else None) ->
  forall (steps : nat) (results_list : list (gmap nat Z)) (g : G),
    exists g' : G,
      control_time_series_loop steps model_accuracies no_of_rewards
                               results_list g
        = Ok (results_list ++ replicate steps m, g').
Proof.
  intros Ha Hne Hn Hm. induction steps as [|steps IH]; intros results_list g.
  - exists g. simpl. now rewrite app_nil_r.
  - destruct (create_simulated_reward_data_ok model_accuracies no_of_rewards g
                Ha) as (data & g1 & Hdata & Hcols & Hrect & Hlen); [lia|].
    specialize (Hlen Hne).
    destruct (control_experiment_spec data model_accuracies)
      as (m' & Hm' & _ & Hl).
    { destruct model_accuracies; [congruence | simpl; lia]. }
    { rewrite Hlen. lia. }
    assert (m' = m) as ->.
    { apply map_eq. intros i. rewrite Hl, Hm, Hlen.
      rewrite Z2Nat.id by lia. reflexivity. }
    destruct (IH (results_list ++ [m]) g1) as (g' & Hloop).
    exists g'. simpl. rewrite Hdata. simpl. rewrite Hm'. simpl.
    rewrite Hloop, <- app_assoc. reflexivity.
Qed.

(** X2. For accuracies within [[0,1]], one model at least and a number of
    rewards in [[0, 2^51)], the control driver returns the same dict at
    every time step: the even split of the rewards over the models. *)
Theorem control_time_series_constant (model_accuracies : list Q)
    (time_series_length : nat) (no_of_rewards : Z) (g : G) :
  accuracies_ok model_accuracies -> model_accuracies <> [] ->
  (0 <= no_of_rewards < 2 ^ 51)%Z ->
  exists (m : gmap nat Z) (g' : G),
    generate_control_time_series model_accuracies time_series_length
                                 no_of_rewards g
      = Ok (replicate time_series_length m, g') /\
    dom m = set_seq 0 (length model_accuracies) /\
    forall i, i < length model_accuracies ->
      m !! i = Some (even_split no_of_rewards
                       (Z.of_nat (length model_accuracies)) i).
Proof.
  intros Ha Hne Hn.
  set (N := length model_accuracies).
  pose (m0 := (map_imap (fun i _ => Some (even_split no_of_rewards (Z.of_nat N) i))
                        (fill 0%Z N) : gmap nat Z)).
  assert (Hm0 : forall i, m0 !! i
            = if decide (i < N)
              then Some (even_split no_of_rewards (Z.of_nat N) i) else None).
  { intros i. unfold m0. rewrite map_lookup_imap, fill_lookup.
    destruct (decide (i < N)); reflexivity. }
  destruct (control_time_series_loop_constant model_accuracies no_of_rewards m0
              Ha Hne Hn Hm0 time_series_length [] g) as (g' & Hloop).
  exists m0, g'. unfold generate_control_time_series. split; [exact Hloop|].
  split.
  - apply set_eq. intros i. rewrite elem_of_dom, elem_of_set_seq, Hm0.
    fold N. destruct (decide (i < N)) as [Hi|Hi]; split.
    + intros _. lia.
    + intros _. eexists. reflexivity.
    + intros [? Hx]. discriminate.
    + intros Hx. lia.
  - intros i Hi. rewrite Hm0. now rewrite decide_True by exact Hi.
Qed.

End DriverProperties.

(** ** When the control allocator raises *)

(** X6. The control allocator raises only for an empty list of
    accuracies, and then [ZeroDivisionError]: with a model at least (and
    fewer than [2^51] rows) no key of [range(diff)] is ever missing. *)
Theorem control_experiment_raises_only_without_models (data : DataFrame)
    (model_accuracies : list Q) (e : exn) :
  (Z.of_nat (index_len data) < 2 ^ 51)%Z ->
  control_experiment data model_accuracies = Raise e <->
  model_accuracies = [] /\ e = ZeroDivisionError.
Proof.
  intros HB. split.
  - intros Hraise. destruct model_accuracies as [|a accs].
    + unfold control_experiment, int_truediv in Hraise. simpl in Hraise.
      injection Hraise as <-. auto.
    + destruct (control_experiment_spec data (a :: accs)) as (m & Hm & _);
        [simpl; lia | exact HB |].
      rewrite Hm in Hraise. discriminate.
  - intros [-> ->]. reflexivity.
Qed.

(** ** Sums over rows and columns *)

Lemma sum_list_Z_app (l1 l2 : list Z) :
  sum_list_Z (l1 ++ l2) = (sum_list_Z l1 + sum_list_Z l2)%Z.
Proof. unfold sum_list_Z. induction l1 as [|x l1 IH]; csimpl in *; lia. Qed.

Lemma sum_list_Z_fmap_add {A : Type} (a b : A -> Z) (l : list A) :
  sum_list_Z ((fun t => a t + b t)%Z <$> l)
  = (sum_list_Z (a <$> l) + sum_list_Z (b <$> l))%Z.
Proof. unfold sum_list_Z. induction l as [|x l IH]; csimpl in *; lia. Qed.

Lemma sum_list_Z_fmap_zero {A : Type} (l : list A) :
  sum_list_Z ((fun _ => 0%Z) <$> l) = 0%Z.
Proof. unfold sum_list_Z. induction l as [|x l IH]; csimpl in *; lia. Qed.

Lemma sum_list_Z_lookups (col : list Z) :
  sum_list_Z ((fun t => default 0%Z (col !! t)) <$> seq 0 (length col))
  = sum_list_Z col.
Proof.
  induction col as [|x col IH] using rev_ind; [reflexivity|].
  rewrite length_app, Nat.add_1_r, seq_S, fmap_app, !sum_list_Z_app. simpl.
  rewrite list_lookup_middle by reflexivity. simpl. f_equal.
  rewrite <- IH. f_equal. apply list_fmap_ext. intros i t Ht.
  apply lookup_seq in Ht. destruct Ht as [-> Ht].
  now rewrite lookup_app_l by lia.
Qed.

(** The sum of a dict that is [d] on its keys and 0 on the other keys of
    [K] is the sum of [d]. *)
Lemma sum_values_padded (K : gset nat) :
  forall d m : gmap nat Z,
    dom d ⊆ K ->
    (forall k, m !! k = if decide (k ∈ K) then Some (default 0%Z (d !! k))
                        else None) ->
    sum_values m = sum_values d.
Proof.
  induction K as [|x K Hx IH] using set_ind_L; intros d m Hdom Hm.
  - assert (m = ∅) as ->.
    { apply map_eq. intros k. rewrite Hm, lookup_empty.
      now rewrite decide_False by apply not_elem_of_empty. }
    assert (d = ∅) as ->; [|reflexivity].
    apply map_eq. intros k. rewrite lookup_empty.
    apply not_elem_of_dom. intros Hk. apply Hdom in Hk.
    now apply not_elem_of_empty in Hk.
  - assert (Hmx : m !! x = Some (default 0%Z (d !! x))).
    { rewrite Hm. rewrite decide_True; [reflexivity|].
      apply elem_of_union_l, elem_of_singleton. reflexivity. }
    rewrite (sum_values_delete m x _ Hmx).
    rewrite (IH (delete x d) (delete x m)).
    + destruct (d !! x) as [v|] eqn:Hdx; simpl.
      * now rewrite (sum_values_delete d x v Hdx).
      * rewrite delete_id by assumption. lia.
    + intros k Hk. apply elem_of_dom in Hk. destruct Hk as [v Hk].
      apply lookup_delete_Some in Hk. destruct Hk as [Hne Hk].
      assert (Hin : k ∈ {[x]} ∪ K) by (apply Hdom, elem_of_dom; eauto).
      apply elem_of_union in Hin. destruct Hin as [Hin|Hin]; [|exact Hin].
      apply elem_of_singleton in Hin. congruence.
    + intros k. destruct (decide (k = x)) as [->|Hne].
      * rewrite lookup_delete_eq. now rewrite decide_False by assumption.
      * rewrite !lookup_delete_ne by congruence. rewrite Hm.
        destruct (decide (k ∈ K)) as [Hk|Hk].
        -- rewrite decide_True; [reflexivity|]. now apply elem_of_union_r.
        -- rewrite decide_False; [reflexivity|]. intros Hin.
           apply elem_of_union in Hin. destruct Hin as [Hin|Hin]; [|auto].
           apply elem_of_singleton in Hin. congruence.
Qed.

(** The sum of the sums of the columns is the sum of the sums of the rows. *)
Lemma sum_columns_rows (n : nat) (cols : gmap nat (list Z)) :
  map_Forall (fun _ col => length col = n) cols ->
  sum_values (sum_list_Z <$> cols)
  = sum_list_Z ((fun t => sum_values
                            ((fun col : list Z => default 0%Z (col !! t))
                               <$> cols)) <$> seq 0 n).
Proof.
  induction cols as [|k col cols Hk IH] using map_ind; intros Hall.
  - rewrite fmap_empty, sum_values_empty.
    erewrite list_fmap_ext; [apply eq_sym, sum_list_Z_fmap_zero|].
    intros i t _. now rewrite fmap_empty.
  - apply map_Forall_insert in Hall; [|assumption].
    destruct Hall as [Hlen Hall].
    rewrite fmap_insert, sum_values_insert_fresh
      by (rewrite lookup_fmap, Hk; reflexivity).
    rewrite (IH Hall).
    rewrite <- (sum_list_Z_lookups col), Hlen.
    rewrite <- sum_list_Z_fmap_add. f_equal.
    apply list_fmap_ext. intros i t _.
    rewrite fmap_insert, sum_values_insert_fresh
      by (rewrite lookup_fmap, Hk; reflexivity).
    reflexivity.
Qed.

Lemma dom_subseteq_all_keys (series : list (gmap nat Z)) (t : nat)
    (d : gmap nat Z) :
  series !! t = Some d -> dom d ⊆ all_keys series.
Proof.
  intros Ht k Hk. unfold all_keys. apply elem_of_union_list.
  exists (dom d). split; [|exact Hk].
  apply list_elem_of_fmap. exists d. split; [reflexivity|].
  apply list_elem_of_lookup. eauto.
Qed.

Lemma step_row_padded (series : list (gmap nat Z)) (t : nat) (d : gmap nat Z)
    (cols : gmap nat (list Z)) (k : nat) :
  series !! t = Some d ->
  cols !! k = (if decide (k ∈ all_keys series)
               then Some (step_counts series k) else None) ->
  ((fun col : list Z => default 0%Z (col !! t)) <$> cols) !! k
  = if decide (k ∈ all_keys series) then Some (default 0%Z (d !! k)) else None.
Proof.
  intros Ht Hcols. rewrite lookup_fmap, Hcols.
  destruct (decide (k ∈ all_keys series)); [|reflexivity].
  simpl. unfold step_counts. rewrite list_lookup_fmap, Ht. reflexivity.
Qed.

Lemma fmap_lookups_seq {A B : Type} (g : option A -> B) (l : list A) :
  (fun t => g (l !! t)) <$> seq 0 (length l) = (fun x => g (Some x)) <$> l.
Proof.
  apply list_eq. intros i. rewrite !list_lookup_fmap.
  destruct (l !! i) as [x|] eqn:Hi; simpl.
  - rewrite lookup_seq_lt by (apply lookup_lt_Some in Hi; lia).
    simpl. now rewrite Hi.
  - rewrite lookup_seq_ge by (apply lookup_ge_None in Hi; lia). reflexivity.
Qed.

(** X7. Normalization keeps the total of every time step: the row of a time
    step in the table sums to the sum of the counts of the dict of that
    step, whatever keys the dict lacks. *)
Theorem normalization_keeps_step_totals (series : list (gmap nat Z))
    (f : Frame Z) (t : nat) (d : gmap nat Z) :
  format_as_dataframe series = Ok f ->
  series !! t = Some d ->
  frame_index f !! t = Some (Step t) /\
  sum_values (iloc_row f t) = sum_values d.
Proof.
  intros Hf Ht.
  destruct (format_as_dataframe_inv series f Hf) as (_ & Hidx & Hl).
  pose proof (lookup_lt_Some _ _ _ Ht) as Hlt. split.
  - rewrite Hidx, lookup_app_l by (rewrite length_fmap, length_seq; lia).
    rewrite list_lookup_fmap, lookup_seq_lt by lia. reflexivity.
  - apply (sum_values_padded (all_keys series)).
    + exact (dom_subseteq_all_keys series t d Ht).
    + intros k. unfold iloc_row. rewrite lookup_fmap, Hl.
      destruct (decide (k ∈ all_keys series)); [|reflexivity].
      simpl. rewrite lookup_app_l by (rewrite length_step_counts; lia).
      unfold step_counts. rewrite list_lookup_fmap, Ht. reflexivity.
Qed.

(** X8. The Totals row of the table sums to the sum of all the counts of
    the series, over the time steps and the models. *)
Theorem totals_row_is_grand_total (series : list (gmap nat Z)) (f : Frame Z) :
  format_as_dataframe series = Ok f ->
  frame_index f !! length series = Some Totals /\
  sum_values (iloc_row f (length series))
  = sum_list_Z (sum_values <$> series).
Proof.
  intros Hf. split; [now destruct (totals_row series f 0 Hf)|].
  set (cols := frame_data (fillna 0 (frame_of_records series))).
  assert (Hcols : forall k, cols !! k
            = if decide (k ∈ all_keys series)
              then Some (step_counts series k) else None).
  { intros k. apply fillna_frame_of_records_lookup. }
  assert (Hrow : iloc_row f (length series) = sum_list_Z <$> cols).
  { apply map_eq. intros k.
    destruct (totals_row series f k Hf) as [_ ->].
    rewrite lookup_fmap, Hcols.
    destruct (decide (k ∈ all_keys series)); reflexivity. }
  rewrite Hrow, (sum_columns_rows (length series)).
  - rewrite <- (fmap_lookups_seq
                  (fun o => sum_values (default ∅ o)) series).
    f_equal. apply list_fmap_ext. intros i t Hi.
    apply lookup_seq in Hi. destruct Hi as [Heq Hi]. simpl in Heq. subst t.
    destruct (lookup_lt_is_Some_2 series i Hi) as [d Hd].
    rewrite Hd. simpl.
    apply (sum_values_padded (all_keys series)).
    + exact (dom_subseteq_all_keys series i d Hd).
    + intros k. exact (step_row_padded series i d cols k Hd (Hcols k)).
  - intros k col Hk. rewrite Hcols in Hk.
    destruct (decide (k ∈ all_keys series)); [|discriminate].
    injection Hk as <-. apply length_step_counts.
Qed.

(** ** Bounds of a misclassification count *)

Section MisclassifiedBounds.

Local Open Scope Q_scope.

(** The float product [count * (1 - accuracy)] is within three roundings
    of the exact product. *)
Lemma misclassified_product_bounds (count : Z) (accuracy : Q) :
  (0 <= count)%Z -> 0 <= accuracy -> accuracy <= 1 ->
  inject_Z count * (1 - accuracy) * (1 - u53) * (1 - u53) * (1 - u53)
    <= fmul (of_int count) (fsub 1 accuracy) /\
  fmul (of_int count) (fsub 1 accuracy)
    <= inject_Z count * (1 - accuracy) * (1 + u53) * (1 + u53) * (1 + u53).
Proof.
  intros Hc Ha0 Ha1. unfold fmul, of_int, fsub.
  assert (Hcq : 0 <= inject_Z count).
  { change 0 with (inject_Z 0). now rewrite <- Zle_Qle. }
  destruct (Qlt_le_dec 0 (inject_Z count)) as [Hcpos|Hc0].
  - destruct (Qlt_le_dec 0 (1 - accuracy)) as [Hapos|Ha].
    + destruct (b64_rel_err _ Hcpos) as [H1lo H1hi].
      destruct (b64_rel_err _ Hapos) as [H2lo H2hi].
      set (x := inject_Z count) in *. set (z := 1 - accuracy) in *.
      set (fx := b64 x) in *. set (fz := b64 z) in *.
      unfold u53 in *.
      assert (Hfx : 0 < fx) by nra.
      assert (Hfz : 0 < fz) by nra.
      assert (Hp : 0 < fx * fz) by nra.
      destruct (b64_rel_err _ Hp) as [H3lo H3hi]. unfold u53 in *.
      assert (Hhi : fx * fz <= x * (1 + (1 # 9007199254740992))
                               * (z * (1 + (1 # 9007199254740992)))).
      { apply Qmult_le_compat_nonneg; split; lra. }
      assert (Hlo : x * (1 - (1 # 9007199254740992))
                    * (z * (1 - (1 # 9007199254740992))) <= fx * fz).
      { apply Qmult_le_compat_nonneg; split; try lra; nra. }
      set (p := fx * fz) in *. set (y := b64 p) in *.
      set (xz := x * z) in *.
      assert (Exz : x * z == xz) by reflexivity.
      split; nra.
    + assert (Hz : 1 - accuracy == 0) by lra.
      rewrite (b64_zero (1 - accuracy) Hz).
      rewrite b64_zero by ring. rewrite Hz. split; lra.
  - assert (Hz : inject_Z count == 0) by lra.
    rewrite (b64_zero (inject_Z count) Hz).
    rewrite b64_zero by ring. rewrite Hz. split; lra.
Qed.

Lemma misclassified_le_count (count : Z) (accuracy : Q) :
  (0 <= count < 2 ^ 50)%Z -> 0 <= accuracy -> accuracy <= 1 ->
  (misclassified count accuracy <= count)%Z.
Proof.
  intros [Hc Hlt] Ha0 Ha1.
  destruct (misclassified_product_bounds count accuracy Hc Ha0 Ha1) as [_ Hhi].
  unfold misclassified.
  destruct (rne_bounds (fmul (of_int count) (fsub 1 accuracy))) as [_ Hr].
  set (y := fmul (of_int count) (fsub 1 accuracy)) in *.
  assert (Hcq : 0 <= inject_Z count).
  { change 0 with (inject_Z 0). now rewrite <- Zle_Qle. }
  assert (Hchi : inject_Z count < 1125899906842624).
  { change 1125899906842624 with (inject_Z (2 ^ 50)). now rewrite <- Zlt_Qlt. }
  assert (Hlt1 : inject_Z (rne y) < inject_Z (count + 1)).
  { rewrite inject_Z_plus. change (inject_Z 1) with 1. unfold u53 in Hhi.
    set (x := inject_Z count) in *.
    assert (Hxa : x * (1 - accuracy) <= x) by nra.
    set (xa := x * (1 - accuracy)) in *.
    assert (Hxa0 : 0 <= xa) by (unfold xa; nra).
    lra. }
  rewrite <- Zlt_Qlt in Hlt1. lia.
Qed.

Lemma misclassified_accuracy_one (count : Z) (accuracy : Q) :
  accuracy == 1 -> misclassified count accuracy = 0%Z.
Proof.
  intros Ha. unfold misclassified, fmul, fsub.
  rewrite (b64_zero (1 - accuracy)) by lra.
  rewrite b64_zero by ring. reflexivity.
Qed.

Lemma misclassified_accuracy_zero (count : Z) (accuracy : Q) :
  (0 <= count < 2 ^ 50)%Z -> accuracy == 0 ->
  misclassified count accuracy = count.
Proof.
  intros [Hc Hlt] Ha.
  destruct (misclassified_product_bounds count accuracy Hc) as [Hlo Hhi];
    [lra | lra |].
  pose proof (misclassified_le_count count accuracy (conj Hc Hlt)) as Hle.
  unfold misclassified in *.
  destruct (rne_bounds (fmul (of_int count) (fsub 1 accuracy))) as [Hr _].
  set (y := fmul (of_int count) (fsub 1 accuracy)) in *.
  assert (Hcq : 0 <= inject_Z count).
  { change 0 with (inject_Z 0). now rewrite <- Zle_Qle. }
  assert (Hchi : inject_Z count < 1125899906842624).
  { change 1125899906842624 with (inject_Z (2 ^ 50)). now rewrite <- Zlt_Qlt. }
  assert (Hgt : inject_Z (count + -1) < inject_Z (rne y)).
  { rewrite inject_Z_plus. change (inject_Z (-1)) with (-1 # 1).
    unfold u53 in Hlo. set (x := inject_Z count) in *.
    assert (Hxa : x * (1 - accuracy) == x) by (rewrite Ha; ring).
    rewrite Hxa in Hlo. lra. }
  rewrite <- Zlt_Qlt in Hgt.
  assert (rne y <= count)%Z by (apply Hle; lra). lia.
Qed.

End MisclassifiedBounds.

(** ** The misclassification table *)

(** X10. Where the allocation count times the scale factor is below
    [2^63], a cell of the misclassification table is at most that product
    and never negative: no more misclassifications than observations are
    projected (counts below [2^50], accuracies within [[0,1]], a scale
    factor of 0 or more). *)
Theorem misclassifications_within_allocations (selected_df m : Frame Z)
    (model_accuracies : list Q) (scale : Z) (t k : nat) (count : Z)
    (accuracy : Q) :
  create_misclassification_df selected_df model_accuracies = Ok m ->
  cell selected_df t k = Some count ->
  model_accuracies !! k = Some accuracy ->
  (0 <= count < 2 ^ 50)%Z -> (0 <= accuracy)%Q -> (accuracy <= 1)%Q ->
  (0 <= scale)%Z -> (count * scale < 2 ^ 63)%Z ->
  exists v : Z,
    cell (frame_scale m scale) t k = Some v /\
    (0 <= v <= count * scale)%Z.
Proof.
  intros Hm Hcell Hacc Hc Ha0 Ha1 Hs Hbound.
  rewrite (cell_misclassified selected_df m model_accuracies scale t k Hm).
  rewrite Hcell, Hacc. simpl. eexists. split; [reflexivity|].
  pose proof (misclassified_nonneg count accuracy (proj1 Hc) Ha0 Ha1).
  pose proof (misclassified_le_count count accuracy Hc Ha0 Ha1).
  assert (0 <= misclassified count accuracy * scale <= count * scale)%Z by nia.
  rewrite wrap64_small by lia. lia.
Qed.

(** X11. The two extreme accuracies: a model of accuracy 1 has 0 in every
    cell of its column of the misclassification table, and a model of
    accuracy 0 has the [int64] value of its allocation count times the
    scale factor, which is the product itself within [-2^63, 2^63)
    (counts below [2^50]). *)
Theorem misclassifications_of_extreme_accuracies (selected_df m : Frame Z)
    (model_accuracies : list Q) (scale : Z) (t k : nat) (count : Z)
    (accuracy : Q) :
  create_misclassification_df selected_df model_accuracies = Ok m ->
  cell selected_df t k = Some count ->
  model_accuracies !! k = Some accuracy ->
  ((accuracy == 1)%Q -> cell (frame_scale m scale) t k = Some 0%Z) /\
  ((accuracy == 0)%Q -> (0 <= count < 2 ^ 50)%Z ->
   cell (frame_scale m scale) t k = Some (wrap64 (count * scale)) /\
   ((- 2 ^ 63 <= count * scale < 2 ^ 63)%Z ->
    cell (frame_scale m scale) t k = Some (count * scale)%Z)).
Proof.
  intros Hm Hcell Hacc.
  rewrite (cell_misclassified selected_df m model_accuracies scale t k Hm).
  rewrite Hcell, Hacc. simpl. split.
  - intros Ha. rewrite (misclassified_accuracy_one count accuracy Ha).
    reflexivity.
  - intros Ha Hc. rewrite (misclassified_accuracy_zero count accuracy Hc Ha).
    split; [reflexivity|].
    intros Hrange. now rewrite wrap64_small.
Qed.

(** X9. [create_misclassification_df] raises [IndexError] exactly when a
    column key of the table is not an index of [model_accuracies];
    otherwise the result has the column keys of the table, columns of the
    same lengths and, when the table has a column, its index. *)
Theorem create_misclassification_df_shape (selected_df : Frame Z)
    (model_accuracies : list Q) :
  (set_Forall (fun i => i < length model_accuracies)
              (dom (frame_data selected_df)) ->
   exists m : Frame Z,
     create_misclassification_df selected_df model_accuracies = Ok m /\
     dom (frame_data m) = dom (frame_data selected_df) /\
     (frame_data selected_df <> ∅ -> frame_index m = frame_index selected_df) /\
     forall k col, frame_data selected_df !! k = Some col ->
       exists col', frame_data m !! k = Some col' /\ length col' = length col) /\
  (forall k, k ∈ dom (frame_data selected_df) ->
     length model_accuracies <= k ->
     create_misclassification_df selected_df model_accuracies
       = Raise IndexError).
Proof.
  split.
  - intros Hkeys.
    destruct (create_misclassification_df_spec selected_df model_accuracies
                Hkeys) as (m & Hm & Hidx & Hl).
    exists m. split; [exact Hm|]. split; [|split].
    + apply set_eq. intros k. rewrite !elem_of_dom, Hl.
      destruct (frame_data selected_df !! k); simpl; split;
        intros [? H]; try discriminate; eauto.
    + intros Hne. rewrite Hidx. now rewrite decide_False by assumption.
    + intros k col Hk. rewrite Hl, Hk. simpl. eexists. split; [reflexivity|].
      apply length_fmap.
  - intros k Hk Hge. unfold create_misclassification_df.
    rewrite decide_False; [reflexivity|].
    intros Hall. specialize (Hall k Hk). simpl in Hall. lia.
Qed.

(** X12. The scale factor: a model count or a reward count of 0 raises
    [ZeroDivisionError]; for positive ones the two floor divisions are one
    division by their product, and with 0 requests or more the result is 0
    exactly when the requests are fewer than models times rewards. *)
Theorem scale_factor_cases (no_of_requests no_of_models no_of_rewards : Z) :
  (no_of_models = 0%Z \/ no_of_rewards = 0%Z ->
   scale_factor no_of_requests no_of_models no_of_rewards
     = Raise ZeroDivisionError) /\
  ((0 < no_of_models)%Z -> (0 < no_of_rewards)%Z ->
   scale_factor no_of_requests no_of_models no_of_rewards
     = Ok (no_of_requests / (no_of_models * no_of_rewards))%Z /\
   ((0 <= no_of_requests)%Z ->
    ((no_of_requests / (no_of_models * no_of_rewards) = 0)%Z <->
     (no_of_requests < no_of_models * no_of_rewards)%Z))).
Proof.
  unfold scale_factor, floordiv. split.
  - intros [-> | ->].
    + reflexivity.
    + destruct (decide (no_of_models = 0%Z)); [reflexivity|]. reflexivity.
  - intros Hm Hr. rewrite decide_False by lia. simpl.
    rewrite decide_False by lia. split.
    + now rewrite Z.div_div by lia.
    + intros Hq. rewrite Z.div_small_iff by nia. split; [|nia].
      intros [H|H]; nia.
Qed.

(** ** A scale factor of 0 *)

Lemma sum_values_zero (d : gmap nat Z) :
  map_Forall (fun _ v => v = 0%Z) d -> sum_values d = 0%Z.
Proof.
  induction d as [|k v d Hk IH] using map_ind; intros Hall.
  - apply sum_values_empty.
  - rewrite sum_values_insert_fresh by assumption.
    apply map_Forall_insert in Hall; [|assumption].
    destruct Hall as [-> Hd]. rewrite (IH Hd). reflexivity.
Qed.

Lemma sum_list_Z_zero (l : list Z) :
  Forall (fun v => v = 0%Z) l -> sum_list_Z l = 0%Z.
Proof.
  unfold sum_list_Z. induction 1 as [|v l -> Hl IH]; simpl; [reflexivity|].
  exact IH.
Qed.

Lemma iloc_row_zero (f : Frame Z) (t : nat) :
  cells_zero f -> map_Forall (fun _ v => v = 0%Z) (iloc_row f t).
Proof.
  intros Hf k v Hk. unfold iloc_row in Hk. rewrite lookup_fmap in Hk.
  destruct (frame_data f !! k) as [col|] eqn:Hcol; [|discriminate].
  simpl in Hk. injection Hk as <-.
  specialize (Hf k col Hcol). simpl in Hf.
  destruct (col !! t) as [c|] eqn:Hc; simpl; [|reflexivity].
  rewrite Forall_lookup in Hf. exact (Hf t c Hc).
Qed.

Lemma row_totals_zero (f : Frame Z) :
  cells_zero f -> Forall (fun v => v = 0%Z) (row_totals f).
Proof.
  intros Hf. apply Forall_lookup. intros t v Ht. unfold row_totals in Ht.
  rewrite list_lookup_imap in Ht.
  destruct (frame_index f !! t); [|discriminate].
  simpl in Ht. injection Ht as <-.
  exact (sum_values_zero _ (iloc_row_zero f t Hf)).
Qed.

(** What follows from a table of zeros: a headline total of 0, a
    cumulative cost series of zeros and column sums of 0. *)
Lemma cells_zero_totals (f : Frame Z) (cost_of_failure : Z) :
  cells_zero f ->
  Forall (fun v => v = 0%Z) (cumulative_cost f cost_of_failure) /\
  (frame_index f <> [] -> sum_last_row f = Ok 0%Z) /\
  map_Forall (fun _ v => v = 0%Z) (frame_sum f).
Proof.
  intros Hf. split; [|split].
  - apply Forall_lookup. intros i v Hi.
    assert (Hlt : i + 1 < length (frame_index f)).
    { apply lookup_lt_Some in Hi. rewrite length_cumulative_cost in Hi. lia. }
    rewrite cumulative_cost_lookup in Hi by exact Hlt.
    injection Hi as <-.
    rewrite (sum_list_Z_zero (take (S i) (row_totals f)))
      by (apply Forall_take, row_totals_zero, Hf).
    reflexivity.
  - intros Hne. unfold sum_last_row.
    destruct (frame_index f) as [|l idx] eqn:Hidx; [congruence|].
    simpl. f_equal. exact (sum_values_zero _ (iloc_row_zero f _ Hf)).
  - intros k v Hk. unfold frame_sum in Hk.
    rewrite lookup_fmap in Hk.
    destruct (frame_data f !! k) as [col|] eqn:Hcol; [|discriminate].
    simpl in Hk. injection Hk as <-.
    specialize (Hf k col Hcol). simpl in Hf.
    now rewrite (sum_list_Z_zero col Hf).
Qed.

(** X13. With a scale factor of 0 (fewer requests than models times
    rewards) the whole misclassification table is 0: the headline total is
    0 and so is every entry of the cumulative cost series. *)
Theorem zero_scale_zeroes_the_projection (series : list (gmap nat Z))
    (model_accuracies : list Q) (cost_of_failure : Z) (m : Frame Z) :
  misclassifications series model_accuracies 0 = Ok m ->
  cells_zero m /\
  sum_last_row m = Ok 0%Z /\
  length (cumulative_cost m cost_of_failure) = length series /\
  Forall (fun v => v = 0%Z) (cumulative_cost m cost_of_failure).
Proof.
  intros Hm.
  pose proof (misclassifications_index series model_accuracies 0 m Hm) as Hidx.
  assert (Hzero : cells_zero m).
  { unfold misclassifications in Hm.
    destruct (format_as_dataframe series) as [sel|]; [|discriminate].
    simpl in Hm.
    destruct (create_misclassification_df sel model_accuracies) as [m0|];
      [|discriminate].
    simpl in Hm. injection Hm as <-.
    intros k col Hk. unfold frame_scale in Hk. cbn [frame_data] in Hk.
    rewrite lookup_fmap in Hk.
    destruct (frame_data m0 !! k) as [col0|]; [|discriminate].
    simpl in Hk. injection Hk as <-. simpl.
    apply Forall_fmap, Forall_true. intros c. simpl.
    now rewrite Z.mul_0_r. }
  destruct (cells_zero_totals m cost_of_failure Hzero) as (Hcum & Hlast & _).
  split; [exact Hzero|]. split; [|split; [|exact Hcum]].
  - apply Hlast. rewrite Hidx. intros He. now apply app_eq_nil in He as [_ ?].
  - rewrite length_cumulative_cost, Hidx, length_app, length_fmap, length_seq.
    simpl. lia.
Qed.

(** X14. The cumulative cost series has one entry per row of the table but
    the last, and the entry of a time step is the [int64] value of the
    cost of a failure times the sum of the cells of the rows up to that
    step: the product itself wherever it is within [-2^63, 2^63). *)
Theorem cumulative_cost_prefix_sums (misclassification_df : Frame Z)
    (cost_of_failure : Z) (i : nat) :
  i + 1 < length (frame_index misclassification_df) ->
  length (cumulative_cost misclassification_df cost_of_failure)
    = length (frame_index misclassification_df) - 1 /\
  cumulative_cost misclassification_df cost_of_failure !! i
  = Some (wrap64 (sum_list_Z (take (S i) (row_totals misclassification_df))
                  * cost_of_failure)) /\
  ((- 2 ^ 63
    <= sum_list_Z (take (S i) (row_totals misclassification_df))
       * cost_of_failure
    < 2 ^ 63)%Z ->
   cumulative_cost misclassification_df cost_of_failure !! i
   = Some (sum_list_Z (take (S i) (row_totals misclassification_df))
           * cost_of_failure)%Z).
Proof.
  intros Hi. split; [apply length_cumulative_cost|].
  rewrite cumulative_cost_lookup by exact Hi.
  split; [reflexivity|].
  intros Hrange. now rewrite wrap64_small.
Qed.

(** ** The cost of a constant series *)

Lemma misclassified_zero_count (accuracy : Q) : misclassified 0 accuracy = 0%Z.
Proof.
  unfold misclassified, fmul, of_int.
  rewrite (b64_zero (inject_Z 0)) by reflexivity.
  rewrite b64_zero by ring. reflexivity.
Qed.

(** A row of the scaled misclassification table is computed from the same
    row of the table of the selections. *)
Lemma iloc_row_misclassified (selected_df m0 : Frame Z)
    (model_accuracies : list Q) (scale : Z) (t : nat) :
  create_misclassification_df selected_df model_accuracies = Ok m0 ->
  iloc_row (frame_scale m0 scale) t
  = wrap64
      <$> map_imap (fun k c =>
                      Some (misclassified c
                              (default 0%Q (model_accuracies !! k))
                            * scale)%Z)
                   (iloc_row selected_df t).
Proof.
  intros Hm0. apply map_eq. intros k.
  rewrite lookup_fmap, map_lookup_imap. unfold iloc_row. rewrite !lookup_fmap.
  rewrite (scaled_misclassification_lookup selected_df m0 model_accuracies
             scale k Hm0).
  destruct (frame_data selected_df !! k) as [col|]; [|reflexivity].
  simpl. rewrite list_lookup_fmap.
  destruct (col !! t); simpl; [reflexivity|].
  now rewrite misclassified_zero_count.
Qed.

Lemma wrap64_sum_values (d : gmap nat Z) :
  wrap64 (sum_values (wrap64 <$> d)) = wrap64 (sum_values d).
Proof.
  induction d as [|k v d Hk IH] using map_ind.
  - rewrite fmap_empty. reflexivity.
  - rewrite fmap_insert.
    rewrite !sum_values_insert_fresh
      by (try rewrite lookup_fmap, Hk; reflexivity || assumption).
    rewrite wrap64_add_l, <- wrap64_add_r, IH, wrap64_add_r. reflexivity.
Qed.

Lemma row_totals_lookup (f : Frame Z) (t : nat) :
  t < length (frame_index f) ->
  row_totals f !! t = Some (sum_values (iloc_row f t)).
Proof.
  intros Ht. unfold row_totals. rewrite list_lookup_imap.
  destruct (lookup_lt_is_Some_2 (frame_index f) t Ht) as [l ->]. reflexivity.
Qed.

Lemma sum_list_Z_replicate (n : nat) (s : Z) :
  sum_list_Z (replicate n s) = (Z.of_nat n * s)%Z.
Proof.
  unfold sum_list_Z. induction n as [|n IH]; [reflexivity|].
  cbn [replicate foldr]. rewrite IH. lia.
Qed.

Lemma all_keys_replicate (n : nat) (d : gmap nat Z) :
  1 <= n -> all_keys (replicate n d) = dom d.
Proof.
  intros Hn. unfold all_keys. apply set_eq. intros k.
  rewrite elem_of_union_list. split.
  - intros (X & HX & Hk). apply list_elem_of_fmap in HX.
    destruct HX as (d' & -> & Hd'). apply elem_of_replicate in Hd'.
    now destruct Hd' as [-> _].
  - intros Hk. exists (dom d). split; [|exact Hk].
    apply list_elem_of_fmap. exists d. split; [reflexivity|].
    apply elem_of_replicate. split; [reflexivity | lia].
Qed.

(** X15. For a series that repeats one dict (as the control series does)
    the entry of the cumulative cost at step [i] is the [int64] value of
    [i + 1] times the cost of the misclassifications of one step: within
    [-2^63, 2^63) the cumulative cost grows by the same amount at every
    step. *)
Theorem constant_series_cost_is_linear (time_series_length : nat)
    (results : gmap nat Z) (model_accuracies : list Q)
    (scale cost_of_failure : Z) (m : Frame Z) (i : nat) :
  misclassifications (replicate time_series_length results)
                     model_accuracies scale = Ok m ->
  i < time_series_length ->
  cumulative_cost m cost_of_failure !! i
  = Some (wrap64 (Z.of_nat (S i)
                  * step_misclassifications model_accuracies scale results
                  * cost_of_failure)) /\
  ((- 2 ^ 63
    <= Z.of_nat (S i)
       * step_misclassifications model_accuracies scale results
       * cost_of_failure
    < 2 ^ 63)%Z ->
   cumulative_cost m cost_of_failure !! i
   = Some (Z.of_nat (S i)
           * step_misclassifications model_accuracies scale results
           * cost_of_failure)%Z).
Proof.
  intros Hm Hi.
  pose proof (misclassifications_index _ model_accuracies scale m Hm) as Hidx.
  rewrite length_replicate in Hidx.
  unfold misclassifications in Hm.
  destruct (format_as_dataframe (replicate time_series_length results))
    as [sel|] eqn:Hsel; [|discriminate].
  simpl in Hm.
  destruct (create_misclassification_df sel model_accuracies) as [m0|] eqn:Hm0;
    [|discriminate].
  simpl in Hm. injection Hm as <-.
  destruct (format_as_dataframe_inv _ sel Hsel) as (_ & _ & Hl).
  rewrite all_keys_replicate in Hl by lia.
  assert (Hrow : forall t, t < time_series_length -> iloc_row sel t = results).
  { intros t Ht. apply map_eq. intros k. unfold iloc_row.
    rewrite lookup_fmap, Hl.
    destruct (decide (k ∈ dom results)) as [Hk|Hk]; simpl.
    - rewrite lookup_app_l
        by (rewrite length_step_counts, length_replicate; lia).
      unfold step_counts. rewrite list_lookup_fmap.
      rewrite lookup_replicate_2 by lia. simpl.
      apply elem_of_dom in Hk. destruct Hk as [v ->]. reflexivity.
    - apply not_elem_of_dom in Hk. now rewrite Hk. }
  set (step := step_misclassifications model_accuracies scale results).
  set (stepw := sum_values
                  (wrap64
                     <$> map_imap
                           (fun k c =>
                              Some (misclassified c
                                      (default 0%Q (model_accuracies !! k))
                                    * scale)%Z) results)).
  assert (Hentry : cumulative_cost (frame_scale m0 scale) cost_of_failure !! i
                   = Some (wrap64 (Z.of_nat (S i) * step * cost_of_failure))).
  { rewrite cumulative_cost_lookup
      by (rewrite Hidx, length_app, length_fmap, length_seq; simpl; lia).
    assert (Htake : take (S i) (row_totals (frame_scale m0 scale))
                    = replicate (S i) stepw).
    { apply list_eq. intros t.
      destruct (decide (t < S i)) as [Ht|Ht].
      - rewrite lookup_take_lt by lia.
        rewrite row_totals_lookup
          by (rewrite Hidx, length_app, length_fmap, length_seq; simpl; lia).
        rewrite lookup_replicate_2 by lia.
        rewrite (iloc_row_misclassified sel m0 model_accuracies scale t Hm0).
        rewrite Hrow by lia. reflexivity.
      - rewrite lookup_take_ge by lia.
        symmetry. apply lookup_replicate_None. lia. }
    rewrite Htake, sum_list_Z_replicate. f_equal.
    replace (Z.of_nat (S i) * stepw * cost_of_failure)%Z
      with (stepw * (Z.of_nat (S i) * cost_of_failure))%Z by lia.
    replace (Z.of_nat (S i) * step * cost_of_failure)%Z
      with (step * (Z.of_nat (S i) * cost_of_failure))%Z by lia.
    rewrite <- wrap64_mul_l. unfold stepw. rewrite wrap64_sum_values.
    fold (step_misclassifications model_accuracies scale results).
    fold step. rewrite wrap64_mul_l. reflexivity. }
  split; [exact Hentry|].
  intros Hrange. rewrite Hentry. now rewrite wrap64_small.
Qed.

(** ** The calculation of app.py *)

Lemma omap_fst_concat_axis1 (a b : gmap nat Z) :
  omap fst (concat_axis1 a b) = a.
Proof.
  apply map_eq. intros k. unfold concat_axis1.
  rewrite lookup_omap, lookup_merge.
  destruct (a !! k), (b !! k); reflexivity.
Qed.

Lemma omap_snd_concat_axis1 (a b : gmap nat Z) :
  omap snd (concat_axis1 a b) = b.
Proof.
  apply map_eq. intros k. unfold concat_axis1.
  rewrite lookup_omap, lookup_merge.
  destruct (a !! k), (b !! k); reflexivity.
Qed.

Lemma sum_values_kmap_S (d : gmap nat Z) :
  sum_values (kmap S d) = sum_values d.
Proof.
  induction d as [|k v d Hk IH] using map_ind.
  - now rewrite kmap_empty.
  - rewrite kmap_insert by apply _.
    rewrite !sum_values_insert_fresh; [now rewrite IH | exact Hk |].
    rewrite lookup_kmap by apply _. exact Hk.
Qed.

(** *** Integers as binary64 values *)

Section Float64Exact.

Local Open Scope Q_scope.

Lemma rne_inject (y : Q) (k : Z) : y == inject_Z k -> rne y = k.
Proof.
  intros Hy. unfold rne.
  rewrite (Qfloor_comp y (inject_Z k) Hy), Qfloor_Z.
  destruct (Qcompare (y - inject_Z k) (1 # 2)) eqn:Hc.
  - apply Qeq_alt in Hc. lra.
  - reflexivity.
  - apply Qgt_alt in Hc. lra.
Qed.

Lemma pow2_ge_1 (e : Z) : (0 <= e)%Z -> 1 <= pow2 e.
Proof.
  intros He. rewrite pow2_inject by exact He.
  change 1 with (inject_Z 1). rewrite <- Zle_Qle.
  pose proof (Z.pow_pos_nonneg 2 e ltac:(lia) He). lia.
Qed.

Lemma pow2_opp (e : Z) : pow2 e * pow2 (- e) == 1.
Proof.
  unfold pow2. rewrite <- Qpower_plus by discriminate.
  now rewrite Z.add_opp_diag_r.
Qed.

Lemma pow2_lt_2 (e : Z) : pow2 e < 2 -> (e <= 0)%Z.
Proof.
  intros Ht. destruct (Z_le_gt_dec e 0) as [He|He]; [exact He|].
  pose proof (pow2_succ (e - 1)) as Hs.
  replace (e - 1 + 1)%Z with e in Hs by lia.
  pose proof (pow2_ge_1 (e - 1) ltac:(lia)). lra.
Qed.

Lemma pow2_le_1 (e : Z) : (e <= 0)%Z -> pow2 e <= 1.
Proof.
  intros He. pose proof (pow2_opp e) as Ho.
  pose proof (pow2_ge_1 (- e) ltac:(lia)) as H1.
  pose proof (pow2_pos e) as H2. nra.
Qed.

(** Integers up to [2^53] are binary64 values. *)
Lemma b64_exact (x : Q) (m : Z) :
  x == inject_Z m -> (0 <= m <= 2 ^ 53)%Z -> b64 x == inject_Z m.
Proof.
  intros Hx Hm.
  destruct (Z.eq_dec m 0%Z) as [->|Hm0].
  { rewrite b64_zero by exact Hx. reflexivity. }
  assert (Hpos : 0 < x).
  { rewrite Hx. change 0 with (inject_Z 0). rewrite <- Zlt_Qlt. lia. }
  destruct (b64_pos_eq x Hpos) as [-> Hlow].
  pose proof (ulp_exp_upper x Hpos) as Hup.
  set (e := ulp_exp x) in *.
  pose proof (pow2_pos e) as Ht.
  assert (H52 : pow2 52 == 4503599627370496) by reflexivity.
  assert (H53 : pow2 53 == 9007199254740992) by reflexivity.
  assert (Hxm : x <= 9007199254740992).
  { rewrite Hx. change 9007199254740992 with (inject_Z (2 ^ 53)).
    rewrite <- Zle_Qle. lia. }
  rewrite H52 in Hlow. rewrite H53 in Hup.
  destruct (Z.eq_dec m (2 ^ 53)%Z) as [Hmax|Hlt].
  - (* the exponent is 1 *)
    assert (He : e = 1%Z).
    { assert (Hx53 : x == 9007199254740992) by (rewrite Hx, Hmax; reflexivity).
      assert (H1 : (e <= 1)%Z).
      { destruct (Z_le_gt_dec e 1) as [H|H]; [exact H|].
        pose proof (pow2_succ (e - 1)) as Hs.
        replace (e - 1 + 1)%Z with e in Hs by lia.
        pose proof (pow2_succ (e - 2)) as Hs2.
        replace (e - 2 + 1)%Z with (e - 1)%Z in Hs2 by lia.
        pose proof (pow2_ge_1 (e - 2) ltac:(lia)). nra. }
      assert (H2 : ~ (e <= 0)%Z).
      { intros H. pose proof (pow2_le_1 e H). nra. }
      lia. }
    rewrite He. change (pow2 1) with 2.
    rewrite (rne_inject (x / 2) (2 ^ 52)).
    + rewrite Hmax. reflexivity.
    + rewrite Hx, Hmax. reflexivity.
  - assert (He : (e <= 0)%Z).
    { apply pow2_lt_2.
      assert (x < 9007199254740992).
      { rewrite Hx. change 9007199254740992 with (inject_Z (2 ^ 53)).
        rewrite <- Zlt_Qlt. lia. }
      nra. }
    assert (Hinv : / pow2 e == inject_Z (2 ^ (- e))).
    { rewrite <- pow2_inject by lia. pose proof (pow2_opp e) as Ho.
      apply (Qmult_inj_l _ _ (pow2 e)).
      - intros Hz. rewrite Hz in Ht. discriminate.
      - rewrite Ho. field. intros Hz. rewrite Hz in Ht. discriminate. }
    rewrite (rne_inject (x / pow2 e) (m * 2 ^ (- e))).
    + rewrite inject_Z_mult, <- Hinv. rewrite <- Hx. field.
      intros Hz. rewrite Hz in Ht. discriminate.
    + unfold Qdiv. rewrite Hinv, Hx, inject_Z_mult. reflexivity.
Qed.

End Float64Exact.

(** ** The totals of line 105 *)

(** The additions from left to right are exact on small integers. *)
Lemma sequential_sum_exact (l : list Z) :
  forall (acc : Q) (a : Z),
    (acc == inject_Z a)%Q -> (0 <= a)%Z ->
    Forall (fun z => (0 <= z)%Z) l -> (a + sum_list_Z l <= 2 ^ 53)%Z ->
    (foldl (fun acc x => b64 (acc + x)%Q) acc (of_int <$> l)
     == inject_Z (a + sum_list_Z l))%Q.
Proof.
  induction l as [|z l IH]; intros acc a Hacc Ha Hl Hb.
  - unfold sum_list_Z. simpl. rewrite Z.add_0_r. exact Hacc.
  - apply Forall_cons in Hl. destruct Hl as [Hz Hl].
    pose proof (sum_list_Z_nonneg l Hl) as Hnn.
    unfold sum_list_Z in *. cbn [foldr] in Hb. csimpl.
    replace (a + (z + foldr Z.add 0 l))%Z
      with ((a + z) + foldr Z.add 0 l)%Z by lia.
    apply IH; [|lia|exact Hl|lia].
    apply b64_exact; [|lia].
    unfold of_int. rewrite (b64_exact (inject_Z z) z) by (reflexivity || lia).
    rewrite Hacc, inject_Z_plus. reflexivity.
Qed.

Global Instance sequential_float64_sum_laws : Float64SumLaws.
Proof.
  constructor. intros l Hl Hb. cbn [nansum sequential_float64_sum].
  unfold sequential_sum.
  rewrite (sequential_sum_exact l 0%Q 0%Z); [reflexivity|reflexivity|lia|exact Hl|lia].
Qed.

Lemma sum_values_to_list (d : gmap nat Z) :
  sum_values d = sum_list_Z (map_to_list d).*2.
Proof.
  unfold sum_values. rewrite map_fold_foldr. unfold sum_list_Z.
  induction (map_to_list d) as [|[k v] l IH]; csimpl; [reflexivity|].
  now rewrite IH.
Qed.

Lemma sum_values_fill_zero (col : gmap nat (option Z)) :
  sum_values (default 0%Z <$> col) = sum_values (omap id col).
Proof.
  induction col as [|k o col Hk IH] using map_ind.
  - now rewrite fmap_empty, omap_empty.
  - rewrite fmap_insert.
    rewrite sum_values_insert_fresh by (rewrite lookup_fmap, Hk; reflexivity).
    destruct o as [v|]; simpl.
    + rewrite (omap_insert_Some id col k (Some v) v) by reflexivity.
      rewrite sum_values_insert_fresh by (rewrite lookup_omap, Hk; reflexivity).
      now rewrite IH.
    + rewrite (omap_insert_None id col k None) by reflexivity.
      rewrite delete_id by (rewrite lookup_omap, Hk; reflexivity).
      now rewrite IH.
Qed.

Lemma sum_values_ge_lookup (d : gmap nat Z) (k : nat) (v : Z) :
  map_Forall (fun _ x => (0 <= x)%Z) d -> d !! k = Some v ->
  (v <= sum_values d)%Z.
Proof.
  intros Hd Hk. rewrite (sum_values_delete d k v Hk).
  assert (0 <= sum_values (delete k d))%Z; [|lia].
  apply sum_values_nonneg. intros i x Hi.
  apply lookup_delete_Some in Hi. destruct Hi as [_ Hi]. exact (Hd i x Hi).
Qed.

Section ColumnTotals.

Context {FS : Float64Sum} {FSL : Float64SumLaws}.

(** A column of non-negative integers that sum to [2^53] at most has the
    same total in either dtype. *)
Lemma column_total_exact (col : gmap nat (option Z)) (s : Z) :
  map_Forall (fun _ v => (0 <= v)%Z) (omap id col) ->
  sum_values (omap id col) = s -> (s <= 2 ^ 53)%Z ->
  int64_total col = s /\
  (of_int (int64_total col) == inject_Z s)%Q /\
  (float64_total col == inject_Z s)%Q.
Proof.
  intros Hnn Hs Hb.
  assert (H0 : (0 <= s)%Z) by (rewrite <- Hs; now apply sum_values_nonneg).
  assert (Hint : int64_total col = s).
  { unfold int64_total. rewrite Hs. apply wrap64_small. lia. }
  split; [exact Hint|]. split.
  - rewrite Hint. unfold of_int. apply b64_exact; [reflexivity | lia].
  - unfold float64_total. rewrite nansum_exact.
    + now rewrite <- sum_values_to_list, sum_values_fill_zero, Hs.
    + apply Forall_fmap. apply Forall_forall. intros [k v] Hin.
      apply elem_of_map_to_list in Hin. simpl.
      rewrite lookup_fmap in Hin.
      destruct (col !! k) as [[x|]|] eqn:Hk; simpl in Hin;
        try discriminate; injection Hin as <-; [|lia].
      apply (Hnn k x). rewrite lookup_omap, Hk. reflexivity.
    + now rewrite <- sum_values_to_list, sum_values_fill_zero, Hs.
Qed.

Lemma omap_id_fst (a b : gmap nat Z) :
  omap id (fst <$> kmap (M2:=gmap nat) S (concat_axis1 a b)) = kmap (M2:=gmap nat) S a.
Proof.
  rewrite <- (omap_fst_concat_axis1 a b) at 2.
  rewrite (kmap_omap S). apply map_eq. intros k.
  rewrite !lookup_omap, lookup_fmap.
  destruct (kmap (M2:=gmap nat) S (concat_axis1 a b) !! k) as [[x y]|]; reflexivity.
Qed.

Lemma omap_id_snd (a b : gmap nat Z) :
  omap id (snd <$> kmap (M2:=gmap nat) S (concat_axis1 a b)) = kmap (M2:=gmap nat) S b.
Proof.
  rewrite <- (omap_snd_concat_axis1 a b) at 2.
  rewrite (kmap_omap S). apply map_eq. intros k.
  rewrite !lookup_omap, lookup_fmap.
  destruct (kmap (M2:=gmap nat) S (concat_axis1 a b) !! k) as [[x y]|]; reflexivity.
Qed.

Lemma map_Forall_kmap_S (P : Z -> Prop) (d : gmap nat Z) :
  map_Forall (fun _ v => P v) d -> map_Forall (fun _ v => P v) (kmap (M2:=gmap nat) S d).
Proof.
  intros Hd k v Hk. apply (lookup_kmap_Some S) in Hk.
  destruct Hk as (k' & _ & Hk'). exact (Hd k' v Hk').
Qed.

(** The two totals are the sums of the two series wherever these hold
    non-negative integers that sum to [2^53] at most. *)
Lemma totals_of_exact (a b : gmap nat Z) :
  map_Forall (fun _ v => (0 <= v)%Z) a ->
  map_Forall (fun _ v => (0 <= v)%Z) b ->
  (sum_values a <= 2 ^ 53)%Z -> (sum_values b <= 2 ^ 53)%Z ->
  (number_value (totals_of (kmap (M2:=gmap nat) S (concat_axis1 a b))).1
   == inject_Z (sum_values a))%Q /\
  (number_value (totals_of (kmap (M2:=gmap nat) S (concat_axis1 a b))).2
   == inject_Z (sum_values b))%Q.
Proof.
  intros Ha Hb Hsa Hsb.
  destruct (column_total_exact (fst <$> kmap (M2:=gmap nat) S (concat_axis1 a b))
              (sum_values a)) as (Hia & Hfa & Hna).
  { rewrite omap_id_fst. now apply map_Forall_kmap_S. }
  { now rewrite omap_id_fst, sum_values_kmap_S. }
  { exact Hsa. }
  destruct (column_total_exact (snd <$> kmap (M2:=gmap nat) S (concat_axis1 a b))
              (sum_values b)) as (Hib & Hfb & Hnb).
  { rewrite omap_id_snd. now apply map_Forall_kmap_S. }
  { now rewrite omap_id_snd, sum_values_kmap_S. }
  { exact Hsb. }
  unfold totals_of.
  destruct (is_int64 (fst <$> kmap (M2:=gmap nat) S (concat_axis1 a b))),
           (is_int64 (snd <$> kmap (M2:=gmap nat) S (concat_axis1 a b)));
    cbn [fst snd number_value]; split;
    first [ exact Hfa | exact Hfb | exact Hna | exact Hnb
          | rewrite Hia; reflexivity | rewrite Hib; reflexivity ].
Qed.

(** When the two series have the same keys both totals are [int64]. *)
Lemma totals_of_int64 (a b : gmap nat Z) :
  dom a = dom b ->
  totals_of (kmap (M2:=gmap nat) S (concat_axis1 a b))
  = (Int64 (wrap64 (sum_values a)), Int64 (wrap64 (sum_values b))).
Proof.
  intros Hdom.
  assert (Hboth : forall k x y,
            kmap (M2:=gmap nat) S (concat_axis1 a b) !! k = Some (x, y) ->
            is_Some x /\ is_Some y).
  { intros k x y Hk. apply (lookup_kmap_Some S) in Hk.
    destruct Hk as (k' & _ & Hk'). unfold concat_axis1 in Hk'.
    rewrite lookup_merge in Hk'.
    destruct (a !! k') as [va|] eqn:Hka, (b !! k') as [vb|] eqn:Hkb;
      simpl in Hk'; try discriminate; injection Hk' as <- <-.
    - split; eauto.
    - apply not_elem_of_dom in Hkb. rewrite <- Hdom in Hkb.
      exfalso. apply Hkb. apply elem_of_dom. eauto.
    - apply not_elem_of_dom in Hka. rewrite Hdom in Hka.
      exfalso. apply Hka. apply elem_of_dom. eauto. }
  unfold totals_of, is_int64.
  rewrite !bool_decide_eq_true_2.
  - unfold int64_total.
    now rewrite omap_id_fst, omap_id_snd, !sum_values_kmap_S.
  - intros k o Hk. rewrite lookup_fmap in Hk.
    destruct (kmap (M2:=gmap nat) S (concat_axis1 a b) !! k) as [[x y]|] eqn:Hkk;
      [|discriminate].
    simpl in Hk. injection Hk as <-. now destruct (Hboth k x y Hkk).
  - intros k o Hk. rewrite lookup_fmap in Hk.
    destruct (kmap (M2:=gmap nat) S (concat_axis1 a b) !! k) as [[x y]|] eqn:Hkk;
      [|discriminate].
    simpl in Hk. injection Hk as <-. now destruct (Hboth k x y Hkk).
Qed.

End ColumnTotals.

(** *** The tables of the calculation *)

Lemma row_totals_seq (f : Frame Z) :
  row_totals f
  = (fun t => sum_values (iloc_row f t)) <$> seq 0 (length (frame_index f)).
Proof.
  apply list_eq. intros t. unfold row_totals.
  rewrite list_lookup_imap, list_lookup_fmap.
  destruct (frame_index f !! t) as [l|] eqn:Ht; simpl.
  - rewrite lookup_seq_lt by (apply lookup_lt_Some in Ht; lia). reflexivity.
  - rewrite lookup_seq_ge by (apply lookup_ge_None in Ht; lia). reflexivity.
Qed.

(** In a rectangular table the column sums and the row sums have the same
    total, which is the total of the rows before the last plus the last
    row. *)
Lemma sum_axis0_split (f : Frame Z) (last_row : Z) :
  frame_rectangular f ->
  sum_last_row f = Ok last_row ->
  sum_values (sum_axis0 f) = (steps_total f + last_row)%Z.
Proof.
  intros Hrect Hlast.
  assert (Hfub : sum_values (sum_axis0 f) = sum_list_Z (row_totals f)).
  { rewrite row_totals_seq. unfold sum_axis0, iloc_row.
    apply sum_columns_rows. exact Hrect. }
  rewrite Hfub. unfold sum_last_row in Hlast.
  pose proof (length_row_totals f) as Hlen.
  destruct (length (frame_index f)) as [|n] eqn:Hn; [discriminate|].
  injection Hlast as <-.
  rewrite <- (take_drop n (row_totals f)) at 1.
  rewrite sum_list_Z_app. unfold steps_total, drop_last. rewrite Hlen.
  replace (S n - 1) with n by lia. f_equal.
  assert (Hd : drop n (row_totals f) = [sum_values (iloc_row f n)]).
  { apply list_eq. intros j. rewrite lookup_drop.
    destruct j as [|j].
    - rewrite Nat.add_0_r, row_totals_lookup by lia. reflexivity.
    - simpl. apply lookup_ge_None. lia. }
  rewrite Hd. unfold sum_list_Z. simpl. lia.
Qed.

Lemma frame_sum_sum_axis0 (f : Frame Z) : frame_sum f = wrap64 <$> sum_axis0 f.
Proof.
  unfold frame_sum, sum_axis0. now rewrite <- map_fmap_compose.
Qed.

(** The column sums of pandas have the total of the table, wrapped. *)
Lemma frame_sum_total (f : Frame Z) (last_row : Z) :
  frame_rectangular f ->
  sum_last_row f = Ok last_row ->
  wrap64 (sum_values (frame_sum f)) = wrap64 (steps_total f + last_row).
Proof.
  intros Hrect Hlast.
  now rewrite frame_sum_sum_axis0, wrap64_sum_values,
    (sum_axis0_split f last_row Hrect Hlast).
Qed.

(** They are the column sums themselves in a table of non-negative cells
    whose total is [2^53] at most. *)
Lemma frame_sum_exact (f : Frame Z) (last_row : Z) :
  frame_rectangular f -> cells_nonneg f ->
  sum_last_row f = Ok last_row ->
  (steps_total f + last_row <= 2 ^ 53)%Z ->
  map_Forall (fun _ v => (0 <= v)%Z) (frame_sum f) /\
  sum_values (frame_sum f) = (steps_total f + last_row)%Z.
Proof.
  intros Hrect Hnn Hlast Hb.
  pose proof (sum_axis0_split f last_row Hrect Hlast) as Hsplit.
  assert (Hcols : map_Forall (fun _ v => (0 <= v)%Z) (sum_axis0 f)).
  { intros k v Hk. unfold sum_axis0 in Hk. rewrite lookup_fmap in Hk.
    destruct (frame_data f !! k) as [col|] eqn:Hcol; [|discriminate].
    simpl in Hk. injection Hk as <-.
    apply sum_list_Z_nonneg. exact (Hnn k col Hcol). }
  assert (Heq : frame_sum f = sum_axis0 f).
  { rewrite frame_sum_sum_axis0. apply map_eq. intros k.
    rewrite lookup_fmap.
    destruct (sum_axis0 f !! k) as [v|] eqn:Hk; [|reflexivity].
    simpl. f_equal. apply wrap64_small.
    assert (0 <= v)%Z by exact (Hcols k v Hk).
    pose proof (sum_values_ge_lookup (sum_axis0 f) k v Hcols Hk). lia. }
  rewrite Heq. split; [exact Hcols | exact Hsplit].
Qed.

Lemma dom_frame_sum (f : Frame Z) : dom (frame_sum f) = dom (frame_data f).
Proof. unfold frame_sum. apply dom_fmap_L. Qed.

Lemma misclassification_frame_rectangular (series : list (gmap nat Z))
    (model_accuracies : list Q) (scale : Z) (sel m0 : Frame Z) :
  format_as_dataframe series = Ok sel ->
  create_misclassification_df sel model_accuracies = Ok m0 ->
  frame_rectangular (frame_scale m0 scale) /\
  frame_index (frame_scale m0 scale)
  = (Step <$> seq 0 (length series)) ++ [Totals].
Proof.
  intros Hsel Hm0.
  assert (Hidx : frame_index (frame_scale m0 scale)
                 = (Step <$> seq 0 (length series)) ++ [Totals]).
  { apply (misclassifications_index series model_accuracies scale).
    unfold misclassifications. rewrite Hsel. simpl. rewrite Hm0. reflexivity. }
  split; [|exact Hidx].
  intros k col Hk.
  change (length col = length (frame_index (frame_scale m0 scale))).
  rewrite Hidx.
  rewrite (scaled_misclassification_lookup sel m0 model_accuracies scale k Hm0)
    in Hk.
  destruct (format_as_dataframe_inv series sel Hsel) as (_ & _ & Hl).
  rewrite Hl in Hk.
  destruct (decide (k ∈ all_keys series)); [|discriminate].
  simpl in Hk. injection Hk as <-.
  rewrite length_fmap, !length_app, length_step_counts, length_fmap, length_seq.
  reflexivity.
Qed.

Section CalculatorProperties.

Context {G : Type} {RS : RandomSource G} {FS : Float64Sum}.

Lemma selected_and_misclassified_inv (series : list (gmap nat Z))
    (accs : list Q) (q n r : Z) (sel m : Frame Z) :
  selected_and_misclassified series accs q n r = Ok (sel, m) ->
  exists (m0 : Frame Z) (scale : Z),
    format_as_dataframe series = Ok sel /\
    create_misclassification_df sel accs = Ok m0 /\
    scale_factor q n r = Ok scale /\
    m = frame_scale m0 scale /\
    misclassifications series accs scale = Ok m.
Proof.
  unfold selected_and_misclassified, misclassifications. intros H.
  destruct (format_as_dataframe series) as [sel'|] eqn:Hsel; [|discriminate].
  simpl in *.
  destruct (create_misclassification_df sel' accs) as [m0|] eqn:Hm0;
    [|discriminate].
  simpl in *.
  destruct (scale_factor q n r) as [scale|] eqn:Hscale; [|discriminate].
  simpl in *. injection H as <- <-. exists m0, scale.
  rewrite Hm0. repeat split.
Qed.

Lemma calculator_inv (cost : Z) (T : nat) (rewards requests : Z)
    (accs : list Q) (g : G) (c : Calculator) (g' : G) :
  calculator cost T rewards requests accs g = Ok (c, g') ->
  exists (ts_series control_series : list (gmap nat Z)) (g1 : G),
    generate_ts_time_series accs T rewards g = Ok (ts_series, g1) /\
    generate_control_time_series accs T rewards g1 = Ok (control_series, g') /\
    selected_and_misclassified ts_series accs requests
      (Z.of_nat (length accs)) rewards
      = Ok (app_ts_bandit_selected c, app_ts_misclassifications c) /\
    selected_and_misclassified control_series accs requests
      (Z.of_nat (length accs)) rewards
      = Ok (app_control_bandit_selected c, app_control_misclassifications c) /\
    cost_incurred (app_ts_misclassifications c)
                  (app_control_misclassifications c) cost
      = Ok (app_cost_incurred c) /\
    app_ts_cumsum c = cumulative_cost (app_ts_misclassifications c) cost /\
    app_control_cumsum c
      = cumulative_cost (app_control_misclassifications c) cost /\
    app_totals c
      = totals_of
          (kmap (M2:=gmap nat) S
             (concat_axis1 (frame_sum (app_control_misclassifications c))
                           (frame_sum (app_ts_misclassifications c)))).
Proof.
  unfold calculator. intros H.
  destruct (generate_ts_time_series accs T rewards g) as [[ts g1]|] eqn:Hts;
    [|discriminate].
  simpl in H.
  destruct (selected_and_misclassified ts accs requests _ rewards)
    as [[tsel tm]|] eqn:Htm; [|discriminate].
  simpl in H.
  destruct (generate_control_time_series accs T rewards g1) as [[ctl g2]|]
    eqn:Hctl; [|discriminate].
  simpl in H.
  destruct (selected_and_misclassified ctl accs requests _ rewards)
    as [[csel cm]|] eqn:Hcm; [|discriminate].
  simpl in H.
  destruct (cost_incurred tm cm cost) as [ci|] eqn:Hci; [|discriminate].
  simpl in H. injection H as <- <-.
  exists ts, ctl, g1. cbn [app_ts_bandit_selected app_ts_misclassifications
    app_control_bandit_selected app_control_misclassifications
    app_cost_incurred app_ts_cumsum app_control_cumsum app_totals].
  repeat split; try assumption; try reflexivity.
Qed.

End CalculatorProperties.

Lemma sum_last_row_ok (f : Frame Z) :
  frame_index f <> [] -> exists total, sum_last_row f = Ok total.
Proof.
  intros Hne. unfold sum_last_row.
  destruct (frame_index f) as [|l idx]; [congruence|]. simpl. eauto.
Qed.

Section SelectedTables.

Context {FS : Float64Sum}.

Lemma selected_and_misclassified_ok (series : list (gmap nat Z))
    (accs : list Q) (q r : Z) :
  all_keys series <> ∅ ->
  all_keys series ⊆ set_seq 0 (length accs) ->
  accs <> [] -> r <> 0%Z ->
  exists sel m : Frame Z,
    selected_and_misclassified series accs q (Z.of_nat (length accs)) r
      = Ok (sel, m) /\
    frame_index m = (Step <$> seq 0 (length series)) ++ [Totals].
Proof.
  intros Hne Hsub Haccs Hr.
  destruct (format_as_dataframe_spec series Hne) as (sel & Hsel & Hidx & Hl).
  destruct (create_misclassification_df_spec sel accs) as (m0 & Hm0 & _).
  { intros k Hk. apply elem_of_dom in Hk. destruct Hk as [col Hk].
    rewrite Hl in Hk. destruct (decide (k ∈ all_keys series)) as [Hin|];
      [|discriminate].
    apply Hsub, elem_of_set_seq in Hin. simpl. lia. }
  assert (Hscale : exists scale,
            scale_factor q (Z.of_nat (length accs)) r = Ok scale).
  { unfold scale_factor, floordiv.
    rewrite decide_False by (destruct accs; [congruence | simpl; lia]).
    simpl. rewrite decide_False by assumption. eauto. }
  destruct Hscale as [scale Hscale].
  exists sel, (frame_scale m0 scale). unfold selected_and_misclassified.
  rewrite Hsel. simpl. rewrite Hm0. simpl. rewrite Hscale. simpl.
  split; [reflexivity|].
  now destruct (misclassification_frame_rectangular series accs scale sel m0
                  Hsel Hm0).
Qed.

End SelectedTables.

Section CalculatorTheorems.

Context {G : Type} {RS : RandomSource G} {RSL : RandomSourceLaws G}.
Context {FS : Float64Sum} {FSL : Float64SumLaws}.

(** X16. The series [totals] of line 105 sums each column of the
    misclassification tables over all their rows, the Totals row included,
    while the financial benefit is the difference of the two headline
    totals (the Totals rows alone) times the cost. When the Thompson
    Sampling table has a column for every model the two totals are
    [int64] values: the sum of the cells of the time steps plus the
    headline total, wrapped. When the cells are non-negative and sum to
    [2^53] at most, the totals are these sums whatever their dtype. *)
Theorem totals_series_includes_the_totals_row (COST_OF_FAILURE : Z)
    (TIME_SERIES_LENGTH : nat) (NO_OF_REWARDS NO_OF_REQUESTS : Z)
    (MODEL_ACCURACIES : list Q) (g : G) (c : Calculator) (g' : G) :
  calculator COST_OF_FAILURE TIME_SERIES_LENGTH NO_OF_REWARDS NO_OF_REQUESTS
             MODEL_ACCURACIES g = Ok (c, g') ->
  exists total_control total_ts : Z,
    sum_last_row (app_control_misclassifications c) = Ok total_control /\
    sum_last_row (app_ts_misclassifications c) = Ok total_ts /\
    app_cost_incurred c = ((total_control - total_ts) * COST_OF_FAILURE)%Z /\
    (dom (frame_data (app_ts_misclassifications c))
     = dom (frame_data (app_control_misclassifications c)) ->
     app_totals c
     = (Int64 (wrap64 (steps_total (app_control_misclassifications c)
                       + total_control)),
        Int64 (wrap64 (steps_total (app_ts_misclassifications c)
                       + total_ts)))) /\
    (cells_nonneg (app_control_misclassifications c) ->
     cells_nonneg (app_ts_misclassifications c) ->
     (steps_total (app_control_misclassifications c) + total_control
      <= 2 ^ 53)%Z ->
     (steps_total (app_ts_misclassifications c) + total_ts <= 2 ^ 53)%Z ->
     (number_value (app_totals c).1
      == inject_Z (steps_total (app_control_misclassifications c)
                   + total_control))%Q /\
     (number_value (app_totals c).2
      == inject_Z (steps_total (app_ts_misclassifications c) + total_ts))%Q).
Proof.
  intros Hrun.
  destruct (calculator_inv _ _ _ _ _ _ _ _ Hrun)
    as (ts & ctl & g1 & _ & _ & Hts & Hctl & Hcost & _ & _ & Htotals).
  destruct (selected_and_misclassified_inv _ _ _ _ _ _ _ Hts)
    as (tm0 & tscale & Htsel & Htm0 & _ & Htm & _).
  destruct (selected_and_misclassified_inv _ _ _ _ _ _ _ Hctl)
    as (cm0 & cscale & Hcsel & Hcm0 & _ & Hcm & _).
  assert (Hcrect : frame_rectangular (app_control_misclassifications c)).
  { rewrite Hcm.
    now destruct (misclassification_frame_rectangular ctl MODEL_ACCURACIES
                    cscale _ cm0 Hcsel Hcm0). }
  assert (Htrect : frame_rectangular (app_ts_misclassifications c)).
  { rewrite Htm.
    now destruct (misclassification_frame_rectangular ts MODEL_ACCURACIES
                    tscale _ tm0 Htsel Htm0). }
  unfold cost_incurred in Hcost.
  destruct (sum_last_row (app_ts_misclassifications c)) as [ht|] eqn:Hht;
    [|discriminate].
  simpl in Hcost.
  destruct (sum_last_row (app_control_misclassifications c)) as [hc|] eqn:Hhc;
    [|discriminate].
  simpl in Hcost. injection Hcost as Hcost.
  exists hc, ht. split; [reflexivity|]. split; [reflexivity|].
  split; [now rewrite <- Hcost|]. split.
  - intros Hdom. rewrite Htotals, totals_of_int64
      by (now rewrite !dom_frame_sum).
    now rewrite (frame_sum_total _ hc Hcrect Hhc),
      (frame_sum_total _ ht Htrect Hht).
  - intros Hcnn Htnn Hcb Htb.
    destruct (frame_sum_exact _ hc Hcrect Hcnn Hhc Hcb) as [Hca Hcs].
    destruct (frame_sum_exact _ ht Htrect Htnn Hht Htb) as [Hta Hts'].
    rewrite Htotals, <- Hcs, <- Hts'.
    apply totals_of_exact; try assumption; lia.
Qed.

(** X17. The calculation runs to its end on what the form allows: for
    accuracies within [[0,1]], one model, one time step and one reward
    request at least (fewer than [2^51]), whatever the number of requests
    and the cost, no exception is raised, and both cumulative cost series
    have one entry per time step. *)
Theorem calculator_runs (COST_OF_FAILURE : Z) (TIME_SERIES_LENGTH : nat)
    (NO_OF_REWARDS NO_OF_REQUESTS : Z) (MODEL_ACCURACIES : list Q) (g : G) :
  accuracies_ok MODEL_ACCURACIES -> MODEL_ACCURACIES <> [] ->
  1 <= TIME_SERIES_LENGTH -> (1 <= NO_OF_REWARDS < 2 ^ 51)%Z ->
  exists (c : Calculator) (g' : G),
    calculator COST_OF_FAILURE TIME_SERIES_LENGTH NO_OF_REWARDS NO_OF_REQUESTS
               MODEL_ACCURACIES g = Ok (c, g') /\
    length (app_ts_cumsum c) = TIME_SERIES_LENGTH /\
    length (app_control_cumsum c) = TIME_SERIES_LENGTH.
Proof.
  intros Ha Hne HT Hr.
  assert (Hzero : state_ok (length MODEL_ACCURACIES)
                    (replicate (length MODEL_ACCURACIES) 0%Z)).
  { split; [now rewrite length_replicate|]. apply Forall_replicate. lia. }
  destruct (ts_time_series_loop_keys MODEL_ACCURACIES NO_OF_REWARDS Ha Hne)
    with (steps := TIME_SERIES_LENGTH) (results_list := @nil (gmap nat Z))
         (rewards := replicate (length MODEL_ACCURACIES) 0%Z)
         (penalties := replicate (length MODEL_ACCURACIES) 0%Z) (g := g)
    as (ts & g1 & Hts & Hlts & Hall); try assumption; [lia|].
  simpl in Hts.
  assert (Hm : exists m : gmap nat Z,
             (forall i, m !! i
                = if decide (i < length MODEL_ACCURACIES)
                  then Some (even_split NO_OF_REWARDS
                               (Z.of_nat (length MODEL_ACCURACIES)) i)
                  else None)).
  { exists (map_imap (fun i _ => Some (even_split NO_OF_REWARDS
                        (Z.of_nat (length MODEL_ACCURACIES)) i))
                     (fill 0%Z (length MODEL_ACCURACIES))).
    intros i. rewrite map_lookup_imap, fill_lookup.
    destruct (decide (i < length MODEL_ACCURACIES)); reflexivity. }
  destruct Hm as [m Hm].
  destruct (control_time_series_loop_constant MODEL_ACCURACIES NO_OF_REWARDS m
              Ha Hne) with (steps := TIME_SERIES_LENGTH)
                           (results_list := @nil (gmap nat Z)) (g := g1)
    as (g2 & Hctl); [lia | exact Hm |].
  simpl in Hctl.
  assert (HN : 1 <= length MODEL_ACCURACIES).
  { destruct MODEL_ACCURACIES; [congruence | simpl; lia]. }
  (* the Thompson Sampling series *)
  destruct (selected_and_misclassified_ok ts MODEL_ACCURACIES NO_OF_REQUESTS
              NO_OF_REWARDS) as (tsel & tm & Htm & Htidx); try assumption;
    try lia.
  { destruct ts as [|d ts']; [simpl in Hlts; lia|].
    apply Forall_cons in Hall. destruct Hall as [(Hsum & _ & _) _].
    intros He.
    assert (Hd : d = ∅).
    { apply map_eq. intros k. rewrite lookup_empty.
      apply not_elem_of_dom. intros Hk.
      assert (Hin : k ∈ all_keys (d :: ts'))
        by (apply (dom_subseteq_all_keys (d :: ts') 0 d eq_refl), Hk).
      rewrite He in Hin. now apply not_elem_of_empty in Hin. }
    rewrite Hd, sum_values_empty in Hsum. lia. }
  { intros k Hk. unfold all_keys in Hk. apply elem_of_union_list in Hk.
    destruct Hk as (X & HX & Hk). apply list_elem_of_fmap in HX.
    destruct HX as (d & -> & Hd). rewrite Forall_forall in Hall.
    destruct (Hall d Hd) as (_ & Hdom & _). now apply Hdom. }
  (* the control series *)
  assert (Hdomm : dom m = set_seq 0 (length MODEL_ACCURACIES)).
  { apply set_eq. intros i. rewrite elem_of_dom, elem_of_set_seq, Hm.
    destruct (decide (i < length MODEL_ACCURACIES)) as [Hi|Hi]; split.
    - intros _. lia.
    - intros _. eexists. reflexivity.
    - intros [? Hx]. discriminate.
    - intros Hx. lia. }
  destruct (selected_and_misclassified_ok
              (replicate TIME_SERIES_LENGTH m) MODEL_ACCURACIES NO_OF_REQUESTS
              NO_OF_REWARDS) as (csel & cm & Hcm & Hcidx); try assumption;
    try lia.
  { rewrite all_keys_replicate, Hdomm by lia. intros He.
    assert (Hin : 0 ∈ (set_seq 0 (length MODEL_ACCURACIES) : gset nat))
      by (apply elem_of_set_seq; lia).
    rewrite He in Hin. now apply not_elem_of_empty in Hin. }
  { rewrite all_keys_replicate, Hdomm by lia. reflexivity. }
  destruct (sum_last_row_ok tm) as [ht Hht].
  { rewrite Htidx. intros He. now apply app_eq_nil in He as [_ ?]. }
  destruct (sum_last_row_ok cm) as [hc Hhc].
  { rewrite Hcidx. intros He. now apply app_eq_nil in He as [_ ?]. }
  eexists. exists g2. unfold calculator, generate_ts_time_series,
    generate_control_time_series.
  rewrite Hts. simpl. rewrite Htm. simpl. rewrite Hctl. simpl.
  rewrite Hcm. simpl. unfold cost_incurred. rewrite Hht, Hhc. simpl.
  split; [reflexivity|].
  cbn [app_ts_cumsum app_control_cumsum].
  rewrite !length_cumulative_cost, Htidx, Hcidx.
  rewrite !length_app, !length_fmap, !length_seq, length_replicate, Hlts.
  simpl. lia.
Qed.

(** X18. When every model has accuracy 1 nothing is misclassified under
    either strategy: the financial benefit is 0, both cumulative cost
    series hold only zeros, and the two totals of line 105 are 0. *)
Theorem perfect_models_cost_nothing (COST_OF_FAILURE : Z)
    (TIME_SERIES_LENGTH : nat) (NO_OF_REWARDS NO_OF_REQUESTS : Z)
    (MODEL_ACCURACIES : list Q) (g : G) (c : Calculator) (g' : G) :
  calculator COST_OF_FAILURE TIME_SERIES_LENGTH NO_OF_REWARDS NO_OF_REQUESTS
             MODEL_ACCURACIES g = Ok (c, g') ->
  Forall (fun a => (a == 1)%Q) MODEL_ACCURACIES ->
  app_cost_incurred c = 0%Z /\
  Forall (fun v => v = 0%Z) (app_ts_cumsum c) /\
  Forall (fun v => v = 0%Z) (app_control_cumsum c) /\
  (number_value (app_totals c).1 == 0)%Q /\
  (number_value (app_totals c).2 == 0)%Q.
Proof.
  intros Hrun Hone.
  destruct (calculator_inv _ _ _ _ _ _ _ _ Hrun)
    as (ts & ctl & g1 & _ & _ & Hts & Hctl & Hcost & Htc & Hcc & Htotals).
  assert (Hzero : forall series sel m,
            selected_and_misclassified series MODEL_ACCURACIES NO_OF_REQUESTS
              (Z.of_nat (length MODEL_ACCURACIES)) NO_OF_REWARDS = Ok (sel, m) ->
            cells_zero m /\ frame_index m <> []).
  { intros series sel m Hsm.
    destruct (selected_and_misclassified_inv _ _ _ _ _ _ _ Hsm)
      as (m0 & scale & Hsel & Hm0 & _ & -> & Hmis).
    split.
    - intros k col Hk.
      rewrite (scaled_misclassification_lookup sel m0 MODEL_ACCURACIES scale k
                 Hm0) in Hk.
      destruct (frame_data sel !! k) as [col0|] eqn:Hcol0; [|discriminate].
      simpl in Hk. injection Hk as <-. simpl.
      apply Forall_fmap, Forall_true. intros cnt. simpl.
      assert (Hk : k < length MODEL_ACCURACIES).
      { unfold create_misclassification_df in Hm0.
        destruct (decide _) as [Hkeys|]; [|discriminate].
        apply (Hkeys k). apply elem_of_dom. eauto. }
      destruct (lookup_lt_is_Some_2 MODEL_ACCURACIES k Hk) as [a Ha].
      rewrite Ha. simpl. rewrite Forall_lookup in Hone.
      rewrite (misclassified_accuracy_one cnt a (Hone k a Ha)). reflexivity.
    - rewrite (misclassifications_index series MODEL_ACCURACIES scale _ Hmis).
      intros He. now apply app_eq_nil in He as [_ ?]. }
  destruct (Hzero _ _ _ Hts) as [Htz Htne].
  destruct (Hzero _ _ _ Hctl) as [Hcz Hcne].
  destruct (cells_zero_totals _ COST_OF_FAILURE Htz) as (Htcum & Htlast & Htsum).
  destruct (cells_zero_totals _ COST_OF_FAILURE Hcz) as (Hccum & Hclast & Hcsum).
  unfold cost_incurred in Hcost.
  rewrite (Htlast Htne), (Hclast Hcne) in Hcost. simpl in Hcost.
  injection Hcost as <-.
  split; [reflexivity|]. rewrite Htc, Hcc, Htotals.
  split; [exact Htcum|]. split; [exact Hccum|].
  destruct (totals_of_exact
              (frame_sum (app_control_misclassifications c))
              (frame_sum (app_ts_misclassifications c))) as [H1 H2].
  - eapply map_Forall_impl; [exact Hcsum|]. intros k v ->. simpl. lia.
  - eapply map_Forall_impl; [exact Htsum|]. intros k v ->. simpl. lia.
  - rewrite (sum_values_zero _ Hcsum). lia.
  - rewrite (sum_values_zero _ Htsum). lia.
  - rewrite (sum_values_zero _ Hcsum) in H1.
    rewrite (sum_values_zero _ Htsum) in H2. split; assumption.
Qed.

End CalculatorTheorems.

(** ** The further statements on concrete inputs *)

Lemma example_accuracies_ok : accuracies_ok [1 # 2; 9 # 10]%Q.
Proof. unfold accuracies_ok. repeat constructor; discriminate. Qed.

(** A witness of X1. *)
Lemma ts_time_series_steps_witness :
  exists (results_list : list (gmap nat Z)) (g' : list Q),
    generate_ts_time_series [1 # 2; 9 # 10]%Q 2 3 example_tape
      = Ok (results_list, g') /\
    length results_list = 2 /\
    Forall (fun counts : gmap nat Z =>
              sum_values counts = 3%Z /\
              dom counts ⊆ set_seq 0 2 /\
              map_Forall (fun _ v => (1 <= v)%Z) counts) results_list.
Proof.
  apply (ts_time_series_steps [1 # 2; 9 # 10]%Q 2 3 example_tape).
  - exact example_accuracies_ok.
  - discriminate.
  - lia.
Defined.

(** A witness of X2: 7 rewards over two models, three times. *)
Lemma control_time_series_constant_witness :
  exists (m : gmap nat Z) (g' : list Q),
    generate_control_time_series [1 # 2; 9 # 10]%Q 3 7 example_tape
      = Ok (replicate 3 m, g') /\
    m !! 0 = Some 4%Z /\ m !! 1 = Some 3%Z.
Proof.
  destruct (control_time_series_constant [1 # 2; 9 # 10]%Q 3 7 example_tape)
    as (m & g' & Hrun & _ & Hm).
  - exact example_accuracies_ok.
  - discriminate.
  - split; [lia | vm_compute; reflexivity].
  - exists m, g'. split; [exact Hrun|]. split.
    + rewrite (Hm 0) by (simpl; lia). reflexivity.
    + rewrite (Hm 1) by (simpl; lia). reflexivity.
Defined.

(** A witness of X3. *)
Lemma simulated_rewards_are_binary_witness :
  exists (data : DataFrame) (g' : list Q),
    create_simulated_reward_data [1 # 2; 9 # 10]%Q 3 example_tape
      = Ok (data, g') /\
    length (columns data) = 2 /\
    exists v, values_at data 2 1 = Ok v /\ (v = 0%Z \/ v = 1%Z).
Proof.
  destruct (simulated_rewards_are_binary [1 # 2; 9 # 10]%Q 3 example_tape)
    as (data & g' & Hrun & Hlen & Hcells).
  - exact example_accuracies_ok.
  - lia.
  - exists data, g'. split; [exact Hrun|]. split; [exact Hlen|].
    apply Hcells; simpl; lia.
Defined.

(** A witness of X4. *)
Lemma thompson_counters_never_decrease_witness :
  exists (counts : gmap nat Z) (rewards' penalties' : list Z) (g' : list Q),
    thompson_sampling_experiment example_batch [1 # 2; 9 # 10]%Q
                                 [0%Z; 0%Z] [0%Z; 0%Z] example_tape
      = Ok (counts, rewards', penalties', g') /\
    length rewards' = 2 /\ length penalties' = 2 /\
    (0 <= default 0%Z (rewards' !! 0%nat))%Z.
Proof.
  destruct (thompson_counters_never_decrease example_batch [1 # 2; 9 # 10]%Q
              [0%Z; 0%Z] [0%Z; 0%Z] example_tape example_ts_valid)
    as (counts & r' & p' & g' & Hrun & Hlr & Hlp & Hmono).
  exists counts, r', p', g'. split; [exact Hrun|].
  split; [exact Hlr|]. split; [exact Hlp|].
  exact (proj1 (Hmono 0%nat)).
Defined.

(** A witness of X5: in a batch whose first column holds only 1 the first
    model gets no penalty. *)
Lemma thompson_column_decides_counter_witness :
  exists (counts : gmap nat Z) (rewards' penalties' : list Z) (g' : list Q),
    thompson_sampling_experiment
      (DataFrame_of_columns [[1%Z; 1%Z; 1%Z]; [0%Z; 0%Z; 0%Z]])
      [1 # 2; 9 # 10]%Q [0%Z; 0%Z] [0%Z; 0%Z] example_tape
      = Ok (counts, rewards', penalties', g') /\
    penalties' !! 0%nat = Some 0%Z /\ rewards' !! 1%nat = Some 0%Z.
Proof.
  assert (Hvalid : ts_valid
            (DataFrame_of_columns [[1%Z; 1%Z; 1%Z]; [0%Z; 0%Z; 0%Z]])
            [1 # 2; 9 # 10]%Q [0%Z; 0%Z] [0%Z; 0%Z]).
  { unfold ts_valid, state_ok, rectangular. simpl.
    repeat split; try lia; repeat constructor; lia. }
  destruct (thompson_column_decides_counter _ _ _ _ example_tape 0%nat
              [1%Z; 1%Z; 1%Z] Hvalid eq_refl)
    as (counts & r' & p' & g' & Hrun & Hones & _).
  destruct (thompson_column_decides_counter _ _ _ _ example_tape 1%nat
              [0%Z; 0%Z; 0%Z] Hvalid eq_refl)
    as (counts2 & r2 & p2 & g2 & Hrun2 & _ & Hzeros).
  rewrite Hrun in Hrun2. injection Hrun2 as <- <- <- <-.
  exists counts, r', p', g'. split; [exact Hrun|]. split.
  - apply Hones. repeat constructor.
  - apply Hzeros. repeat constructor; discriminate.
Defined.

(** A witness of X6. *)
Lemma control_experiment_raises_only_without_models_witness :
  control_experiment example_batch [] = Raise ZeroDivisionError.
Proof.
  apply (control_experiment_raises_only_without_models example_batch []).
  - vm_compute. reflexivity.
  - split; reflexivity.
Defined.

(** A witness of X7: a series of two steps with different keys. *)
Lemma normalization_keeps_step_totals_witness :
  exists f : Frame Z,
    format_as_dataframe [ {[0 := 1%Z]}; {[0 := 2%Z; 1 := 3%Z]} ] = Ok f /\
    sum_values (iloc_row f 0) = 1%Z.
Proof.
  destruct (format_as_dataframe [ {[0 := 1%Z]}; {[0 := 2%Z; 1 := 3%Z]} ])
    as [f|e] eqn:Hf; [|vm_compute in Hf; discriminate].
  exists f. split; [reflexivity|].
  destruct (normalization_keeps_step_totals _ f 0 {[0 := 1%Z]} Hf eq_refl)
    as [_ Hsum].
  rewrite Hsum. vm_compute. reflexivity.
Defined.

(** A witness of X8. *)
Lemma totals_row_is_grand_total_witness :
  exists f : Frame Z,
    format_as_dataframe [ {[0 := 1%Z]}; {[0 := 2%Z; 1 := 3%Z]} ] = Ok f /\
    sum_values (iloc_row f 2) = 6%Z.
Proof.
  destruct (format_as_dataframe [ {[0 := 1%Z]}; {[0 := 2%Z; 1 := 3%Z]} ])
    as [f|e] eqn:Hf; [|vm_compute in Hf; discriminate].
  exists f. split; [reflexivity|].
  destruct (totals_row_is_grand_total _ f Hf) as [_ Hsum].
  simpl length in Hsum. rewrite Hsum. vm_compute. reflexivity.
Defined.


(** A witness of X9. *)
Lemma create_misclassification_df_shape_witness :
  exists m : Frame Z,
    create_misclassification_df example_table [1 # 2]%Q = Ok m /\
    dom (frame_data m) = dom (frame_data example_table).
Proof.
  destruct (proj1 (create_misclassification_df_shape example_table
                     [1 # 2]%Q)) as (m & Hm & Hdom & _).
  - unfold example_table. simpl. rewrite dom_singleton_L.
    intros k Hk. apply elem_of_singleton in Hk. subst k. simpl. lia.
  - exists m. split; [exact Hm | exact Hdom].
Defined.

(** A witness of X10. *)
Lemma misclassifications_within_allocations_witness :
  exists (m : Frame Z) (v : Z),
    create_misclassification_df example_table [1 # 2]%Q = Ok m /\
    cell (frame_scale m 3) 1 0 = Some v /\ (0 <= v <= 6 * 3)%Z.
Proof.
  destruct (create_misclassification_df example_table [1 # 2]%Q)
    as [m|e] eqn:Hm; [|vm_compute in Hm; discriminate].
  destruct (misclassifications_within_allocations example_table m
              [1 # 2]%Q 3 1 0 6 (1 # 2)%Q Hm)
    as (v & Hv & Hbound).
  - vm_compute. reflexivity.
  - reflexivity.
  - lia.
  - discriminate.
  - discriminate.
  - lia.
  - lia.
  - exists m, v. split; [reflexivity|]. split; [exact Hv | exact Hbound].
Defined.

(** A witness of X11. *)
Lemma misclassifications_of_extreme_accuracies_witness :
  exists m : Frame Z,
    create_misclassification_df example_table [1 # 1]%Q = Ok m /\
    cell (frame_scale m 3) 1 0 = Some 0%Z.
Proof.
  destruct (create_misclassification_df example_table [1 # 1]%Q)
    as [m|e] eqn:Hm; [|vm_compute in Hm; discriminate].
  exists m. split; [reflexivity|].
  apply (misclassifications_of_extreme_accuracies example_table m
           [1 # 1]%Q 3 1 0 6 (1 # 1)%Q Hm).
  - vm_compute. reflexivity.
  - reflexivity.
  - reflexivity.
Defined.

(** A witness of X12. *)
Lemma scale_factor_cases_witness :
  scale_factor 1000 2 10 = Ok (1000 / (2 * 10))%Z /\
  scale_factor 1000 0 10 = Raise ZeroDivisionError.
Proof.
  split.
  - apply (scale_factor_cases 1000 2 10); lia.
  - apply (scale_factor_cases 1000 0 10). left. reflexivity.
Defined.

(** A witness of X13. *)
Lemma zero_scale_zeroes_the_projection_witness :
  exists m : Frame Z,
    misclassifications [ {[0%nat := 1%Z]}; {[0%nat := 2%Z; 1%nat := 3%Z]} ]
                       [1 # 2; 9 # 10]%Q 0 = Ok m /\
    sum_last_row m = Ok 0%Z.
Proof.
  destruct (misclassifications
              [ {[0%nat := 1%Z]}; {[0%nat := 2%Z; 1%nat := 3%Z]} ]
              [1 # 2; 9 # 10]%Q 0) as [m|e] eqn:Hm;
    [|vm_compute in Hm; discriminate].
  exists m. split; [reflexivity|].
  exact (proj1 (proj2 (zero_scale_zeroes_the_projection _ _ 7 m Hm))).
Defined.

(** A witness of X14. *)
Lemma cumulative_cost_prefix_sums_witness :
  cumulative_cost example_table 3 !! 1%nat = Some 30%Z.
Proof.
  destruct (cumulative_cost_prefix_sums example_table 3 1) as (_ & _ & Hexact).
  - simpl. lia.
  - rewrite Hexact; vm_compute; [reflexivity | split; [discriminate | reflexivity]].
Defined.

(** A witness of X15. *)
Lemma constant_series_cost_is_linear_witness :
  exists m : Frame Z,
    misclassifications (replicate 3 {[0%nat := 4%Z; 1%nat := 3%Z]})
                       [1 # 2; 9 # 10]%Q 2 = Ok m /\
    cumulative_cost m 5 !! 1%nat
    = Some (2 * step_misclassifications [1 # 2; 9 # 10]%Q 2
                  {[0%nat := 4%Z; 1%nat := 3%Z]}
            * 5)%Z.
Proof.
  destruct (misclassifications (replicate 3 {[0%nat := 4%Z; 1%nat := 3%Z]})
                               [1 # 2; 9 # 10]%Q 2) as [m|e] eqn:Hm;
    [|vm_compute in Hm; discriminate].
  exists m. split; [reflexivity|].
  apply (constant_series_cost_is_linear 3 _ _ 2 5 m 1 Hm).
  - lia.
  - vm_compute. split; [discriminate | reflexivity].
Defined.

(** A witness of X16. *)
Lemma totals_series_includes_the_totals_row_witness :
  exists (c : Calculator) (g' : list Q) (total_control total_ts : Z),
    calculator 25 2 3 1000 [1 # 2; 9 # 10]%Q example_tape = Ok (c, g') /\
    sum_last_row (app_control_misclassifications c) = Ok total_control /\
    sum_last_row (app_ts_misclassifications c) = Ok total_ts /\
    app_cost_incurred c = ((total_control - total_ts) * 25)%Z /\
    (number_value (app_totals c).1
     == inject_Z (steps_total (app_control_misclassifications c)
                  + total_control))%Q.
Proof.
  destruct (calculator 25 2 3 1000 [1 # 2; 9 # 10]%Q example_tape)
    as [[c g']|e] eqn:Hrun; [|vm_compute in Hrun; discriminate].
  destruct (totals_series_includes_the_totals_row 25 2 3 1000
              [1 # 2; 9 # 10]%Q example_tape c g' Hrun)
    as (tc & tt & Hc & Ht & Hcost & _ & Hexact).
  exists c, g', tc, tt. split; [reflexivity|].
  split; [exact Hc|]. split; [exact Ht|]. split; [exact Hcost|].
  vm_compute in Hrun. injection Hrun as <- <-.
  vm_compute in Hc. injection Hc as <-.
  vm_compute in Ht. injection Ht as <-.
  apply Hexact.
  - apply (bool_decide_unpack _). vm_compute. exact I.
  - apply (bool_decide_unpack _). vm_compute. exact I.
  - vm_compute. discriminate.
  - vm_compute. discriminate.
Defined.

(** A witness of X17. *)
Lemma calculator_runs_witness :
  exists (c : Calculator) (g' : list Q),
    calculator 25 2 3 1000 [1 # 2; 9 # 10]%Q example_tape = Ok (c, g') /\
    length (app_ts_cumsum c) = 2 /\ length (app_control_cumsum c) = 2.
Proof.
  apply (calculator_runs 25 2 3 1000 [1 # 2; 9 # 10]%Q example_tape).
  - exact example_accuracies_ok.
  - discriminate.
  - lia.
  - split; [lia | vm_compute; reflexivity].
Defined.

(** A witness of X18. *)
Lemma perfect_models_cost_nothing_witness :
  exists (c : Calculator) (g' : list Q),
    calculator 25 2 3 1000 [1 # 1; 1 # 1]%Q example_tape = Ok (c, g') /\
    app_cost_incurred c = 0%Z /\
    (number_value (app_totals c).1 == 0)%Q /\
    (number_value (app_totals c).2 == 0)%Q.
Proof.
  destruct (calculator 25 2 3 1000 [1 # 1; 1 # 1]%Q example_tape)
    as [[c g']|e] eqn:Hrun; [|vm_compute in Hrun; discriminate].
  destruct (perfect_models_cost_nothing 25 2 3 1000 [1 # 1; 1 # 1]%Q
              example_tape c g' Hrun) as (Hcost & _ & _ & Htot).
  - repeat constructor.
  - exists c, g'. split; [reflexivity|]. split; [exact Hcost | exact Htot].
Defined.
